(** * LC-3 virtual machine (lc3.c): a shallow embedding and its properties

    The C program keeps the machine in two global arrays of [uint16_t]
    ([memory], 65536 words, and [reg], ten registers) and talks to a
    terminal.  The embedding threads these explicitly:

    - a [uint16_t] is a [Z] together with the conversion [u16] (reduction
      modulo 65536) applied at every place where C converts to [uint16_t]
      (assignment to a [uint16_t] object, passing a [uint16_t] argument);
    - an array of [uint16_t] with static storage is a finite map from
      indices to words, an absent index reading as the initial 0;
    - the terminal is a record holding what standard input will deliver and
      what has been printed so far; the characters that the C library has
      already read into the buffer of [stdin] are kept apart from those
      still on the descriptor, because [select] sees only the latter and
      [getchar] takes the former first;
    - an image file is the list of its bytes.

    Platform facts used by the source and fixed here: the host is
    little-endian (the loader swaps every word it reads), [char] is signed,
    [int] has 32 bits, and [fread] copies the bytes of a trailing partial
    element into the buffer.

    Left out: the terminal modes ([disable_input_buffering],
    [restore_input_buffering]) and the SIGINT handler, which touch neither
    memory nor registers.  The output loops of TRAP PUTS and TRAP PUTSP have
    no bound: when no zero word lies before the end of [memory] they read
    [memory[65536]], which C leaves undefined.  The embedding follows such a
    turn up to that read ([Fault], with what was printed until then) and
    says nothing about what the process does after it. *)

From Stdlib Require Import ZArith Lia List Bool.
From Stdlib Require Import Strings.Byte Strings.Ascii Strings.String.
From stdpp Require Import base option gmap.
Import ListNotations.

Open Scope Z_scope.

(** ** Words *)

(** Conversion of an [int] to [uint16_t]. *)
Definition u16 (z : Z) : Z := z mod 65536.

(** Conversion of an [int] to [char] (signed, 8 bits). *)
Definition to_char (z : Z) : Z := (z + 128) mod 256 - 128.

(** Conversion of an [int] to [unsigned char], as [putc] does. *)
Definition to_uchar (z : Z) : Z := z mod 256.

(** ** Enumerations of lc3.c *)

Definition R_R0 : Z := 0.
Definition R_R1 : Z := 1.
Definition R_R2 : Z := 2.
Definition R_R3 : Z := 3.
Definition R_R4 : Z := 4.
Definition R_R5 : Z := 5.
Definition R_R6 : Z := 6.
Definition R_R7 : Z := 7.
Definition R_PC : Z := 8.
Definition R_COND : Z := 9.
Definition R_COUNT : Z := 10.

Definition FL_POS : Z := Z.shiftl 1 0.
Definition FL_ZRO : Z := Z.shiftl 1 1.
Definition FL_NEG : Z := Z.shiftl 1 2.

Definition OP_BR : Z := 0.
Definition OP_ADD : Z := 1.
Definition OP_LD : Z := 2.
Definition OP_ST : Z := 3.
Definition OP_JSR : Z := 4.
Definition OP_AND : Z := 5.
Definition OP_LDR : Z := 6.
Definition OP_STR : Z := 7.
Definition OP_RTI : Z := 8.
Definition OP_NOT : Z := 9.
Definition OP_LDI : Z := 10.
Definition OP_STI : Z := 11.
Definition OP_JMP : Z := 12.
Definition OP_RES : Z := 13.
Definition OP_LEA : Z := 14.
Definition OP_TRAP : Z := 15.

Definition MR_KBSR : Z := 0xFE00.
Definition MR_KBDR : Z := 0xFE02.

Definition TRAP_GETC : Z := 0x20.
Definition TRAP_OUT : Z := 0x21.
Definition TRAP_PUTS : Z := 0x22.
Definition TRAP_IN : Z := 0x23.
Definition TRAP_PUTSP : Z := 0x24.
Definition TRAP_HALT : Z := 0x25.

Definition MEMORY_MAX : Z := Z.shiftl 1 16.

Definition PC_START : Z := 0x3000.

(** ** Arrays of words *)

Abbreviation array := (gmap Z Z).

(** [a[i]] as an rvalue. *)
Definition get (a : array) (i : Z) : Z := default 0 (a !! i).

(** ** The terminal *)

(** What standard input holds and will deliver, in the order the program
    meets it:
    - [Held c], a character in the buffer of [stdin]: an earlier [read] of
      the descriptor brought it in and no [getchar] has returned it yet;
    - [Keys c more], the characters that one [read] of the descriptor
      returns, those that have arrived by then;
    - [Idle], an instant at which the descriptor has nothing to read.
    The end of the list is the end of the input. *)
Inductive tty_event : Type :=
| Held (c : byte)
| Keys (c : byte) (more : list byte)
| Idle.

Record console : Type := Console {
  stdin : list tty_event;
  stdout : list Z
}.

(** What [select] finds on descriptor 0 with a zero timeout.  The buffer of
    [stdin] is not on the descriptor, so held characters are passed over
    and stay; an idle instant answers 0 and is over afterwards; characters
    on the descriptor and the end of the input answer 1. *)
Fixpoint select (i : list tty_event) : bool * list tty_event :=
  match i with
  | Held c :: rest => let '(ready, rest) := select rest in (ready, Held c :: rest)
  | Idle :: rest => (false, rest)
  | _ => (true, i)
  end.

Definition check_key (t : console) : bool * console :=
  let '(ready, i) := select (stdin t) in
  (ready, Console i (stdout t)).

(** [getchar] returns a held character when there is one.  With an empty
    buffer it reads the descriptor, waiting through idle instants; the
    [read] brings in all that has arrived, the first character is returned
    and the others are held. *)
Fixpoint next_key (i : list tty_event) : option (byte * list tty_event) :=
  match i with
  | [] => None
  | Held c :: rest => Some (c, rest)
  | Keys c more :: rest => Some (c, map Held more ++ rest)
  | Idle :: rest => next_key rest
  end.

Definition EOF : Z := -1.

Definition getchar (t : console) : Z * console :=
  match next_key (stdin t) with
  | Some (c, rest) => (Z.of_N (Byte.to_N c), Console rest (stdout t))
  | None => (EOF, Console [] (stdout t))
  end.

Definition putc (c : Z) (t : console) : console :=
  Console (stdin t) (stdout t ++ [to_uchar c]).

Definition chars (s : string) : list Z :=
  map (fun b => Z.of_N (Byte.to_N b)) (list_byte_of_string s).

Definition print (s : list Z) (t : console) : console :=
  Console (stdin t) (stdout t ++ s).

(** ** The machine *)

Record machine : Type := Machine {
  memory : array;
  reg : array;
  tty : console
}.

Definition with_memory (m : array) (s : machine) : machine :=
  Machine m (reg s) (tty s).

Definition with_tty (t : console) (s : machine) : machine :=
  Machine (memory s) (reg s) t.

(** [reg[r] = v;] *)
Definition set_reg (r v : Z) (s : machine) : machine :=
  Machine (memory s) (<[r := u16 v]> (reg s)) (tty s).

(** ** Helpers of lc3.c *)

Definition sign_extend (x : Z) (bit_count : Z) : Z :=
  if negb (Z.land (Z.shiftr x (bit_count - 1)) 1 =? 0)
  then u16 (Z.lor x (Z.shiftl 0xFFFF bit_count))
  else x.

Definition swap16 (x : Z) : Z :=
  u16 (Z.lor (Z.shiftl x 8) (Z.shiftr x 8)).

Definition update_flags (r : Z) (s : machine) : machine :=
  if get (reg s) r =? 0 then set_reg R_COND FL_ZRO s
  else if negb (Z.shiftr (get (reg s) r) 15 =? 0) then set_reg R_COND FL_NEG s
  else set_reg R_COND FL_POS s.

Definition mem_write (address val : Z) (s : machine) : machine :=
  with_memory (<[u16 address := u16 val]> (memory s)) s.

Definition mem_read (address : Z) (s : machine) : Z * machine :=
  let address := u16 address in
  let s :=
    if address =? MR_KBSR then
      let '(ready, t) := check_key (tty s) in
      if ready then
        let s := Machine (<[MR_KBSR := Z.shiftl 1 15]> (memory s)) (reg s) t in
        let '(c, t) := getchar (tty s) in
        Machine (<[MR_KBDR := u16 c]> (memory s)) (reg s) t
      else
        Machine (<[MR_KBSR := 0]> (memory s)) (reg s) t
    else s in
  (get (memory s) address, s).

(** ** The image loader *)

(** Two consecutive bytes of a file as [fread] leaves them in a
    [uint16_t] of the host. *)
Definition host_word (b0 b1 : byte) : Z :=
  Z.of_N (Byte.to_N b0) + 256 * Z.of_N (Byte.to_N b1).

(** A lone last byte of the file lands in the first byte of the element. *)
Definition host_partial (old : Z) (b0 : byte) : Z :=
  Z.lor (Z.land old 0xFF00) (Z.of_N (Byte.to_N b0)).

(** [fread(&origin, sizeof(origin), 1, file)]: [origin] is not initialised,
    [stale] is what it happens to hold before the call. *)
Definition fread_origin (stale : Z) (file : list byte) : Z * list byte :=
  match file with
  | b0 :: b1 :: rest => (host_word b0 b1, rest)
  | [b0] => (host_partial stale b0, [])
  | [] => (stale, [])
  end.

(** [fread(p, sizeof(uint16_t), max_read, file)]: the memory after the call
    and the number of complete elements read.  [p] is an index into
    [memory] that is not reduced modulo anything, as the pointer is not. *)
Fixpoint fread_words (max_read : nat) (file : list byte) (p : Z) (m : array)
  : array * nat :=
  match max_read with
  | O => (m, O)
  | S n =>
      match file with
      | b0 :: b1 :: rest =>
          let '(m', k) := fread_words n rest (p + 1) (<[p := host_word b0 b1]> m) in
          (m', S k)
      | [b0] => (<[p := host_partial (get m p) b0]> m, O)
      | [] => (m, O)
      end
  end.

(** [while (read-- > 0) { *p = swap16( *p ); ++p; }] *)
Fixpoint swap_words (read : nat) (p : Z) (m : array) : array :=
  match read with
  | O => m
  | S n => swap_words n (p + 1) (<[p := swap16 (get m p)]> m)
  end.

Definition read_image_file (stale : Z) (file : list byte) (m : array) : array :=
  let '(origin, rest) := fread_origin stale file in
  let origin := swap16 origin in
  let max_read := u16 (MEMORY_MAX - origin) in
  let p := origin in
  let '(m, read) := fread_words (Z.to_nat max_read) rest p m in
  swap_words read p m.

(** The files that [fopen] can open for reading, by path. *)
Definition filesystem : Type := string -> option (list byte).

Definition read_image (fs : filesystem) (stale : Z) (image_path : string)
  (m : array) : Z * array :=
  match fs image_path with
  | None => (0, m)
  | Some file => (1, read_image_file stale file m)
  end.

(** ** The instruction cycle *)

(** How one turn of the [while (running)] loop leaves the process. *)
Inductive status : Type :=
| Running (s : machine)   (* [running] is still 1 *)
| Halted (s : machine)    (* TRAP HALT cleared [running] *)
| Aborted (s : machine)   (* [abort()] *)
| Fault (s : machine).    (* the turn came to read [memory[65536]] *)

(** The machine as the turn left it. *)
Definition machine_of (st : status) : machine :=
  match st with
  | Running s | Halted s | Aborted s | Fault s => s
  end.

(** Instruction fields. *)
Definition bits_11_9 (instr : Z) : Z := Z.land (Z.shiftr instr 9) 0x7.
Definition bits_8_6 (instr : Z) : Z := Z.land (Z.shiftr instr 6) 0x7.
Definition bit_5 (instr : Z) : Z := Z.land (Z.shiftr instr 5) 0x1.
Definition bit_11 (instr : Z) : Z := Z.land (Z.shiftr instr 11) 1.

Definition op_add (instr : Z) (s : machine) : machine :=
  let r0 := bits_11_9 instr in
  let r1 := bits_8_6 instr in
  let imm_flag := bit_5 instr in
  let s :=
    if negb (imm_flag =? 0) then
      let imm5 := sign_extend (Z.land instr 0x1F) 5 in
      set_reg r0 (get (reg s) r1 + imm5) s
    else
      let r2 := Z.land instr 0x7 in
      set_reg r0 (get (reg s) r1 + get (reg s) r2) s in
  update_flags r0 s.

Definition op_and (instr : Z) (s : machine) : machine :=
  let r0 := bits_11_9 instr in
  let r1 := bits_8_6 instr in
  let imm_flag := bit_5 instr in
  let s :=
    if negb (imm_flag =? 0) then
      let imm5 := sign_extend (Z.land instr 0x1F) 5 in
      set_reg r0 (Z.land (get (reg s) r1) imm5) s
    else
      let r2 := Z.land instr 0x7 in
      set_reg r0 (Z.land (get (reg s) r1) (get (reg s) r2)) s in
  update_flags r0 s.

Definition op_not (instr : Z) (s : machine) : machine :=
  let r0 := bits_11_9 instr in
  let r1 := bits_8_6 instr in
  let s := set_reg r0 (Z.lnot (get (reg s) r1)) s in
  update_flags r0 s.

Definition op_br (instr : Z) (s : machine) : machine :=
  let pc_offset := sign_extend (Z.land instr 0x1FF) 9 in
  let cond_flag := bits_11_9 instr in
  if negb (Z.land cond_flag (get (reg s) R_COND) =? 0)
  then set_reg R_PC (get (reg s) R_PC + pc_offset) s
  else s.

Definition op_jmp (instr : Z) (s : machine) : machine :=
  let r1 := bits_8_6 instr in
  set_reg R_PC (get (reg s) r1) s.

Definition op_jsr (instr : Z) (s : machine) : machine :=
  let long_flag := bit_11 instr in
  let s := set_reg R_R7 (get (reg s) R_PC) s in
  if negb (long_flag =? 0) then
    let long_pc_offset := sign_extend (Z.land instr 0x7FF) 11 in
    set_reg R_PC (get (reg s) R_PC + long_pc_offset) s
  else
    let r1 := bits_8_6 instr in
    set_reg R_PC (get (reg s) r1) s.

Definition op_ld (instr : Z) (s : machine) : machine :=
  let r0 := bits_11_9 instr in
  let pc_offset := sign_extend (Z.land instr 0x1FF) 9 in
  let '(v, s) := mem_read (get (reg s) R_PC + pc_offset) s in
  let s := set_reg r0 v s in
  update_flags r0 s.

Definition op_ldi (instr : Z) (s : machine) : machine :=
  let r0 := bits_11_9 instr in
  let pc_offset := sign_extend (Z.land instr 0x1FF) 9 in
  let '(a, s) := mem_read (get (reg s) R_PC + pc_offset) s in
  let '(v, s) := mem_read a s in
  let s := set_reg r0 v s in
  update_flags r0 s.

Definition op_ldr (instr : Z) (s : machine) : machine :=
  let r0 := bits_11_9 instr in
  let r1 := bits_8_6 instr in
  let offset := sign_extend (Z.land instr 0x3F) 6 in
  let '(v, s) := mem_read (get (reg s) r1 + offset) s in
  let s := set_reg r0 v s in
  update_flags r0 s.

Definition op_lea (instr : Z) (s : machine) : machine :=
  let r0 := bits_11_9 instr in
  let pc_offset := sign_extend (Z.land instr 0x1FF) 9 in
  let s := set_reg r0 (get (reg s) R_PC + pc_offset) s in
  update_flags r0 s.

Definition op_st (instr : Z) (s : machine) : machine :=
  let r0 := bits_11_9 instr in
  let pc_offset := sign_extend (Z.land instr 0x1FF) 9 in
  mem_write (get (reg s) R_PC + pc_offset) (get (reg s) r0) s.

Definition op_sti (instr : Z) (s : machine) : machine :=
  let r0 := bits_11_9 instr in
  let pc_offset := sign_extend (Z.land instr 0x1FF) 9 in
  let '(a, s) := mem_read (get (reg s) R_PC + pc_offset) s in
  mem_write a (get (reg s) r0) s.

Definition op_str (instr : Z) (s : machine) : machine :=
  let r0 := bits_11_9 instr in
  let r1 := bits_8_6 instr in
  let offset := sign_extend (Z.land instr 0x3F) 6 in
  mem_write (get (reg s) r1 + offset) (get (reg s) r0) s.

(** The output loop of TRAP PUTS, [while ( *c ) { putc((char)*c, stdout); c++; }].
    [room] counts the words from [c] to the end of [memory].  The result
    tells whether the loop met a zero word inside the array (true) or came
    to read [memory[65536]] (false), and what it had printed by then. *)
Fixpoint puts_words (room : nat) (c : Z) (m : array) (t : console)
  : bool * console :=
  match room with
  | O => (false, t)
  | S n =>
      if negb (get m c =? 0)
      then puts_words n (c + 1) m (putc (to_char (get m c)) t)
      else (true, t)
  end.

(** The output loop of TRAP PUTSP. *)
Fixpoint putsp_words (room : nat) (c : Z) (m : array) (t : console)
  : bool * console :=
  match room with
  | O => (false, t)
  | S n =>
      if negb (get m c =? 0) then
        let char1 := to_char (Z.land (get m c) 0xFF) in
        let t := putc char1 t in
        let char2 := to_char (Z.shiftr (get m c) 8) in
        let t := if negb (char2 =? 0) then putc char2 t else t in
        putsp_words n (c + 1) m t
      else (true, t)
  end.

Definition newline : list Z := [10].

Definition op_trap (instr : Z) (s : machine) : status :=
  let s := set_reg R_R7 (get (reg s) R_PC) s in
  let code := Z.land instr 0xFF in
  if code =? TRAP_GETC then
    let '(c, t) := getchar (tty s) in
    let s := set_reg R_R0 c (with_tty t s) in
    Running (update_flags R_R0 s)
  else if code =? TRAP_OUT then
    Running (with_tty (putc (to_char (get (reg s) R_R0)) (tty s)) s)
  else if code =? TRAP_PUTS then
    let c := get (reg s) R_R0 in
    let '(ended, t) := puts_words (Z.to_nat (MEMORY_MAX - c)) c (memory s) (tty s) in
    if ended then Running (with_tty t s) else Fault (with_tty t s)
  else if code =? TRAP_IN then
    let t := print (chars "Enter a character: ") (tty s) in
    let '(c, t) := getchar t in
    let c := to_char c in
    let t := putc c t in
    let s := set_reg R_R0 c (with_tty t s) in
    Running (update_flags R_R0 s)
  else if code =? TRAP_PUTSP then
    let c := get (reg s) R_R0 in
    let '(ended, t) := putsp_words (Z.to_nat (MEMORY_MAX - c)) c (memory s) (tty s) in
    if ended then Running (with_tty t s) else Fault (with_tty t s)
  else if code =? TRAP_HALT then
    Halted (with_tty (print (chars "Shutdown" ++ newline) (tty s)) s)
  else
    Running s.

(** [uint16_t instr = mem_read(reg[R_PC]++);] *)
Definition fetch (s : machine) : Z * machine :=
  let pc := get (reg s) R_PC in
  let s := set_reg R_PC (pc + 1) s in
  mem_read pc s.

(** The [switch (op)] of the loop body. *)
Definition execute (instr : Z) (s : machine) : status :=
  let op := Z.shiftr instr 12 in
  if op =? OP_ADD then Running (op_add instr s)
  else if op =? OP_AND then Running (op_and instr s)
  else if op =? OP_NOT then Running (op_not instr s)
  else if op =? OP_BR then Running (op_br instr s)
  else if op =? OP_JMP then Running (op_jmp instr s)
  else if op =? OP_JSR then Running (op_jsr instr s)
  else if op =? OP_LD then Running (op_ld instr s)
  else if op =? OP_LDI then Running (op_ldi instr s)
  else if op =? OP_LDR then Running (op_ldr instr s)
  else if op =? OP_LEA then Running (op_lea instr s)
  else if op =? OP_ST then Running (op_st instr s)
  else if op =? OP_STI then Running (op_sti instr s)
  else if op =? OP_STR then Running (op_str instr s)
  else if op =? OP_TRAP then op_trap instr s
  else Aborted s.

(** One turn of the loop. *)
Definition step (s : machine) : status :=
  let '(instr, s) := fetch s in
  execute instr s.

(** At most [turns] turns of [while (running)]; [Running] is returned when
    they are used up with [running] still set. *)
Fixpoint run (turns : nat) (s : machine) : status :=
  match turns with
  | O => Running s
  | S n =>
      match step s with
      | Running s' => run n s'
      | st => st
      end
  end.

(** ** The program *)

(** How the process ends: [exit(code)] before the loop is entered, or the
    way the loop went. *)
Inductive process_end : Type :=
| Exit (code : Z) (t : console)
| Loop (st : status).

(** [for (int j = 1; j < argc; ++j) if (!read_image(argv[j])) ...]: the
    path that could not be read, or the memory with every image in it.
    [stale j] is the indeterminate content of [origin] in the [j]-th call. *)
Fixpoint load_images (fs : filesystem) (stale : nat -> Z) (j : nat)
  (paths : list string) (m : array) : string + array :=
  match paths with
  | [] => inr m
  | image_path :: rest =>
      let '(ok, m) := read_image fs (stale j) image_path m in
      if ok =? 0 then inl image_path
      else load_images fs stale (S j) rest m
  end.

Definition main (fs : filesystem) (stale : nat -> Z) (argv : list string)
  (t : console) (turns : nat) : process_end :=
  if Z.of_nat (length argv) <? 2 then
    Exit 2 (print (chars "./lc3-vm [image-file1] ..." ++ newline) t)
  else
    match load_images fs stale 1 (tl argv) ∅ with
    | inl image_path =>
        Exit 1 (print (chars "failed to load image: " ++ chars image_path
                       ++ newline) t)
    | inr m =>
        let s := Machine m ∅ t in
        let s := set_reg R_COND FL_ZRO s in
        let s := set_reg R_PC PC_START s in
        Loop (run turns s)
    end.

(** * Reference definitions

    What the specification says, in its own words, to compare the code
    with. *)

(** ** Sign extension and flags *)

(** The value of a [w]-bit field read as a two's-complement number. *)
Definition field_value (w x : Z) : Z :=
  if Z.testbit x (w - 1) then x - 2 ^ w else x.

(** The flag that stands for the sign of a word: ZERO for 0, NEGATIVE when
    the top bit is 1, POSITIVE otherwise. *)
Definition sign_flag (v : Z) : Z :=
  if v =? 0 then FL_ZRO
  else if Z.testbit v 15 then FL_NEG
  else FL_POS.

(** How many of the three flags are set in a condition-code value. *)
Definition flags_set (c : Z) : nat :=
  length (List.filter (fun f => negb (Z.land c f =? 0)) [FL_NEG; FL_ZRO; FL_POS]).

(** The condition-code value is one of the three flags, and no second flag
    is set in it. *)
Definition exactly_one_flag (c : Z) : Prop :=
  (c = FL_NEG \/ c = FL_ZRO \/ c = FL_POS) /\ flags_set c = 1%nat.

(** The flag-affecting operations: ADD, AND, NOT, LD, LDI, LDR, LEA, and
    TRAP with the GETC or IN vector. *)
Definition flag_affecting (instr : Z) : bool :=
  let op := Z.shiftr instr 12 in
  (op =? OP_ADD) || (op =? OP_AND) || (op =? OP_NOT) || (op =? OP_LD)
  || (op =? OP_LDI) || (op =? OP_LDR) || (op =? OP_LEA)
  || ((op =? OP_TRAP)
      && ((Z.land instr 0xFF =? TRAP_GETC) || (Z.land instr 0xFF =? TRAP_IN))).

(** The register such an operation writes: R0 for the two traps, the
    register named in bits 11 to 9 otherwise. *)
Definition destination (instr : Z) : Z :=
  if Z.shiftr instr 12 =? OP_TRAP then R_R0 else bits_11_9 instr.

(** Register [r] holds a 16-bit word and the condition codes hold the flag
    of that word. *)
Definition cond_tracks (r : Z) (s' : machine) : Prop :=
  0 <= get (reg s') r < 65536 /\
  get (reg s') R_COND = sign_flag (get (reg s') r).

(** The second operand of ADD and AND: the sign-extended 5-bit immediate
    when bit 5 of the instruction is set, the register named in bits 2 to
    0 otherwise. *)
Definition second_operand (instr : Z) (s : machine) : Z :=
  if bit_5 instr =? 1 then sign_extend (Z.land instr 0x1F) 5
  else get (reg s) (Z.land instr 0x7).

(** ** The loop *)

(** The states the loop passes through when it starts in [s0]. *)
Inductive reachable (s0 : machine) : machine -> Prop :=
| reachable_start : reachable s0 s0
| reachable_turn (s s' : machine) :
    reachable s0 s -> step s = Running s' -> reachable s0 s'.

(** The six trap vectors that have a service. *)
Definition defined_trap_code (code : Z) : bool :=
  (code =? TRAP_GETC) || (code =? TRAP_OUT) || (code =? TRAP_PUTS)
  || (code =? TRAP_IN) || (code =? TRAP_PUTSP) || (code =? TRAP_HALT).

(** A turn that ends the run with an error: neither going on nor a normal
    halt. *)
Definition stops_with_error (st : status) : Prop :=
  match st with
  | Aborted _ | Fault _ => True
  | Running _ | Halted _ => False
  end.

(** The requirement that a TRAP whose vector has no service ends the run
    with an error. *)
Definition undefined_trap_is_an_error : Prop :=
  forall (s : machine) (instr : Z) (s1 : machine),
    fetch s = (instr, s1) ->
    Z.shiftr instr 12 = OP_TRAP ->
    defined_trap_code (Z.land instr 0xFF) = false ->
    stops_with_error (step s).

(** ** The loader *)

(** The loader in the words of the specification: the first 16-bit
    big-endian word of the stream is the origin; the words after it are
    written in ascending order from the origin, until the stream ends or
    the destination would pass the top of the address space, 0xFFFF. *)
Definition be_word (hi lo : byte) : Z :=
  256 * Z.of_N (Byte.to_N hi) + Z.of_N (Byte.to_N lo).

Fixpoint store_words_spec (body : list byte) (address : Z) (m : array) : array :=
  match body with
  | hi :: lo :: rest =>
      if address <=? 0xFFFF
      then store_words_spec rest (address + 1) (<[address := be_word hi lo]> m)
      else m
  | _ => m
  end.

Definition load_image_spec (file : list byte) (m : array) : array :=
  match file with
  | hi :: lo :: body => store_words_spec body (be_word hi lo) m
  | _ => m
  end.

(** The origin the loader of lc3.c takes from a file. *)
Definition image_origin (stale : Z) (file : list byte) : Z :=
  swap16 (fst (fread_origin stale file)).

(** * Sample machines, instructions and images *)

(** A machine about to run the one instruction [instr] placed at 0x3000,
    with the given registers and input. *)
Definition poised (instr : Z) (regs : array) (input : list tty_event) : machine :=
  let s := Machine (<[PC_START := instr]> ∅) regs (Console input []) in
  let s := set_reg R_COND FL_ZRO s in
  set_reg R_PC PC_START s.

(** ADD R0, R1, R2 and ADD R0, R1, #1. *)
Definition ADD_R0_R1_R2 : Z := 0x1042.
Definition ADD_R0_R1_1 : Z := 0x1061.

(** A machine whose R1 holds 0xFFFF and whose R2 holds 0x0001. *)
Definition ffff_and_one : machine :=
  Machine ∅ (<[R_R1 := 0xFFFF]> (<[R_R2 := 0x0001]> ∅)) (Console [] []).

(** JSRR R7, RTI, and a word with the reserved opcode. *)
Definition JSRR_R7 : Z := 0x41C0.
Definition RTI : Z := 0x8000.
Definition RESERVED : Z := 0xD000.

(** TRAP x26, a vector without a service, and TRAP HALT. *)
Definition TRAP_x26 : Z := 0xF026.
Definition HALT : Z := 0xF025.

(** TRAP x26 at 0x3000 followed by HALT at 0x3001. *)
Definition trap_x26_then_halt : machine :=
  let s := Machine (<[0x3001 := HALT]> (<[PC_START := TRAP_x26]> ∅)) ∅
                   (Console [] []) in
  let s := set_reg R_COND FL_ZRO s in
  set_reg R_PC PC_START s.

(** A machine with empty memory at whose keyboard the key a waits and the
    key b comes after it, each brought in by a read of its own. *)
Definition key_a_waits : machine :=
  Machine ∅ ∅ (Console [Keys "a"%byte []; Keys "b"%byte []] []).

(** The same machine when a and b have both arrived before the first read
    and nothing follows for a while, and when nothing has arrived yet. *)
Definition keys_a_b_arrived : machine :=
  Machine ∅ ∅ (Console [Keys "a"%byte ["b"%byte]; Idle] []).


(** A file system holding the single image a.obj, which places 0x1234 at
    0x3000. *)
Definition one_image : filesystem :=
  fun path => if String.eqb path "a.obj" then Some [x30; x00; x12; x34] else None.

(** An image with origin 0x0000 and the one body word 0x1234. *)
Definition image_at_zero : list byte := [x00; x00; x12; x34].

(** An image with origin 0x3000 and body 0x0001 0x0002. *)
Definition image_1_2 : list byte := [x30; x00; x00; x01; x00; x02].

(** A program that prints HI: LEA R0, #2; PUTS; HALT; 'H'; 'I'; 0. *)
Definition image_hi : list byte :=
  [x30; x00; xe0; x02; xf0; x22; xf0; x25; x00; x48; x00; x49; x00; x00].

Definition hi_files : filesystem :=
  fun path => if String.eqb path "hi.obj" then Some image_hi else None.

(** * Further reference definitions *)

(** ** Well-formed machines *)

(** Every index in use lies in [lo .. hi] and every cell holds a 16-bit
    word: the finite map stands for a C array [uint16_t a[hi + 1]]. *)
Definition word_array (lo hi : Z) (a : array) : Prop :=
  map_Forall (fun i v => lo <= i <= hi /\ 0 <= v < 65536) a.

(** [memory] has [MEMORY_MAX] cells and [reg] has [R_COUNT]. *)
Definition wf_machine (s : machine) : Prop :=
  word_array 0 (MEMORY_MAX - 1) (memory s) /\
  word_array 0 (R_COUNT - 1) (reg s).

(** ** Images *)

(** The [i]-th big-endian word of the body of an image, when the body has
    one. *)
Fixpoint image_word (i : nat) (body : list byte) {struct body} : option Z :=
  match body with
  | hi :: lo :: rest =>
      match i with
      | O => Some (be_word hi lo)
      | S i' => image_word i' rest
      end
  | _ => None
  end.

(** ** Instructions *)

(** The registers an instruction may write when it is executed (the
    program counter's increment at the fetch apart). *)
Definition written_registers (instr : Z) : list Z :=
  let op := Z.shiftr instr 12 in
  if (op =? OP_ADD) || (op =? OP_AND) || (op =? OP_NOT) || (op =? OP_LD)
     || (op =? OP_LDI) || (op =? OP_LDR) || (op =? OP_LEA)
  then [bits_11_9 instr; R_COND]
  else if (op =? OP_BR) || (op =? OP_JMP) then [R_PC]
  else if op =? OP_JSR then [R_R7; R_PC]
  else if op =? OP_TRAP then
    if (Z.land instr 0xFF =? TRAP_GETC) || (Z.land instr 0xFF =? TRAP_IN)
    then [R_R7; R_R0; R_COND]
    else [R_R7]
  else [].

(** BR, JMP and JSR, the instructions that set the program counter. *)
Definition control_transfer (instr : Z) : bool :=
  let op := Z.shiftr instr 12 in
  (op =? OP_BR) || (op =? OP_JMP) || (op =? OP_JSR).

(** ST, STI and STR, the instructions that write memory. *)
Definition is_store (instr : Z) : bool :=
  let op := Z.shiftr instr 12 in
  (op =? OP_ST) || (op =? OP_STI) || (op =? OP_STR).

(** RET, that is JMP R7. *)
Definition RET : Z := 0xC1C0.

(** ** Strings in memory *)

(** The cells from [a] on hold the non-zero words [ws], then a zero
    word. *)
Fixpoint string_at (m : array) (a : Z) (ws : list Z) : Prop :=
  match ws with
  | [] => get m a = 0
  | w :: rest => get m a = w /\ w <> 0 /\ string_at m (a + 1) rest
  end.

(** The [n] words of [m] from address [a] on. *)
Fixpoint words_from (m : array) (a : Z) (n : nat) : list Z :=
  match n with
  | O => []
  | S n => get m a :: words_from m (a + 1) n
  end.

(** The bytes PUTS prints for a word: its low byte. *)
Definition low_byte (w : Z) : Z := w mod 256.

(** The bytes PUTSP prints for a word: its low byte, then its high byte
    unless that is zero. *)
Definition packed_chars (w : Z) : list Z :=
  low_byte w :: (if low_byte (w / 256) =? 0 then [] else [low_byte (w / 256)]).

(** The word a character read by TRAP IN leaves in R0: the byte as a
    signed [char], converted to [uint16_t]. *)
Definition sign_extended_byte (c : Z) : Z :=
  if c <? 128 then c else 0xFF00 + c.

(** A machine whose R0 points at the words 'H', 'I', 0 stored at 0x4000,
    and one whose R0 points at 0xFFFF, the last cell, holding 'A'. *)
Definition hi_at_4000 : machine :=
  Machine (<[0x4001 := 0x49]> (<[0x4000 := 0x48]> ∅)) (<[R_R0 := 0x4000]> ∅) (Console [] []).

Definition unterminated : machine :=
  Machine (<[0xFFFF := 0x41]> ∅) (<[R_R0 := 0xFFFF]> ∅) (Console [] []).

(** TRAP GETC, TRAP PUTS, TRAP IN and TRAP PUTSP. *)
Definition GETC : Z := 0xF020.
Definition PUTS : Z := 0xF022.
Definition IN : Z := 0xF023.
Definition PUTSP : Z := 0xF024.

(** * Properties *)

(** ** Bits of words *)

Section Bits.

Lemma u16_range z : 0 <= u16 z < 65536.
Proof. unfold u16. apply Z.mod_pos_bound. lia. Qed.

Lemma u16_small z : 0 <= z < 65536 -> u16 z = z.
Proof. unfold u16. intros H. apply Z.mod_small. exact H. Qed.

Lemma u16_testbit z i :
  Z.testbit (u16 z) i = (i <? 16) && Z.testbit z i.
Proof.
  unfold u16. change 65536 with (2 ^ 16).
  apply Z.testbit_mod_pow2. lia.
Qed.

(** The C test [if (a & 1)]. *)
Lemma land_1_testbit a : (Z.land a 1 =? 0) = negb (Z.testbit a 0).
Proof.
  change 1 with (Z.ones 1) at 1. rewrite Z.land_ones by lia.
  rewrite Z.bit0_eqb. change (2 ^ 1) with 2.
  pose proof (Z.mod_pos_bound a 2 ltac:(lia)) as Hb.
  destruct (a mod 2 =? 0) eqn:E0, (a mod 2 =? 1) eqn:E1; try reflexivity; lia.
Qed.

Lemma small_high_bits w x i :
  0 <= w -> 0 <= x < 2 ^ w -> w <= i -> Z.testbit x i = false.
Proof.
  intros Hw Hx Hi.
  apply (proj1 (Z.bounded_iff_bits_nonneg' w x Hw (proj1 Hx)) Hx). exact Hi.
Qed.

Lemma ffff_shifted_testbit w i :
  0 <= w -> 0 <= i ->
  Z.testbit (Z.shiftl 0xFFFF w) i = (w <=? i) && (i <? w + 16).
Proof.
  intros Hw Hi. rewrite Z.shiftl_spec by lia.
  change 0xFFFF with (Z.ones 16). rewrite Z.testbit_ones by lia.
  destruct (w <=? i) eqn:E1, (i <? w + 16) eqn:E2,
    (0 <=? i - w) eqn:E3, (i - w <? 16) eqn:E4; try reflexivity; lia.
Qed.

End Bits.

(** ** Sign extension *)

Section SignExtend.

Variables (w x : Z).
Hypothesis Hw : 0 < w <= 16.
Hypothesis Hx : 0 <= x < 2 ^ w.

Lemma sign_extend_cases :
  sign_extend x w =
  if Z.testbit x (w - 1) then u16 (Z.lor x (Z.shiftl 0xFFFF w)) else x.
Proof using Hw.
  unfold sign_extend. rewrite land_1_testbit, negb_involutive.
  rewrite Z.shiftr_spec by lia. reflexivity.
Qed.

Lemma sign_extend_testbit i :
  0 <= i < 16 ->
  Z.testbit (sign_extend x w) i =
  if i <? w then Z.testbit x i else Z.testbit x (w - 1).
Proof using Hw Hx.
  intros Hi. rewrite sign_extend_cases.
  destruct (Z.testbit x (w - 1)) eqn:Hs.
  - rewrite u16_testbit, Z.lor_spec, ffff_shifted_testbit by lia.
    destruct (i <? w) eqn:E.
    + replace (i <? 16) with true by lia.
      replace (w <=? i) with false by lia.
      cbn. apply orb_false_r.
    + replace (i <? 16) with true by lia.
      replace (w <=? i) with true by lia.
      replace (i <? w + 16) with true by lia.
      cbn. apply orb_true_r.
  - destruct (i <? w) eqn:E; [reflexivity|].
    apply (small_high_bits w); lia.
Qed.

Lemma sign_extend_range : 0 <= sign_extend x w < 65536.
Proof using Hw Hx.
  rewrite sign_extend_cases.
  destruct (Z.testbit x (w - 1)); [apply u16_range|].
  assert (2 ^ w <= 2 ^ 16) by (apply Z.pow_le_mono_r; lia).
  change (2 ^ 16) with 65536 in *. lia.
Qed.

Lemma sign_extend_field_value : sign_extend x w = u16 (field_value w x).
Proof using Hw Hx.
  rewrite sign_extend_cases. unfold field_value.
  assert (Hp : 2 ^ w <= 2 ^ 16) by (apply Z.pow_le_mono_r; lia).
  change (2 ^ 16) with 65536 in Hp.
  destruct (Z.testbit x (w - 1)).
  - rewrite <- Z.add_nocarry_lor.
    + rewrite Z.shiftl_mul_pow2 by lia.
      replace (x + 65535 * 2 ^ w) with (x - 2 ^ w + 2 ^ w * 65536) by ring.
      unfold u16. apply Z.mod_add. lia.
    + apply Z.bits_inj'. intros i Hi.
      rewrite Z.land_spec, Z.bits_0, ffff_shifted_testbit by lia.
      destruct (w <=? i) eqn:E.
      * rewrite (small_high_bits w) by lia. reflexivity.
      * cbn. apply andb_false_r.
  - symmetry. apply u16_small. lia.
Qed.

End SignExtend.

(** C8. Sign extension fills every bit above position w-1 with a copy of
    bit w-1: the 5-bit pattern 11111 becomes 0xFFFF and 01111 becomes
    0x000F, and for each of the widths 5, 6, 9 and 11 and every word whose
    bits from position w upwards are zero the result has the bits of the
    field below w and bit w-1 of the field from w to 15, is a 16-bit word,
    and is the two's-complement value of the field reduced modulo 65536. *)
Theorem sign_extend_twos_complement :
  sign_extend 0x1F 5 = 0xFFFF /\
  sign_extend 0x0F 5 = 0x000F /\
  forall w x : Z,
    w = 5 \/ w = 6 \/ w = 9 \/ w = 11 ->
    0 <= x < 2 ^ w ->
    (forall i, 0 <= i < 16 ->
       Z.testbit (sign_extend x w) i =
       if i <? w then Z.testbit x i else Z.testbit x (w - 1)) /\
    0 <= sign_extend x w < 65536 /\
    sign_extend x w = u16 (field_value w x).
Proof.
  split; [reflexivity|]. split; [reflexivity|].
  intros w x Hw Hx.
  assert (Hw' : 0 < w <= 16) by lia.
  split; [|split].
  - intros i Hi. apply sign_extend_testbit; assumption.
  - apply sign_extend_range; assumption.
  - apply sign_extend_field_value; assumption.
Qed.

Lemma sign_extend_twos_complement_witness :
  (9 = 5 \/ 9 = 6 \/ 9 = 9 \/ 9 = 11) /\ 0 <= 0x1FE < 2 ^ 9 /\
  sign_extend 0x1FE 9 = u16 (field_value 9 0x1FE) /\
  sign_extend 0x1FE 9 = 0xFFFE.
Proof.
  assert (Hw : 9 = 5 \/ 9 = 6 \/ 9 = 9 \/ 9 = 11) by (right; right; left; reflexivity).
  assert (Hx : 0 <= 0x1FE < 2 ^ 9) by (cbn; lia).
  split; [exact Hw|]. split; [exact Hx|]. split.
  - exact (proj2 (proj2 (proj2 (proj2 sign_extend_twos_complement) 9 0x1FE Hw Hx))).
  - reflexivity.
Defined.

(** ** Arrays and registers *)

Section Arrays.

Lemma get_insert_eq (a : array) i v : get (<[i := v]> a) i = v.
Proof. unfold get. rewrite lookup_insert_eq. reflexivity. Qed.

Lemma get_insert_ne (a : array) i j v : i <> j -> get (<[i := v]> a) j = get a j.
Proof. intros H. unfold get. rewrite lookup_insert_ne by exact H. reflexivity. Qed.

Lemma get_set_reg_eq r v s : get (reg (set_reg r v s)) r = u16 v.
Proof. apply get_insert_eq. Qed.

Lemma get_set_reg_ne r r' v s : r <> r' -> get (reg (set_reg r v s)) r' = get (reg s) r'.
Proof. apply get_insert_ne. Qed.

Lemma reg_mem_read a s : reg (snd (mem_read a s)) = reg s.
Proof.
  unfold mem_read. cbn.
  destruct (u16 a =? MR_KBSR); [|reflexivity].
  destruct (check_key (tty s)) as [[|] t]; cbn; [|reflexivity].
  destruct (getchar t); reflexivity.
Qed.

Lemma reg_mem_write a v s : reg (mem_write a v s) = reg s.
Proof. reflexivity. Qed.

Lemma land_7_range a : 0 <= Z.land a 0x7 < 8.
Proof.
  change 0x7 with (Z.ones 3). rewrite Z.land_ones by lia.
  apply Z.mod_pos_bound. reflexivity.
Qed.

Lemma bits_11_9_range instr : 0 <= bits_11_9 instr < 8.
Proof. apply land_7_range. Qed.

Lemma bits_8_6_range instr : 0 <= bits_8_6 instr < 8.
Proof. apply land_7_range. Qed.

End Arrays.

(** ** Condition codes *)

Section Flags.

Lemma sign_flag_cases v :
  (sign_flag v = FL_ZRO /\ v = 0) \/
  (sign_flag v = FL_NEG /\ v <> 0 /\ Z.testbit v 15 = true) \/
  (sign_flag v = FL_POS /\ v <> 0 /\ Z.testbit v 15 = false).
Proof.
  unfold sign_flag. destruct (v =? 0) eqn:E.
  - left. split; [reflexivity|lia].
  - destruct (Z.testbit v 15); [right; left | right; right];
      (split; [reflexivity | split; [lia | reflexivity]]).
Qed.

Lemma sign_flag_one v : exactly_one_flag (sign_flag v).
Proof.
  destruct (sign_flag_cases v) as [[-> _]|[[-> _]|[-> _]]];
    (split; [tauto | reflexivity]).
Qed.

(** The C test [reg[r] >> 15] on a 16-bit word is a test of bit 15. *)
Lemma top_bit_shift v :
  0 <= v < 65536 -> (Z.shiftr v 15 =? 0) = negb (Z.testbit v 15).
Proof.
  intros Hv. rewrite Z.testbit_eqb by lia. rewrite Z.shiftr_div_pow2 by lia.
  assert (0 <= v / 2 ^ 15 < 2) as Hq.
  { split; [apply Z.div_pos; lia | apply Z.div_lt_upper_bound; lia]. }
  rewrite (Z.mod_small _ 2) by lia.
  destruct (v / 2 ^ 15 =? 0) eqn:E0, (v / 2 ^ 15 =? 1) eqn:E1;
    try reflexivity; lia.
Qed.

Lemma update_flags_reg r s :
  0 <= get (reg s) r < 65536 ->
  update_flags r s = set_reg R_COND (sign_flag (get (reg s) r)) s.
Proof.
  intros Hv. unfold update_flags, sign_flag.
  destruct (get (reg s) r =? 0); [reflexivity|].
  rewrite top_bit_shift, negb_involutive by exact Hv.
  destruct (Z.testbit (get (reg s) r) 15); reflexivity.
Qed.

(** [reg[r] = v; update_flags(r);] for a register other than R_COND. *)
Lemma set_then_update r v s :
  r <> R_COND ->
  update_flags r (set_reg r v s) =
  set_reg R_COND (sign_flag (u16 v)) (set_reg r v s).
Proof.
  intros Hr. rewrite update_flags_reg; rewrite get_set_reg_eq.
  - reflexivity.
  - apply u16_range.
Qed.

Lemma set_then_update_cond r v s :
  r <> R_COND -> cond_tracks r (update_flags r (set_reg r v s)).
Proof.
  intros Hr. unfold cond_tracks. rewrite set_then_update by exact Hr.
  rewrite get_set_reg_eq.
  rewrite get_set_reg_ne by (intros E; apply Hr; symmetry; exact E).
  rewrite get_set_reg_eq. split; [apply u16_range|].
  destruct (sign_flag_cases (u16 v)) as [[-> _]|[[-> _]|[-> _]]]; reflexivity.
Qed.

End Flags.

(** ** The dispatch on the opcode *)

Section Dispatch.

Variables (instr : Z) (s : machine).

Ltac by_opcode H := unfold execute; rewrite H; reflexivity.

Lemma execute_add : Z.shiftr instr 12 = OP_ADD -> execute instr s = Running (op_add instr s).
Proof. intros H. by_opcode H. Qed.
Lemma execute_and : Z.shiftr instr 12 = OP_AND -> execute instr s = Running (op_and instr s).
Proof. intros H. by_opcode H. Qed.
Lemma execute_not : Z.shiftr instr 12 = OP_NOT -> execute instr s = Running (op_not instr s).
Proof. intros H. by_opcode H. Qed.
Lemma execute_br : Z.shiftr instr 12 = OP_BR -> execute instr s = Running (op_br instr s).
Proof. intros H. by_opcode H. Qed.
Lemma execute_jmp : Z.shiftr instr 12 = OP_JMP -> execute instr s = Running (op_jmp instr s).
Proof. intros H. by_opcode H. Qed.
Lemma execute_jsr : Z.shiftr instr 12 = OP_JSR -> execute instr s = Running (op_jsr instr s).
Proof. intros H. by_opcode H. Qed.
Lemma execute_ld : Z.shiftr instr 12 = OP_LD -> execute instr s = Running (op_ld instr s).
Proof. intros H. by_opcode H. Qed.
Lemma execute_ldi : Z.shiftr instr 12 = OP_LDI -> execute instr s = Running (op_ldi instr s).
Proof. intros H. by_opcode H. Qed.
Lemma execute_ldr : Z.shiftr instr 12 = OP_LDR -> execute instr s = Running (op_ldr instr s).
Proof. intros H. by_opcode H. Qed.
Lemma execute_lea : Z.shiftr instr 12 = OP_LEA -> execute instr s = Running (op_lea instr s).
Proof. intros H. by_opcode H. Qed.
Lemma execute_st : Z.shiftr instr 12 = OP_ST -> execute instr s = Running (op_st instr s).
Proof. intros H. by_opcode H. Qed.
Lemma execute_sti : Z.shiftr instr 12 = OP_STI -> execute instr s = Running (op_sti instr s).
Proof. intros H. by_opcode H. Qed.
Lemma execute_str : Z.shiftr instr 12 = OP_STR -> execute instr s = Running (op_str instr s).
Proof. intros H. by_opcode H. Qed.
Lemma execute_trap : Z.shiftr instr 12 = OP_TRAP -> execute instr s = op_trap instr s.
Proof. intros H. by_opcode H. Qed.
Lemma execute_rti : Z.shiftr instr 12 = OP_RTI -> execute instr s = Aborted s.
Proof. intros H. by_opcode H. Qed.
Lemma execute_res : Z.shiftr instr 12 = OP_RES -> execute instr s = Aborted s.
Proof. intros H. by_opcode H. Qed.

End Dispatch.

(** ** What each operation does to the condition codes *)

Section ConditionCodes.

Variable instr : Z.

Let r0 := bits_11_9 instr.

Lemma r0_not_cond : r0 <> R_COND.
Proof. pose proof (bits_11_9_range instr). unfold r0, R_COND. lia. Qed.

Let cond_tracks_r0 := cond_tracks r0.

Lemma op_add_cond s : cond_tracks_r0 (op_add instr s).
Proof.
  unfold op_add. fold r0.
  destruct (negb (bit_5 instr =? 0)); apply set_then_update_cond, r0_not_cond.
Qed.

Lemma op_and_cond s : cond_tracks_r0 (op_and instr s).
Proof.
  unfold op_and. fold r0.
  destruct (negb (bit_5 instr =? 0)); apply set_then_update_cond, r0_not_cond.
Qed.

Lemma op_not_cond s : cond_tracks_r0 (op_not instr s).
Proof. unfold op_not. fold r0. apply set_then_update_cond, r0_not_cond. Qed.

Lemma op_ld_cond s : cond_tracks_r0 (op_ld instr s).
Proof.
  unfold op_ld. fold r0. destruct (mem_read _ s) as [v s1].
  apply set_then_update_cond, r0_not_cond.
Qed.

Lemma op_ldi_cond s : cond_tracks_r0 (op_ldi instr s).
Proof.
  unfold op_ldi. fold r0. destruct (mem_read _ s) as [a s1].
  destruct (mem_read a s1) as [v s2].
  apply set_then_update_cond, r0_not_cond.
Qed.

Lemma op_ldr_cond s : cond_tracks_r0 (op_ldr instr s).
Proof.
  unfold op_ldr. fold r0. destruct (mem_read _ s) as [v s1].
  apply set_then_update_cond, r0_not_cond.
Qed.

Lemma op_lea_cond s : cond_tracks_r0 (op_lea instr s).
Proof. unfold op_lea. fold r0. apply set_then_update_cond, r0_not_cond. Qed.

End ConditionCodes.

(** ** Operations that leave the condition codes alone *)

Section CondUntouched.

Lemma cond_set_reg r v s :
  r <> R_COND -> get (reg (set_reg r v s)) R_COND = get (reg s) R_COND.
Proof. apply get_set_reg_ne. Qed.

Lemma cond_mem_read a s v s1 :
  mem_read a s = (v, s1) -> get (reg s1) R_COND = get (reg s) R_COND.
Proof.
  intros E. pose proof (reg_mem_read a s) as H. rewrite E in H. cbn in H.
  rewrite H. reflexivity.
Qed.

Lemma cond_fetch s instr s1 :
  fetch s = (instr, s1) -> get (reg s1) R_COND = get (reg s) R_COND.
Proof.
  unfold fetch. intros E. rewrite (cond_mem_read _ _ _ _ E).
  apply cond_set_reg. discriminate.
Qed.

Variable instr : Z.

Lemma op_br_cond s : get (reg (op_br instr s)) R_COND = get (reg s) R_COND.
Proof.
  unfold op_br. destruct (negb _); [|reflexivity].
  apply cond_set_reg. discriminate.
Qed.

Lemma op_jmp_cond s : get (reg (op_jmp instr s)) R_COND = get (reg s) R_COND.
Proof. unfold op_jmp. apply cond_set_reg. discriminate. Qed.

Lemma op_jsr_cond s : get (reg (op_jsr instr s)) R_COND = get (reg s) R_COND.
Proof.
  unfold op_jsr. destruct (negb _);
    rewrite cond_set_reg by discriminate; apply cond_set_reg; discriminate.
Qed.

Lemma op_st_cond s : get (reg (op_st instr s)) R_COND = get (reg s) R_COND.
Proof. reflexivity. Qed.

Lemma op_sti_cond s : get (reg (op_sti instr s)) R_COND = get (reg s) R_COND.
Proof.
  unfold op_sti. destruct (mem_read _ s) as [a s1] eqn:E.
  rewrite reg_mem_write. apply (cond_mem_read _ _ _ _ E).
Qed.

Lemma op_str_cond s : get (reg (op_str instr s)) R_COND = get (reg s) R_COND.
Proof. reflexivity. Qed.

(** TRAP: the two reading services set the condition codes from R0, the
    others leave them, however the turn ends. *)
Lemma op_trap_cond s :
  if (Z.land instr 0xFF =? TRAP_GETC) || (Z.land instr 0xFF =? TRAP_IN)
  then cond_tracks R_R0 (machine_of (op_trap instr s))
  else get (reg (machine_of (op_trap instr s))) R_COND = get (reg s) R_COND.
Proof.
  unfold op_trap. cbv zeta.
  assert (Hlink : get (reg (set_reg R_R7 (get (reg s) R_PC) s)) R_COND
                  = get (reg s) R_COND) by (apply cond_set_reg; discriminate).
  set (s1 := set_reg R_R7 (get (reg s) R_PC) s) in *.
  destruct (Z.eqb_spec (Z.land instr 0xFF) TRAP_GETC) as [Hg|Hg].
  { cbn [orb]. destruct (getchar (tty s1)) as [c t].
    apply set_then_update_cond. discriminate. }
  destruct (Z.eqb_spec (Z.land instr 0xFF) TRAP_OUT) as [Ho|Ho].
  { rewrite Ho. cbn [Z.eqb TRAP_OUT TRAP_IN Pos.eqb orb]. exact Hlink. }
  destruct (Z.eqb_spec (Z.land instr 0xFF) TRAP_PUTS) as [Hp|Hp].
  { rewrite Hp. cbn [Z.eqb TRAP_PUTS TRAP_IN Pos.eqb orb].
    destruct (puts_words _ _ _ _) as [[|] ?]; exact Hlink. }
  destruct (Z.eqb_spec (Z.land instr 0xFF) TRAP_IN) as [Hi|Hi].
  { cbn [orb]. destruct (getchar _) as [c t].
    apply set_then_update_cond. discriminate. }
  cbn [orb].
  destruct (Z.eqb_spec (Z.land instr 0xFF) TRAP_PUTSP) as [Hq|Hq].
  { destruct (putsp_words _ _ _ _) as [[|] ?]; exact Hlink. }
  destruct (Z.eqb_spec (Z.land instr 0xFF) TRAP_HALT) as [Hh|Hh]; exact Hlink.
Qed.

End CondUntouched.

(** ** The invariant of the loop *)

Section Invariant.

(** A flag-affecting operation keeps the loop going and leaves in the
    condition codes the flag of the word now in its destination. *)
Lemma flag_affecting_execute instr s :
  flag_affecting instr = true ->
  exists s', execute instr s = Running s' /\
             cond_tracks (destination instr) s'.
Proof.
  unfold flag_affecting, destination. intros H.
  repeat (apply orb_true_iff in H; destruct H as [H|H]);
    try (apply Z.eqb_eq in H; rewrite H; cbn [Z.eqb OP_TRAP]).
  - rewrite execute_add by exact H. eexists; split; [reflexivity|apply op_add_cond].
  - rewrite execute_and by exact H. eexists; split; [reflexivity|apply op_and_cond].
  - rewrite execute_not by exact H. eexists; split; [reflexivity|apply op_not_cond].
  - rewrite execute_ld by exact H. eexists; split; [reflexivity|apply op_ld_cond].
  - rewrite execute_ldi by exact H. eexists; split; [reflexivity|apply op_ldi_cond].
  - rewrite execute_ldr by exact H. eexists; split; [reflexivity|apply op_ldr_cond].
  - rewrite execute_lea by exact H. eexists; split; [reflexivity|apply op_lea_cond].
  - apply andb_true_iff in H. destruct H as [Hop Hcode].
    apply Z.eqb_eq in Hop. rewrite Hop. cbn [Z.eqb OP_TRAP].
    rewrite execute_trap by exact Hop.
    assert (exists s', op_trap instr s = Running s') as [s' Hs'].
    { unfold op_trap. apply orb_true_iff in Hcode.
      destruct Hcode as [Hc|Hc]; apply Z.eqb_eq in Hc; rewrite Hc; cbn;
        destruct (getchar _); eexists; reflexivity. }
    exists s'. split; [exact Hs'|].
    pose proof (op_trap_cond instr s) as Ht. rewrite Hcode, Hs' in Ht. exact Ht.
Qed.

(** Every other operation leaves the condition codes as they were,
    however the turn ends. *)
Lemma other_execute instr s :
  flag_affecting instr = false ->
  get (reg (machine_of (execute instr s))) R_COND = get (reg s) R_COND.
Proof.
  unfold flag_affecting, execute.
  generalize (Z.shiftr instr 12) as op. intros op.
  destruct (Z.eqb_spec op OP_ADD); [discriminate|].
  destruct (Z.eqb_spec op OP_AND); [discriminate|].
  destruct (Z.eqb_spec op OP_NOT); [discriminate|].
  destruct (Z.eqb_spec op OP_BR); [intros _; apply op_br_cond|].
  destruct (Z.eqb_spec op OP_JMP); [intros _; apply op_jmp_cond|].
  destruct (Z.eqb_spec op OP_JSR); [intros _; apply op_jsr_cond|].
  destruct (Z.eqb_spec op OP_LD); [discriminate|].
  destruct (Z.eqb_spec op OP_LDI); [cbn; rewrite ?orb_true_r; discriminate|].
  destruct (Z.eqb_spec op OP_LDR); [cbn; rewrite ?orb_true_r; discriminate|].
  destruct (Z.eqb_spec op OP_LEA); [cbn; rewrite ?orb_true_r; discriminate|].
  destruct (Z.eqb_spec op OP_ST); [intros _; apply op_st_cond|].
  destruct (Z.eqb_spec op OP_STI); [intros _; apply op_sti_cond|].
  destruct (Z.eqb_spec op OP_STR); [intros _; apply op_str_cond|].
  destruct (Z.eqb_spec op OP_TRAP); [|reflexivity].
  cbn [orb andb]. intros Hcode.
  pose proof (op_trap_cond instr s) as Ht. rewrite Hcode in Ht. exact Ht.
Qed.

(** One turn keeps the invariant, whether the loop goes on or ends. *)
Lemma step_one_flag s :
  exactly_one_flag (get (reg s) R_COND) ->
  exactly_one_flag (get (reg (machine_of (step s))) R_COND).
Proof.
  unfold step. intros Hinv. destruct (fetch s) as [instr s1] eqn:Hf.
  destruct (flag_affecting instr) eqn:Hfa.
  - destruct (flag_affecting_execute instr s1 Hfa) as (s2 & Hs2 & Hc).
    rewrite Hs2. cbn [machine_of].
    destruct Hc as [_ Hc]. rewrite Hc. apply sign_flag_one.
  - rewrite (other_execute instr s1 Hfa), (cond_fetch _ _ _ Hf).
    exact Hinv.
Qed.

Lemma reachable_one_flag s0 s :
  get (reg s0) R_COND = FL_ZRO ->
  reachable s0 s ->
  exactly_one_flag (get (reg s) R_COND).
Proof.
  intros H0 Hr. induction Hr as [|s s' Hr IH Hstep].
  - rewrite H0. split; [tauto|reflexivity].
  - pose proof (step_one_flag s IH) as H. rewrite Hstep in H. exact H.
Qed.

(** The loop as a function passes only through reachable states. *)
Lemma reachable_after_turn s0 s1 s :
  step s0 = Running s1 -> reachable s1 s -> reachable s0 s.
Proof.
  intros Hstep Hr. induction Hr as [|s s' Hr IH Hs].
  - exact (reachable_turn s0 s0 s1 (reachable_start s0) Hstep).
  - exact (reachable_turn s0 s s' IH Hs).
Qed.

Lemma run_reachable turns :
  forall s0 s, run turns s0 = Running s -> reachable s0 s.
Proof.
  induction turns as [|n IH]; intros s0 s Hrun.
  - injection Hrun as <-. apply reachable_start.
  - cbn [run] in Hrun. destruct (step s0) as [s1| | |] eqn:Hstep; try discriminate.
    exact (reachable_after_turn s0 s1 s Hstep (IH s1 s Hrun)).
Qed.

End Invariant.

(** C1. From the start of the loop, where the condition codes hold ZERO,
    every state the loop reaches holds exactly one of NEGATIVE, ZERO and
    POSITIVE in the condition-code register, and so does the state in
    which the next turn leaves the machine, whether the loop goes on or
    ends there.  Whenever the instruction fetched is ADD, AND, NOT, LD,
    LDI, LDR, LEA or TRAP GETC/IN, the turn completes in a state whose
    condition codes are the flag of the 16-bit word just written to the
    destination register: ZERO if it is 0, NEGATIVE if its bit 15 is 1,
    POSITIVE otherwise.  Any other instruction leaves the condition codes
    as they were, so they keep the flag of the last such word. *)
Theorem condition_codes_reflect_last_result (s0 s : machine) :
  get (reg s0) R_COND = FL_ZRO ->
  reachable s0 s ->
  exactly_one_flag (get (reg s) R_COND) /\
  exactly_one_flag (get (reg (machine_of (step s))) R_COND) /\
  (forall instr s1,
     fetch s = (instr, s1) ->
     flag_affecting instr = true ->
     exists s',
       step s = Running s' /\
       reachable s0 s' /\
       0 <= get (reg s') (destination instr) < 65536 /\
       get (reg s') R_COND = sign_flag (get (reg s') (destination instr)) /\
       exactly_one_flag (get (reg s') R_COND)) /\
  (forall instr s1,
     fetch s = (instr, s1) ->
     flag_affecting instr = false ->
     get (reg (machine_of (step s))) R_COND = get (reg s) R_COND).
Proof.
  intros H0 Hr.
  pose proof (reachable_one_flag s0 s H0 Hr) as Hone.
  split; [exact Hone|]. split; [exact (step_one_flag s Hone)|]. split.
  - intros instr s1 Hf Hfa.
    destruct (flag_affecting_execute instr s1 Hfa) as (s' & Hs' & Hc).
    assert (Hstep : step s = Running s') by (unfold step; rewrite Hf; exact Hs').
    exists s'. split; [exact Hstep|].
    split; [exact (reachable_turn s0 s s' Hr Hstep)|].
    destruct Hc as [Hv Hc].
    split; [exact Hv|]. split; [exact Hc|].
    rewrite Hc. apply sign_flag_one.
  - intros instr s1 Hf Hfa. unfold step. rewrite Hf.
    rewrite (other_execute instr s1 Hfa). exact (cond_fetch _ _ _ Hf).
Qed.

(** ADD R0, R1, #1 at 0x3000 on a machine whose registers are all 0: the
    start of the loop is reachable, and its first turn leaves R0 = 1 with
    the flag of R0 in the condition codes. *)
Lemma condition_codes_reflect_last_result_witness :
  exactly_one_flag (get (reg (poised ADD_R0_R1_1 ∅ [])) R_COND) /\
  exists s',
    step (poised ADD_R0_R1_1 ∅ []) = Running s' /\
    get (reg s') R_COND = sign_flag (get (reg s') (destination ADD_R0_R1_1)) /\
    exactly_one_flag (get (reg s') R_COND).
Proof.
  assert (H0 : get (reg (poised ADD_R0_R1_1 ∅ [])) R_COND = FL_ZRO)
    by (vm_compute; reflexivity).
  assert (Hf : fetch (poised ADD_R0_R1_1 ∅ [])
               = (ADD_R0_R1_1, snd (fetch (poised ADD_R0_R1_1 ∅ []))))
    by (vm_compute; reflexivity).
  destruct (condition_codes_reflect_last_result _ _ H0
              (reachable_start (poised ADD_R0_R1_1 ∅ []))) as (Hone & _ & Hturn & _).
  split; [exact Hone|].
  destruct (Hturn _ _ Hf eq_refl) as (s' & Hstep & _ & _ & Hc & Hone').
  exists s'. split; [exact Hstep|]. split; [exact Hc | exact Hone'].
Defined.

(** ** ADD *)

Section Add.

Lemma bit_5_cases instr : bit_5 instr = 0 \/ bit_5 instr = 1.
Proof.
  unfold bit_5. change 0x1 with (Z.ones 1) at 1 2. rewrite Z.land_ones by lia.
  pose proof (Z.mod_pos_bound (Z.shiftr instr 5) (2 ^ 1) eq_refl).
  change (2 ^ 1) with 2 in *. lia.
Qed.

Lemma op_add_result instr s :
  let s' := op_add instr s in
  let sum := (get (reg s) (bits_8_6 instr) + second_operand instr s) mod 65536 in
  get (reg s') (bits_11_9 instr) = sum /\
  get (reg s') R_COND = sign_flag sum.
Proof.
  cbv zeta.
  pose proof (op_add_cond instr s) as [_ Hc].
  assert (Hd : get (reg (op_add instr s)) (bits_11_9 instr)
               = u16 (get (reg s) (bits_8_6 instr) + second_operand instr s)).
  { unfold op_add, second_operand.
    pose proof (bits_11_9_range instr) as Hr.
    destruct (bit_5_cases instr) as [-> | ->]; cbn [Z.eqb negb Pos.eqb];
      rewrite set_then_update by (unfold R_COND; lia);
      rewrite get_set_reg_ne by (unfold R_COND; lia);
      apply get_set_reg_eq. }
  rewrite Hc, Hd. split; reflexivity.
Qed.

End Add.

(** C7. ADD wraps modulo 65536 and raises no error: in register and in
    immediate form alike the turn completes, the destination receives the
    sum of the two operands reduced modulo 65536 and the condition codes
    its flag; so when the operands are 0xFFFF and 0x0001 the destination
    is 0x0000 and the flag is ZERO. *)
Theorem add_wraps_modulo_65536 (instr : Z) (s : machine) :
  Z.shiftr instr 12 = OP_ADD ->
  let a := get (reg s) (bits_8_6 instr) in
  let b := second_operand instr s in
  exists s',
    execute instr s = Running s' /\
    get (reg s') (bits_11_9 instr) = (a + b) mod 65536 /\
    get (reg s') R_COND = sign_flag ((a + b) mod 65536) /\
    (a = 0xFFFF /\ b = 0x0001 \/ a = 0x0001 /\ b = 0xFFFF ->
     get (reg s') (bits_11_9 instr) = 0x0000 /\
     get (reg s') R_COND = FL_ZRO).
Proof.
  intros Hop a b. exists (op_add instr s).
  destruct (op_add_result instr s) as [Hd Hc]. fold a b in Hd, Hc.
  split; [apply execute_add, Hop|].
  split; [exact Hd|]. split; [exact Hc|].
  intros Hab. rewrite Hd, Hc.
  destruct Hab as [[-> ->]|[-> ->]]; split; reflexivity.
Qed.

(** The two forms on a machine whose R1 is 0xFFFF and whose R2 is 1. *)
Lemma add_wraps_modulo_65536_witness :
  (exists s',
     execute ADD_R0_R1_R2 ffff_and_one = Running s' /\
     get (reg s') R_R0 = 0 /\ get (reg s') R_COND = FL_ZRO) /\
  (exists s',
     execute ADD_R0_R1_1 ffff_and_one = Running s' /\
     get (reg s') R_R0 = 0 /\ get (reg s') R_COND = FL_ZRO).
Proof.
  split.
  - destruct (add_wraps_modulo_65536 ADD_R0_R1_R2 ffff_and_one eq_refl)
      as (s' & Hex & _ & _ & H).
    exists s'. split; [exact Hex|]. apply H. left. split; reflexivity.
  - destruct (add_wraps_modulo_65536 ADD_R0_R1_1 ffff_and_one eq_refl)
      as (s' & Hex & _ & _ & H).
    exists s'. split; [exact Hex|]. apply H. left. split; reflexivity.
Defined.

(** ** JSRR, RTI and the reserved opcode *)

Section Control.

Lemma u16_idem z : u16 (u16 z) = u16 z.
Proof. apply u16_small, u16_range. Qed.

(** After the fetch only the program counter has moved, unless the fetch
    itself polled the keyboard. *)
Lemma fetch_pc s instr s1 :
  fetch s = (instr, s1) -> reg s1 = <[R_PC := u16 (get (reg s) R_PC + 1)]> (reg s).
Proof.
  unfold fetch. intros E.
  pose proof (reg_mem_read (get (reg s) R_PC) (set_reg R_PC (get (reg s) R_PC + 1) s)) as H.
  rewrite E in H. exact H.
Qed.

Lemma run_stops n s st :
  step s = st -> (forall s', st <> Running s') -> run (S n) s = st.
Proof.
  intros E Hst. cbn [run]. rewrite E.
  destruct st; try reflexivity. exfalso. exact (Hst _ eq_refl).
Qed.

Lemma run_continues n s s' : step s = Running s' -> run (S n) s = run n s'.
Proof. intros E. cbn [run]. rewrite E. reflexivity. Qed.

End Control.

(** C9. JSRR through R7: the return address is written to R7 before R7
    is read as the base, so the program counter ends at the address of
    the instruction after the JSRR, the same word that R7 now holds,
    whatever R7 held before. *)
Theorem jsrr_r7_jumps_to_return_address (s : machine) (instr : Z) (s1 : machine) :
  fetch s = (instr, s1) ->
  Z.shiftr instr 12 = OP_JSR ->
  bit_11 instr = 0 ->
  bits_8_6 instr = R_R7 ->
  let return_address := u16 (get (reg s) R_PC + 1) in
  exists s',
    step s = Running s' /\
    get (reg s') R_PC = return_address /\
    get (reg s') R_R7 = return_address /\
    (get (reg s) R_R7 <> return_address ->
     get (reg s') R_PC <> get (reg s) R_R7).
Proof.
  intros Hf Hop Hlong Hbase ra.
  exists (op_jsr instr s1).
  assert (Hpc : get (reg (op_jsr instr s1)) R_PC = ra).
  { unfold op_jsr. rewrite Hlong, Hbase. cbn [Z.eqb negb].
    rewrite get_set_reg_eq, get_set_reg_eq.
    rewrite (fetch_pc _ _ _ Hf), get_insert_eq. subst ra.
    rewrite !u16_idem. reflexivity. }
  assert (Hr7 : get (reg (op_jsr instr s1)) R_R7 = ra).
  { unfold op_jsr. rewrite Hlong, Hbase. cbn [Z.eqb negb].
    rewrite get_set_reg_ne by discriminate. rewrite get_set_reg_eq.
    rewrite (fetch_pc _ _ _ Hf), get_insert_eq. subst ra.
    rewrite !u16_idem. reflexivity. }
  split; [unfold step; rewrite Hf; apply execute_jsr, Hop|].
  split; [exact Hpc|]. split; [exact Hr7|].
  intros Hne. rewrite Hpc. intros E. apply Hne. symmetry. exact E.
Qed.

(** JSRR R7 at 0x3000 with R7 holding 0x5000: the program counter ends
    at 0x3001. *)
Lemma jsrr_r7_jumps_to_return_address_witness :
  exists s',
    step (poised JSRR_R7 (<[R_R7 := 0x5000]> ∅) []) = Running s' /\
    get (reg s') R_PC = 0x3001 /\
    get (reg s') R_R7 = 0x3001.
Proof.
  assert (Hf : fetch (poised JSRR_R7 (<[R_R7 := 0x5000]> ∅) [])
               = (JSRR_R7, snd (fetch (poised JSRR_R7 (<[R_R7 := 0x5000]> ∅) []))))
    by (vm_compute; reflexivity).
  destruct (jsrr_r7_jumps_to_return_address _ _ _ Hf eq_refl eq_refl eq_refl)
    as (s' & Hstep & Hpc & Hr7 & _).
  exists s'. split; [exact Hstep|]. split; [exact Hpc | exact Hr7].
Defined.

(** C4. When the instruction fetched has opcode RTI (8) or the reserved
    opcode (13), the turn ends in [abort()]: the loop does not go on,
    however many turns remain no further instruction is executed, the
    machine stays as the fetch left it, and the way the process ends is
    not the one of a normal halt. *)
Theorem illegal_opcode_aborts (s : machine) (instr : Z) (s1 : machine) :
  fetch s = (instr, s1) ->
  Z.shiftr instr 12 = OP_RTI \/ Z.shiftr instr 12 = OP_RES ->
  step s = Aborted s1 /\
  (forall turns, run (S turns) s = Aborted s1) /\
  (forall s', step s <> Running s') /\
  (forall s', step s <> Halted s').
Proof.
  intros Hf Hop.
  assert (Hstep : step s = Aborted s1).
  { unfold step. rewrite Hf.
    destruct Hop as [Hop|Hop]; [apply execute_rti | apply execute_res]; exact Hop. }
  split; [exact Hstep|]. split; [|split].
  - intros turns. apply run_stops; [exact Hstep|]. discriminate.
  - intros s'. rewrite Hstep. discriminate.
  - intros s'. rewrite Hstep. discriminate.
Qed.

(** RTI at 0x3000 followed by nothing: ten turns are allowed, the first
    one aborts. *)
Lemma illegal_opcode_aborts_witness :
  run 10 (poised RTI ∅ []) = Aborted (snd (fetch (poised RTI ∅ []))) /\
  run 10 (poised RESERVED ∅ []) = Aborted (snd (fetch (poised RESERVED ∅ []))).
Proof.
  assert (H8 : fetch (poised RTI ∅ []) = (RTI, snd (fetch (poised RTI ∅ []))))
    by (vm_compute; reflexivity).
  assert (H13 : fetch (poised RESERVED ∅ [])
                = (RESERVED, snd (fetch (poised RESERVED ∅ []))))
    by (vm_compute; reflexivity).
  split.
  - apply (illegal_opcode_aborts _ _ _ H8). left. reflexivity.
  - apply (illegal_opcode_aborts _ _ _ H13). right. reflexivity.
Defined.

(** ** TRAP with a vector that has no service *)

Section UndefinedTrap.

Variables (instr : Z) (s : machine).
Hypothesis Hcode : defined_trap_code (Z.land instr 0xFF) = false.

(** The inner [switch] has no case for the vector and no default: only
    the link [reg[R_R7] = reg[R_PC]] before it takes effect. *)
Lemma op_trap_undefined :
  op_trap instr s = Running (set_reg R_R7 (get (reg s) R_PC) s).
Proof using Hcode.
  unfold defined_trap_code in Hcode.
  repeat (apply orb_false_iff in Hcode; destruct Hcode as [Hcode ?]).
  unfold op_trap. cbv zeta.
  repeat match goal with
         | H : (_ =? _) = false |- _ => rewrite H; clear H
         end.
  reflexivity.
Qed.

End UndefinedTrap.

(** C3 as stated does not hold: TRAP x26, whose vector has no service,
    completes its turn with the loop still running, and the next turn
    executes the HALT that follows it. *)
Lemma undefined_trap_is_not_an_error :
  fst (fetch trap_x26_then_halt) = TRAP_x26 /\
  defined_trap_code (Z.land TRAP_x26 0xFF) = false /\
  (exists s', step trap_x26_then_halt = Running s' /\
              get (reg s') R_PC = 0x3001 /\
              exists s'', step s' = Halted s'') /\
  ~ undefined_trap_is_an_error.
Proof.
  assert (Hf : fetch trap_x26_then_halt = (TRAP_x26, snd (fetch trap_x26_then_halt)))
    by (vm_compute; reflexivity).
  assert (Hstep : step trap_x26_then_halt
                  = Running (set_reg R_R7 (get (reg (snd (fetch trap_x26_then_halt))) R_PC)
                                     (snd (fetch trap_x26_then_halt)))).
  { unfold step. rewrite Hf. rewrite execute_trap by reflexivity.
    apply op_trap_undefined. reflexivity. }
  split; [vm_compute; reflexivity|]. split; [reflexivity|]. split.
  - eexists. split; [exact Hstep|]. split; [vm_compute; reflexivity|].
    eexists. vm_compute. reflexivity.
  - intros Hclaim.
    pose proof (Hclaim trap_x26_then_halt TRAP_x26 _ Hf eq_refl eq_refl) as Herr.
    rewrite Hstep in Herr. exact Herr.
Qed.

(** C3, amended. A TRAP whose low 8 bits are none of the six service
    codes saves the incremented program counter in R7 and does nothing
    else: memory, the other registers, the condition codes and the
    console stay as the fetch left them, no error is raised, and the loop
    goes on with the next instruction. *)
Theorem undefined_trap_only_links (s : machine) (instr : Z) (s1 : machine) :
  fetch s = (instr, s1) ->
  Z.shiftr instr 12 = OP_TRAP ->
  defined_trap_code (Z.land instr 0xFF) = false ->
  let s' := set_reg R_R7 (get (reg s1) R_PC) s1 in
  step s = Running s' /\
  (forall turns, run (S turns) s = run turns s') /\
  ~ stops_with_error (step s) /\
  memory s' = memory s1 /\
  tty s' = tty s1 /\
  get (reg s') R_R7 = u16 (get (reg s) R_PC + 1) /\
  (forall r, r <> R_R7 -> get (reg s') r = get (reg s1) r).
Proof.
  intros Hf Hop Hcode s'.
  assert (Hstep : step s = Running s').
  { unfold step. rewrite Hf. rewrite execute_trap by exact Hop.
    apply op_trap_undefined. exact Hcode. }
  split; [exact Hstep|]. split; [|split; [|split; [|split; [|split]]]].
  - intros turns. apply run_continues. exact Hstep.
  - rewrite Hstep. intros [].
  - reflexivity.
  - reflexivity.
  - subst s'. rewrite get_set_reg_eq, (fetch_pc _ _ _ Hf), get_insert_eq.
    apply u16_idem.
  - intros r Hr. subst s'. apply get_set_reg_ne.
    intros E. apply Hr. symmetry. exact E.
Qed.

(** TRAP x26 at 0x3000: after the turn R7 holds 0x3001 and the run goes on
    to the HALT at 0x3001. *)
Lemma undefined_trap_only_links_witness :
  step trap_x26_then_halt
  = Running (set_reg R_R7 (get (reg (snd (fetch trap_x26_then_halt))) R_PC)
                     (snd (fetch trap_x26_then_halt))) /\
  get (reg (set_reg R_R7 (get (reg (snd (fetch trap_x26_then_halt))) R_PC)
                    (snd (fetch trap_x26_then_halt)))) R_R7
  = u16 (get (reg trap_x26_then_halt) R_PC + 1).
Proof.
  assert (Hf : fetch trap_x26_then_halt = (TRAP_x26, snd (fetch trap_x26_then_halt)))
    by (vm_compute; reflexivity).
  destruct (undefined_trap_only_links _ _ _ Hf eq_refl eq_refl)
    as (Hstep & _ & _ & _ & _ & Hr7 & _).
  split; [exact Hstep | exact Hr7].
Defined.

(** ** The console *)

Lemma byte_code_range (c : byte) : 0 <= Z.of_N (Byte.to_N c) < 256.
Proof. pose proof (Byte.to_N_bounded c). lia. Qed.

(** Held characters are passed over by the poll and stay where they are. *)
Lemma select_held (hs : list byte) (d : list tty_event) :
  select (map Held hs ++ d) = (fst (select d), map Held hs ++ snd (select d)).
Proof.
  induction hs as [|h hs IH]; cbn [map app select].
  - destruct (select d); reflexivity.
  - rewrite IH. reflexivity.
Qed.

(** A poll that answers 1 leaves the input as it was. *)
Lemma select_ready (i : list tty_event) :
  fst (select i) = true -> snd (select i) = i.
Proof.
  induction i as [|[h|c more|] rest IH]; cbn [select]; try reflexivity.
  - destruct (select rest) as [r rest']. cbn [fst snd] in *. intros Hr.
    rewrite (IH Hr). reflexivity.
  - discriminate.
Qed.


Section Console.

Variable t : console.

Lemma check_key_ready :
  fst (check_key t) = true -> snd (check_key t) = t.
Proof.
  unfold check_key. pose proof (select_ready (stdin t)) as H.
  destruct (select (stdin t)) as [r i]. cbn [fst snd] in *. intros Hr.
  rewrite (H Hr). destruct t; reflexivity.
Qed.

Lemma stdout_check_key : stdout (snd (check_key t)) = stdout t.
Proof. unfold check_key. destruct (select (stdin t)); reflexivity. Qed.

Lemma stdout_getchar : stdout (snd (getchar t)) = stdout t.
Proof. unfold getchar. destruct (next_key (stdin t)) as [[c rest]|]; reflexivity. Qed.

End Console.

(** ** The keyboard registers *)

Section Keyboard.

Variables (a : Z) (s : machine).

Lemma mem_read_plain :
  u16 a <> MR_KBSR -> mem_read a s = (get (memory s) (u16 a), s).
Proof.
  intros Ha. unfold mem_read. cbv zeta.
  destruct (Z.eqb_spec (u16 a) MR_KBSR) as [E|_]; [contradiction|reflexivity].
Qed.

Lemma mem_read_status_ready :
  u16 a = MR_KBSR ->
  fst (check_key (tty s)) = true ->
  mem_read a s =
  (Z.shiftl 1 15,
   Machine (<[MR_KBDR := u16 (fst (getchar (tty s)))]>
              (<[MR_KBSR := Z.shiftl 1 15]> (memory s)))
           (reg s) (snd (getchar (tty s)))).
Proof.
  intros Ha Hk. unfold mem_read. cbv zeta. rewrite Ha. cbn [Z.eqb MR_KBSR Pos.eqb].
  pose proof (check_key_ready (tty s) Hk) as Ht.
  destruct (check_key (tty s)) as [[|] t]; cbn in Hk, Ht; try discriminate. subst t.
  cbn [tty memory reg]. destruct (getchar (tty s)) as [ch t] eqn:Hg. cbn [fst snd memory].
  rewrite get_insert_ne by discriminate. rewrite get_insert_eq. reflexivity.
Qed.

Lemma mem_read_status_idle :
  u16 a = MR_KBSR ->
  fst (check_key (tty s)) = false ->
  mem_read a s =
  (0, Machine (<[MR_KBSR := 0]> (memory s)) (reg s) (snd (check_key (tty s)))).
Proof.
  intros Ha Hk. unfold mem_read. cbv zeta. rewrite Ha. cbn [Z.eqb MR_KBSR Pos.eqb].
  destruct (check_key (tty s)) as [[|] t]; cbn in Hk; try discriminate.
  cbn [memory snd]. rewrite get_insert_eq. reflexivity.
Qed.

End Keyboard.



(** ** Loading images *)

Section LoadImages.

Variables (fs : filesystem) (stale : nat -> Z).

Lemma read_image_missing st image_path m :
  fs image_path = None -> read_image fs st image_path m = (0, m).
Proof. intros H. unfold read_image. rewrite H. reflexivity. Qed.

Lemma read_image_present st image_path file m :
  fs image_path = Some file ->
  read_image fs st image_path m = (1, read_image_file st file m).
Proof. intros H. unfold read_image. rewrite H. reflexivity. Qed.

(** The loop over the arguments stops at the first path that cannot be
    opened. *)
Lemma load_images_missing paths :
  forall j m bad,
    In bad paths -> fs bad = None ->
    exists first, In first paths /\ fs first = None /\
                  load_images fs stale j paths m = inl first.
Proof.
  induction paths as [|p rest IH]; intros j m bad Hin Hbad.
  - destruct Hin.
  - cbn [load_images]. destruct (fs p) as [file|] eqn:Hp.
    + rewrite (read_image_present _ _ _ _ Hp). cbn [Z.eqb].
      destruct Hin as [->|Hin]; [congruence|].
      destruct (IH (S j) (read_image_file (stale j) file m) bad Hin Hbad)
        as (first & Hf1 & Hf2 & Hf3).
      exists first. split; [right; exact Hf1|]. split; [exact Hf2 | exact Hf3].
    + rewrite (read_image_missing _ _ _ Hp). cbn [Z.eqb].
      exists p. split; [left; reflexivity|]. split; [exact Hp | reflexivity].
Qed.

End LoadImages.

(** C6. An image that cannot be opened makes [read_image] return 0 to its
    caller with the memory it was given, untouched; and when such a path
    is among the arguments of the program, the process prints the failure
    for the first such path and exits with status 1 without entering the
    loop, whatever the console holds and however many turns were allowed:
    no instruction is executed. *)
Theorem missing_image_fails_before_execution
  (fs : filesystem) (stale : nat -> Z) (argv : list string) (bad : string) :
  fs bad = None ->
  In bad (tl argv) ->
  (forall st m, read_image fs st bad m = (0, m)) /\
  exists first,
    In first (tl argv) /\ fs first = None /\
    forall t turns,
      main fs stale argv t turns
      = Exit 1 (print (chars "failed to load image: " ++ chars first ++ newline) t).
Proof.
  intros Hbad Hin. split.
  - intros st m. apply read_image_missing. exact Hbad.
  - destruct (load_images_missing fs stale (tl argv) 1%nat ∅ bad Hin Hbad)
      as (first & Hf1 & Hf2 & Hf3).
    exists first. split; [exact Hf1|]. split; [exact Hf2|].
    intros t turns. unfold main.
    destruct argv as [|prog [|p rest]]; [destruct Hin | destruct Hin |].
    replace (Z.of_nat (length (prog :: p :: rest)) <? 2) with false
      by (symmetry; apply Z.ltb_ge; cbn [length]; lia).
    rewrite Hf3. reflexivity.
Qed.

(** The image a.obj exists and b.obj does not: loading b.obj fails, and
    the program given both exits with status 1. *)
Lemma missing_image_fails_before_execution_witness :
  read_image one_image 0 "b.obj" ∅ = (0, ∅) /\
  exists first,
    one_image first = None /\
    main one_image (fun _ => 0) ["lc3-vm"; "a.obj"; "b.obj"]%string (Console [] []) 100
    = Exit 1 (print (chars "failed to load image: " ++ chars first ++ newline)
                    (Console [] [])).
Proof.
  destruct (missing_image_fails_before_execution one_image (fun _ => 0)
              ["lc3-vm"; "a.obj"; "b.obj"]%string "b.obj"%string eq_refl
              (or_intror (or_introl eq_refl))) as (Hread & first & _ & Hnone & Hmain).
  split; [exact (Hread 0 ∅)|].
  exists first. split; [exact Hnone|]. exact (Hmain (Console [] []) 100%nat).
Defined.

(** C10. An image whose origin word is 0x0000 loads nothing: the capacity
    65536 - 0 is 0 as a [uint16_t], [fread] is asked for no element, no
    word is written, and memory is left exactly as it was, whatever the
    body of the image and whatever memory held. *)
Theorem origin_zero_loads_nothing (stale : Z) (body : list byte) (m : array) :
  swap16 (fst (fread_origin stale (x00 :: x00 :: body))) = 0x0000 /\
  u16 (MEMORY_MAX - 0x0000) = 0 /\
  snd (fread_words (Z.to_nat (u16 (MEMORY_MAX - 0x0000))) body 0 m) = 0%nat /\
  read_image_file stale (x00 :: x00 :: body) m = m.
Proof.
  split; [reflexivity|]. split; [reflexivity|]. split; reflexivity.
Qed.

(** ** Where the loader writes *)

Section LoaderBounds.

Lemma fread_words_outside n :
  forall file p m a,
    a < p \/ p + Z.of_nat n <= a ->
    fst (fread_words n file p m) !! a = m !! a.
Proof.
  induction n as [|n IH]; intros file p m a Ha; [reflexivity|].
  cbn [fread_words]. destruct file as [|b0 [|b1 rest]].
  - reflexivity.
  - cbn [fst]. apply lookup_insert_ne. lia.
  - specialize (IH rest (p + 1) (<[p := host_word b0 b1]> m) a).
    destruct (fread_words n rest (p + 1) (<[p := host_word b0 b1]> m)) as [m' k].
    cbn [fst] in *. rewrite IH by lia. apply lookup_insert_ne. lia.
Qed.

Lemma fread_words_count n :
  forall file p m, (snd (fread_words n file p m) <= n)%nat.
Proof.
  induction n as [|n IH]; intros file p m; [reflexivity|].
  cbn [fread_words]. destruct file as [|b0 [|b1 rest]]; cbn [snd]; try lia.
  specialize (IH rest (p + 1) (<[p := host_word b0 b1]> m)).
  destruct (fread_words n rest (p + 1) (<[p := host_word b0 b1]> m)) as [m' k].
  cbn [snd] in *. lia.
Qed.

Lemma swap_words_outside k :
  forall p m a,
    a < p \/ p + Z.of_nat k <= a ->
    swap_words k p m !! a = m !! a.
Proof.
  induction k as [|k IH]; intros p m a Ha; [reflexivity|].
  cbn [swap_words]. rewrite IH by lia. apply lookup_insert_ne. lia.
Qed.

Lemma swap16_range x : 0 <= swap16 x <= 0xFFFF.
Proof. unfold swap16. pose proof (u16_range (Z.lor (Z.shiftl x 8) (Z.shiftr x 8))). lia. Qed.

Lemma read_image_file_unfold stale file m :
  read_image_file stale file m =
  swap_words
    (snd (fread_words (Z.to_nat (u16 (MEMORY_MAX - image_origin stale file)))
            (snd (fread_origin stale file)) (image_origin stale file) m))
    (image_origin stale file)
    (fst (fread_words (Z.to_nat (u16 (MEMORY_MAX - image_origin stale file)))
            (snd (fread_origin stale file)) (image_origin stale file) m)).
Proof.
  unfold read_image_file, image_origin.
  destruct (fread_origin stale file) as [origin rest]. cbn [fst snd].
  destruct (fread_words _ rest (swap16 origin) m) as [m' k]. reflexivity.
Qed.

(** The capacity the loader computes never reaches past the top of
    memory. *)
Lemma max_read_fits origin :
  0 <= origin <= 0xFFFF ->
  origin + Z.of_nat (Z.to_nat (u16 (MEMORY_MAX - origin))) <= MEMORY_MAX.
Proof.
  intros Ho. pose proof (u16_range (MEMORY_MAX - origin)) as Hr.
  rewrite Z2Nat.id by lia. change MEMORY_MAX with 65536 in *. unfold u16 in *.
  destruct (Z.eq_dec origin 0) as [->|Hne].
  - cbn. lia.
  - rewrite Z.mod_small by lia. lia.
Qed.

(** Every cell outside origin .. 0xFFFF keeps what it held: for every
    stream, every content of [origin] before the read, every memory. *)
Lemma read_image_file_in_bounds stale file m a :
  a < image_origin stale file \/ 0xFFFF < a ->
  read_image_file stale file m !! a = m !! a.
Proof.
  intros Ha. rewrite read_image_file_unfold.
  pose proof (swap16_range (fst (fread_origin stale file))) as Ho.
  fold (image_origin stale file) in Ho.
  pose proof (max_read_fits _ Ho) as Hfit.
  set (n := Z.to_nat (u16 (MEMORY_MAX - image_origin stale file))) in *.
  pose proof (fread_words_count n (snd (fread_origin stale file))
                (image_origin stale file) m) as Hk.
  change MEMORY_MAX with 65536 in Hfit.
  rewrite swap_words_outside by lia.
  apply fread_words_outside. lia.
Qed.

End LoaderBounds.

(** ** The loader against its specification *)

Section LoaderSpec.

(** Swapping the two bytes of a word read on the host gives the
    big-endian word of the file. *)
Lemma swap16_host_word (b0 b1 : byte) : swap16 (host_word b0 b1) = be_word b0 b1.
Proof.
  unfold swap16, host_word, be_word.
  pose proof (byte_code_range b0) as H0. pose proof (byte_code_range b1) as H1.
  set (c0 := Z.of_N (Byte.to_N b0)) in *. set (c1 := Z.of_N (Byte.to_N b1)) in *.
  assert (Hhi : Z.shiftr (c0 + 256 * c1) 8 = c1).
  { rewrite Z.shiftr_div_pow2 by lia. change (2 ^ 8) with 256.
    symmetry. apply (Z.div_unique _ 256 c1 c0); lia. }
  rewrite Hhi. rewrite <- Z.add_nocarry_lor.
  - rewrite Z.shiftl_mul_pow2 by lia. change (2 ^ 8) with 256. unfold u16.
    replace ((c0 + 256 * c1) * 256 + c1) with (256 * c0 + c1 + c1 * 65536) by ring.
    rewrite Z.mod_add by lia. apply Z.mod_small. lia.
  - apply Z.bits_inj'. intros i Hi. rewrite Z.land_spec, Z.bits_0.
    destruct (Z.ltb_spec i 8) as [Hlt|Hge].
    + rewrite Z.shiftl_spec_low by exact Hlt. reflexivity.
    + rewrite (small_high_bits 8 c1 i) by (change (2 ^ 8) with 256; lia).
      apply andb_false_r.
Qed.

Lemma be_word_range (hi lo : byte) : 0 <= be_word hi lo <= 0xFFFF.
Proof.
  unfold be_word. pose proof (byte_code_range hi). pose proof (byte_code_range lo). lia.
Qed.

(** A word stored below the buffer is not disturbed by [fread], nor does
    it disturb it. *)
Lemma fread_words_insert_below n :
  forall file p m q v,
    q < p ->
    fread_words n file p (<[q := v]> m)
    = (<[q := v]> (fst (fread_words n file p m)), snd (fread_words n file p m)).
Proof.
  induction n as [|n IH]; intros file p m q v Hq; [reflexivity|].
  cbn [fread_words]. destruct file as [|b0 [|b1 rest]].
  - reflexivity.
  - cbn [fst snd]. rewrite get_insert_ne by lia.
    rewrite insert_insert_ne by lia. reflexivity.
  - rewrite (insert_insert_ne _ p q) by lia.
    rewrite (IH rest (p + 1) (<[p := host_word b0 b1]> m) q v) by lia.
    destruct (fread_words n rest (p + 1) (<[p := host_word b0 b1]> m)) as [m' k].
    reflexivity.
Qed.

(** [fread] followed by the swapping loop, when the buffer runs to the top
    of memory and the stream holds whole words. *)
Lemma fread_then_swap n :
  forall body p m,
    p + Z.of_nat n = MEMORY_MAX ->
    Nat.even (length body) = true ->
    swap_words (snd (fread_words n body p m)) p (fst (fread_words n body p m))
    = store_words_spec body p m.
Proof.
  change MEMORY_MAX with 65536.
  induction n as [|n IH]; intros body p m Hp Hev.
  - cbn [fread_words fst snd swap_words].
    destruct body as [|hi [|lo rest]]; try reflexivity.
    cbn [store_words_spec]. replace (p <=? 0xFFFF) with false by lia. reflexivity.
  - destruct body as [|b0 [|b1 rest]]; [reflexivity | discriminate |].
    cbn [store_words_spec]. replace (p <=? 0xFFFF) with true by lia.
    cbn [fread_words].
    rewrite (fread_words_insert_below n rest (p + 1) m p (host_word b0 b1)) by lia.
    cbn [fst snd swap_words].
    rewrite get_insert_eq, insert_insert_eq, swap16_host_word.
    rewrite <- (IH rest (p + 1) (<[p := be_word b0 b1]> m)) by (cbn in Hev; (lia || exact Hev)).
    rewrite (fread_words_insert_below n rest (p + 1) m p (be_word b0 b1)) by lia.
    reflexivity.
Qed.

(** For every origin other than 0x0000 and every stream of whole words the
    loader does what the specification says. *)
Lemma read_image_file_meets_spec stale (hi lo : byte) (body : list byte) (m : array) :
  be_word hi lo <> 0 ->
  Nat.even (length body) = true ->
  read_image_file stale (hi :: lo :: body) m = load_image_spec (hi :: lo :: body) m.
Proof.
  intros Ho Hev. rewrite read_image_file_unfold.
  unfold image_origin. cbn [fread_origin fst snd load_image_spec].
  rewrite swap16_host_word.
  pose proof (be_word_range hi lo) as Hr.
  apply fread_then_swap; [|exact Hev].
  change MEMORY_MAX with 65536. rewrite u16_small by lia. lia.
Qed.

(** The loader of the specification writes nothing below the address it
    is at. *)
Lemma store_words_spec_below_upto (n : nat) :
  forall body address m a,
    (length body <= n)%nat ->
    a < address -> store_words_spec body address m !! a = m !! a.
Proof.
  induction n as [|n IH]; intros body address m a Hlen Ha;
    destruct body as [|hi [|lo rest]]; try reflexivity.
  - cbn [length] in Hlen. lia.
  - cbn [store_words_spec]. destruct (address <=? 0xFFFF); [|reflexivity].
    rewrite IH by (cbn [length] in Hlen; lia).
    apply lookup_insert_ne. lia.
Qed.

Lemma store_words_spec_below body address m a :
  a < address -> store_words_spec body address m !! a = m !! a.
Proof. apply (store_words_spec_below_upto (length body)). reflexivity. Qed.

(** With origin 0x0000 and a body of at least one word, the loader of the
    specification stores the first word at address 0x0000, where the
    loader of lc3.c stores nothing. *)
Lemma load_image_spec_origin_zero (hi lo : byte) (rest : list byte) (m : array) :
  get (load_image_spec (x00 :: x00 :: hi :: lo :: rest) m) 0x0000 = be_word hi lo.
Proof.
  cbn [load_image_spec]. change (be_word x00 x00) with 0.
  cbn [store_words_spec]. change (0 <=? 0xFFFF) with true. cbv iota.
  unfold get. rewrite store_words_spec_below by lia.
  rewrite lookup_insert_eq. reflexivity.
Qed.

End LoaderSpec.

(** C5, at the input where it fails.  The image with origin 0x0000 and the
    one body word 0x1234: the stream has not ended and address 0x0000 is
    not past the top of the address space, so the loader of the
    specification stores 0x1234 at 0x0000; the loader of lc3.c computes a
    capacity of 0 words, reads nothing and leaves memory as it was. *)
Theorem origin_zero_image_is_dropped :
  image_origin 0 image_at_zero = 0x0000 /\
  get (load_image_spec image_at_zero ∅) 0x0000 = 0x1234 /\
  read_image_file 0 image_at_zero ∅ = ∅ /\
  get (read_image_file 0 image_at_zero ∅) 0x0000 = 0 /\
  read_image_file 0 image_at_zero ∅ <> load_image_spec image_at_zero ∅.
Proof.
  split; [reflexivity|]. split; [reflexivity|]. split; [reflexivity|].
  split; [reflexivity|].
  intros E. apply (f_equal (fun m => get m 0x0000)) in E. vm_compute in E. discriminate.
Qed.

(** ** The whole program *)

Section Program.

Lemma run_one_flag turns :
  forall s,
    exactly_one_flag (get (reg s) R_COND) ->
    exactly_one_flag (get (reg (machine_of (run turns s))) R_COND).
Proof.
  induction turns as [|n IH]; intros s Hinv; [exact Hinv|].
  cbn [run]. pose proof (step_one_flag s Hinv) as Hs.
  destruct (step s) as [s'| | |]; try exact Hs.
  apply IH. exact Hs.
Qed.

(** However the loop of [main] goes, it leaves exactly one flag in the
    condition codes. *)
Lemma main_one_flag fs stale argv t turns st :
  main fs stale argv t turns = Loop st ->
  exactly_one_flag (get (reg (machine_of st)) R_COND).
Proof.
  unfold main. destruct (Z.of_nat (length argv) <? 2); [discriminate|].
  destruct (load_images fs stale 1 (tl argv) ∅) as [bad|m]; [discriminate|].
  intros [= <-]. apply run_one_flag.
  rewrite get_set_reg_ne by discriminate. rewrite get_set_reg_eq.
  split; [right; left; reflexivity | reflexivity].
Qed.

(** When every image can be opened the loop is entered. *)
Lemma load_images_present fs stale paths :
  forall j m,
    (forall p, In p paths -> fs p <> None) ->
    exists m', load_images fs stale j paths m = inr m'.
Proof.
  induction paths as [|p rest IH]; intros j m Hall.
  - exists m. reflexivity.
  - cbn [load_images]. destruct (fs p) as [file|] eqn:Hp.
    + rewrite (read_image_present _ _ _ _ _ Hp). cbn [Z.eqb].
      apply IH. intros q Hq. apply Hall. right. exact Hq.
    + exfalso. apply (Hall p); [left; reflexivity | exact Hp].
Qed.

End Program.

(** ** Scenarios *)

(** An image with origin 0x3000 and body 1, 2 puts 1 at 0x3000 and 2 at
    0x3001 and touches nothing else. *)
Example loader_scenario :
  read_image_file 0 image_1_2 ∅ = <[0x3001 := 2]> (<[0x3000 := 1]> ∅).
Proof. vm_compute. reflexivity. Qed.

(** An image whose body passes 0xFFFF is cut at the top of memory. *)
Example loader_truncation_scenario :
  read_image_file 0 [xff; xff; x00; x01; x00; x02; x00; x03] ∅ = <[0xFFFF := 1]> ∅.
Proof. vm_compute. reflexivity. Qed.

(** The program that prints HI halts after three turns, having printed HI
    and the farewell of HALT. *)
Example puts_scenario :
  exists s,
    main hi_files (fun _ => 0) ["lc3-vm"; "hi.obj"]%string (Console [] []) 3
    = Loop (Halted s) /\
    stdout (tty s) = chars "HI" ++ chars "Shutdown" ++ newline.
Proof. eexists. split; vm_compute; reflexivity. Qed.

(** LDI R0 through the pointer at 0x3001: memory[0x3001] = 0x4000 and
    memory[0x4000] = 0x0042 give R0 = 0x0042. *)
Example ldi_scenario :
  get (reg (machine_of
              (step (with_memory (<[0x4000 := 0x0042]> (<[0x3001 := 0x4000]>
                                   (<[0x3000 := 0xA000]> ∅)))
                                 (poised 0xA000 ∅ []))))) R_R0 = 0x0042.
Proof. vm_compute. reflexivity. Qed.

(** * Further properties *)

(** ** The arrays are never left and hold 16-bit words *)

Section WordArrays.

Variables (lo hi : Z).

Lemma word_array_empty : word_array lo hi ∅.
Proof. apply map_Forall_empty. Qed.

Lemma word_array_insert a i v :
  lo <= i <= hi -> 0 <= v < 65536 ->
  word_array lo hi a -> word_array lo hi (<[i := v]> a).
Proof. intros Hi Hv Ha. apply map_Forall_insert_2; [split; assumption | exact Ha]. Qed.

Lemma word_array_get a i : word_array lo hi a -> 0 <= get a i < 65536.
Proof.
  intros Ha. unfold get. destruct (a !! i) as [v|] eqn:E; cbn; [|lia].
  exact (proj2 (map_Forall_lookup_1 _ _ _ _ Ha E)).
Qed.

Lemma word_array_index a i v : word_array lo hi a -> a !! i = Some v -> lo <= i <= hi.
Proof. intros Ha E. exact (proj1 (map_Forall_lookup_1 _ _ _ _ Ha E)). Qed.

End WordArrays.

Section WfOperations.

Ltac closed_range := vm_compute; repeat split; first [discriminate | reflexivity].

Lemma wf_set_reg r v s :
  0 <= r <= 9 -> wf_machine s -> wf_machine (set_reg r v s).
Proof.
  intros Hr [Hm Hg]. split; [exact Hm|]. cbn [reg set_reg].
  apply word_array_insert; [change R_COUNT with 10; lia | apply u16_range | exact Hg].
Qed.

Lemma wf_with_tty t s : wf_machine s -> wf_machine (with_tty t s).
Proof. intros H. exact H. Qed.

Lemma wf_update_flags r s : wf_machine s -> wf_machine (update_flags r s).
Proof.
  intros H. unfold update_flags.
  destruct (get (reg s) r =? 0); [apply wf_set_reg; [unfold R_COND; lia | exact H]|].
  destruct (negb _); apply wf_set_reg; try exact H; unfold R_COND; lia.
Qed.

Lemma wf_mem_write a v s : wf_machine s -> wf_machine (mem_write a v s).
Proof.
  intros [Hm Hg]. split; [|exact Hg]. cbn [memory mem_write with_memory].
  apply word_array_insert; [|apply u16_range | exact Hm].
  pose proof (u16_range a). change MEMORY_MAX with 65536. lia.
Qed.

Lemma wf_mem_read a s : wf_machine s -> wf_machine (snd (mem_read a s)).
Proof.
  intros [Hm Hg]. unfold mem_read. cbv zeta. cbn [snd].
  destruct (u16 a =? MR_KBSR); [|split; assumption].
  destruct (check_key (tty s)) as [[|] t].
  - cbn [tty memory reg]. destruct (getchar t) as [c t']. split; [|exact Hg].
    cbn [memory]. apply word_array_insert; [closed_range | apply u16_range |].
    apply word_array_insert; [closed_range | closed_range | exact Hm].
  - split; [|exact Hg]. cbn [memory].
    apply word_array_insert; [closed_range | lia | exact Hm].
Qed.

Lemma wf_mem_read_pair a s v s1 :
  mem_read a s = (v, s1) -> wf_machine s -> wf_machine s1.
Proof. intros E H. pose proof (wf_mem_read a s H) as H1. rewrite E in H1. exact H1. Qed.

Lemma field_index a : 0 <= Z.land a 0x7 <= 9.
Proof. pose proof (land_7_range a). lia. Qed.

Ltac wf_read :=
  repeat match goal with
         | |- context [mem_read ?a ?s] =>
             let v := fresh "v" in let s1 := fresh "s" in let E := fresh "E" in
             destruct (mem_read a s) as [v s1] eqn:E;
             match goal with
             | H : wf_machine s |- _ => pose proof (wf_mem_read_pair _ _ _ _ E H)
             end
         end.

Ltac wf_regs := unfold bits_11_9, bits_8_6, R_R0, R_R7, R_PC, R_COND;
                first [apply field_index | lia].

Lemma wf_execute instr s : wf_machine s -> wf_machine (machine_of (execute instr s)).
Proof.
  intros H. unfold execute.
  repeat match goal with
         | |- context [if ?b then _ else _] => destruct b
         end; cbn [machine_of]; try exact H.
  - unfold op_add. destruct (negb _); apply wf_update_flags, wf_set_reg; try exact H; wf_regs.
  - unfold op_and. destruct (negb _); apply wf_update_flags, wf_set_reg; try exact H; wf_regs.
  - unfold op_not. apply wf_update_flags, wf_set_reg; try exact H; wf_regs.
  - unfold op_br. destruct (negb _); [apply wf_set_reg; [wf_regs | exact H] | exact H].
  - unfold op_jmp. apply wf_set_reg; [wf_regs | exact H].
  - unfold op_jsr. destruct (negb _); repeat apply wf_set_reg; try exact H; wf_regs.
  - unfold op_ld. wf_read. apply wf_update_flags, wf_set_reg; [wf_regs | assumption].
  - unfold op_ldi. wf_read. apply wf_update_flags, wf_set_reg; [wf_regs | assumption].
  - unfold op_ldr. wf_read. apply wf_update_flags, wf_set_reg; [wf_regs | assumption].
  - unfold op_lea. apply wf_update_flags, wf_set_reg; [wf_regs | exact H].
  - unfold op_st. apply wf_mem_write. exact H.
  - unfold op_sti. wf_read. apply wf_mem_write. assumption.
  - unfold op_str. apply wf_mem_write. exact H.
  - unfold op_trap. cbv zeta.
    assert (H7 : wf_machine (set_reg R_R7 (get (reg s) R_PC) s))
      by (apply wf_set_reg; [wf_regs | exact H]).
    repeat match goal with
           | |- context [if ?b then _ else _] => destruct b
           | |- context [getchar ?t] => destruct (getchar t)
           | |- context [puts_words ?r ?c ?m ?t] => destruct (puts_words r c m t) as [[|] ?]
           | |- context [putsp_words ?r ?c ?m ?t] => destruct (putsp_words r c m t) as [[|] ?]
           end; cbn [machine_of]; try exact H7;
      apply wf_update_flags, wf_set_reg; try exact H7; wf_regs.
Qed.

Lemma wf_step s : wf_machine s -> wf_machine (machine_of (step s)).
Proof.
  intros H. unfold step, fetch.
  destruct (mem_read _ _) as [instr s1] eqn:E.
  apply wf_execute. apply (wf_mem_read_pair _ _ _ _ E).
  apply wf_set_reg; [wf_regs | exact H].
Qed.

Lemma wf_run turns : forall s, wf_machine s -> wf_machine (machine_of (run turns s)).
Proof.
  induction turns as [|n IH]; intros s H; [exact H|].
  cbn [run]. pose proof (wf_step s H) as Hs.
  destruct (step s); try exact Hs. apply IH. exact Hs.
Qed.

End WfOperations.

Section WfLoader.

Lemma word_bits_range a : 0 <= a -> (forall i, 16 <= i -> Z.testbit a i = false) -> 0 <= a < 65536.
Proof.
  intros Ha Hb. change 65536 with (2 ^ 16).
  apply (proj2 (Z.bounded_iff_bits_nonneg' 16 a ltac:(lia) Ha)). exact Hb.
Qed.

Lemma host_word_range b0 b1 : 0 <= host_word b0 b1 < 65536.
Proof.
  unfold host_word. pose proof (byte_code_range b0). pose proof (byte_code_range b1). lia.
Qed.

Lemma host_partial_range old b0 : 0 <= old < 65536 -> 0 <= host_partial old b0 < 65536.
Proof.
  intros Ho. unfold host_partial. pose proof (byte_code_range b0) as Hb.
  apply word_bits_range.
  - apply Z.lor_nonneg. split; [apply Z.land_nonneg; lia | lia].
  - intros i Hi. rewrite Z.lor_spec, Z.land_spec.
    rewrite (small_high_bits 16 old i) by (change (2 ^ 16) with 65536; lia).
    rewrite (small_high_bits 8 (Z.of_N (Byte.to_N b0)) i) by (change (2 ^ 8) with 256; lia).
    reflexivity.
Qed.

Lemma fread_words_word_array n :
  forall file p m,
    0 <= p -> p + Z.of_nat n <= MEMORY_MAX ->
    word_array 0 (MEMORY_MAX - 1) m ->
    word_array 0 (MEMORY_MAX - 1) (fst (fread_words n file p m)).
Proof.
  induction n as [|n IH]; intros file p m Hp Hn Hm; [exact Hm|].
  cbn [fread_words]. destruct file as [|b0 [|b1 rest]].
  - exact Hm.
  - cbn [fst]. apply word_array_insert; [lia | | exact Hm].
    apply host_partial_range. exact (word_array_get _ _ _ p Hm).
  - specialize (IH rest (p + 1) (<[p := host_word b0 b1]> m)).
    destruct (fread_words n rest (p + 1) (<[p := host_word b0 b1]> m)) as [m' k].
    cbn [fst] in *. apply IH; [lia | lia |].
    apply word_array_insert; [lia | apply host_word_range | exact Hm].
Qed.

Lemma swap_words_word_array k :
  forall p m,
    0 <= p -> p + Z.of_nat k <= MEMORY_MAX ->
    word_array 0 (MEMORY_MAX - 1) m ->
    word_array 0 (MEMORY_MAX - 1) (swap_words k p m).
Proof.
  induction k as [|k IH]; intros p m Hp Hk Hm; [exact Hm|].
  cbn [swap_words]. apply IH; [lia | lia |].
  apply word_array_insert; [lia | apply u16_range | exact Hm].
Qed.

Lemma read_image_file_word_array stale file m :
  word_array 0 (MEMORY_MAX - 1) m ->
  word_array 0 (MEMORY_MAX - 1) (read_image_file stale file m).
Proof.
  intros Hm. rewrite read_image_file_unfold.
  pose proof (swap16_range (fst (fread_origin stale file))) as Ho.
  fold (image_origin stale file) in Ho.
  pose proof (max_read_fits _ Ho) as Hfit.
  set (n := Z.to_nat (u16 (MEMORY_MAX - image_origin stale file))) in *.
  pose proof (fread_words_count n (snd (fread_origin stale file))
                (image_origin stale file) m) as Hk.
  apply swap_words_word_array; [lia | lia |].
  apply fread_words_word_array; [lia | exact Hfit | exact Hm].
Qed.

Lemma load_images_word_array fs stale paths :
  forall j m m',
    word_array 0 (MEMORY_MAX - 1) m ->
    load_images fs stale j paths m = inr m' ->
    word_array 0 (MEMORY_MAX - 1) m'.
Proof.
  induction paths as [|p rest IH]; intros j m m' Hm Hl.
  - injection Hl as <-. exact Hm.
  - cbn [load_images] in Hl. unfold read_image in Hl.
    destruct (fs p) as [file|]; cbn [Z.eqb] in Hl; [|discriminate].
    apply (IH _ _ _ (read_image_file_word_array (stale j) file m Hm) Hl).
Qed.

End WfLoader.

(** X1. Whatever images are loaded and whatever the program does, the
    machine in which the loop of [main] stops (or stands when the turns
    allowed are used up) uses no index outside [memory[0 .. 65535]] and
    [reg[0 .. 9]], and every cell of both arrays holds a 16-bit word: no
    load and no instruction ever writes outside the two arrays. *)
Theorem main_stays_within_arrays
  (fs : filesystem) (stale : nat -> Z) (argv : list string) (t : console)
  (turns : nat) (st : status) :
  main fs stale argv t turns = Loop st ->
  wf_machine (machine_of st).
Proof.
  unfold main. destruct (Z.of_nat (length argv) <? 2); [discriminate|].
  destruct (load_images fs stale 1 (tl argv) ∅) as [bad|m] eqn:Hl; [discriminate|].
  intros [= <-]. apply wf_run.
  apply wf_set_reg; [unfold R_PC; lia|]. apply wf_set_reg; [unfold R_COND; lia|].
  split; [|apply word_array_empty]. cbn [memory].
  exact (load_images_word_array fs stale (tl argv) 1%nat ∅ m
           (word_array_empty _ _) Hl).
Qed.

(** The program that prints HI, run to its halt. *)
Lemma main_stays_within_arrays_witness :
  wf_machine
    (machine_of
       (run 3 (set_reg R_PC PC_START
                 (set_reg R_COND FL_ZRO
                    (Machine (read_image_file 0 image_hi ∅) ∅ (Console [] [])))))).
Proof.
  apply (main_stays_within_arrays hi_files (fun _ => 0)
           ["lc3-vm"; "hi.obj"]%string (Console [] []) 3).
  vm_compute. reflexivity.
Defined.

(** X2. One turn of the loop keeps a well-formed machine well-formed,
    however the turn ends: each register written is one of the ten, each
    memory address written is below 65536, each value stored is reduced
    to 16 bits. *)
Theorem step_keeps_machine_well_formed (s : machine) :
  wf_machine s -> wf_machine (machine_of (step s)).
Proof. exact (wf_step s). Qed.

Lemma step_keeps_machine_well_formed_witness :
  wf_machine (machine_of (step (poised ADD_R0_R1_1 ∅ []))).
Proof.
  apply step_keeps_machine_well_formed.
  unfold poised. cbv zeta.
  apply wf_set_reg; [unfold R_PC; lia|]. apply wf_set_reg; [unfold R_COND; lia|].
  split; cbn [memory reg].
  - apply word_array_insert; [vm_compute; split; discriminate
                             | vm_compute; split; [discriminate | reflexivity]
                             | apply word_array_empty].
  - apply word_array_empty.
Defined.

(** ** Byte order *)

Section ByteOrder.

Lemma swap16_bytes lo hi :
  0 <= lo < 256 -> 0 <= hi < 256 -> swap16 (lo + 256 * hi) = hi + 256 * lo.
Proof.
  intros Hlo Hhi. unfold swap16.
  assert (Hsh : Z.shiftr (lo + 256 * hi) 8 = hi).
  { rewrite Z.shiftr_div_pow2 by lia. change (2 ^ 8) with 256.
    symmetry. apply (Z.div_unique _ 256 hi lo); lia. }
  rewrite Hsh. rewrite <- Z.add_nocarry_lor.
  - rewrite Z.shiftl_mul_pow2 by lia. change (2 ^ 8) with 256. unfold u16.
    replace ((lo + 256 * hi) * 256 + hi) with (hi + 256 * lo + hi * 65536) by ring.
    rewrite Z.mod_add by lia. apply Z.mod_small. lia.
  - apply Z.bits_inj'. intros i Hi. rewrite Z.land_spec, Z.bits_0.
    destruct (Z.ltb_spec i 8) as [Hlt|Hge].
    + rewrite Z.shiftl_spec_low by exact Hlt. reflexivity.
    + rewrite (small_high_bits 8 hi i) by (change (2 ^ 8) with 256; lia).
      apply andb_false_r.
Qed.

End ByteOrder.

(** X3. Swapping the bytes of a 16-bit word twice gives the word back,
    and the swap of a word is the word with its low byte moved to the top
    and its high byte to the bottom. *)
Theorem swap16_involutive (x : Z) :
  0 <= x < 65536 ->
  swap16 x = x / 256 + 256 * (x mod 256) /\
  0 <= swap16 x < 65536 /\
  swap16 (swap16 x) = x.
Proof.
  intros Hx.
  assert (Hlo : 0 <= x mod 256 < 256) by (apply Z.mod_pos_bound; lia).
  assert (Hhi : 0 <= x / 256 < 256).
  { split; [apply Z.div_pos; lia | apply Z.div_lt_upper_bound; lia]. }
  assert (Hsplit : x = x mod 256 + 256 * (x / 256)).
  { pose proof (Z.div_mod x 256 ltac:(lia)). lia. }
  assert (H1 : swap16 x = x / 256 + 256 * (x mod 256)).
  { rewrite Hsplit at 1. apply swap16_bytes; assumption. }
  split; [exact H1|]. split; [lia|].
  rewrite H1, swap16_bytes by assumption. lia.
Qed.

Lemma swap16_involutive_witness :
  swap16 0x1234 = 0x3412 /\ swap16 (swap16 0x1234) = 0x1234.
Proof.
  destruct (swap16_involutive 0x1234 ltac:(lia)) as (H1 & _ & H2).
  split; [rewrite H1; reflexivity | exact H2].
Defined.

(** ** What an image leaves in memory *)

Section LoadedCells.

Lemma store_words_spec_cell (n : nat) :
  forall body address m i w,
    (length body <= n)%nat ->
    image_word i body = Some w ->
    address + Z.of_nat i <= 0xFFFF ->
    get (store_words_spec body address m) (address + Z.of_nat i) = w.
Proof.
  induction n as [|n IH]; intros body address m i w Hlen Hw Hi;
    destruct body as [|hi [|lo rest]]; try discriminate.
  - cbn [length] in Hlen. lia.
  - cbn [store_words_spec]. replace (address <=? 0xFFFF) with true by lia.
    destruct i as [|i]; cbn [image_word] in Hw.
    + injection Hw as <-. rewrite Z.add_0_r. unfold get.
      rewrite store_words_spec_below by lia. rewrite lookup_insert_eq. reflexivity.
    + replace (address + Z.of_nat (S i)) with (address + 1 + Z.of_nat i) by lia.
      apply IH; [cbn [length] in Hlen; lia | exact Hw | lia].
Qed.

Lemma store_words_spec_above (n : nat) :
  forall body address m a,
    (length body <= n)%nat ->
    address + Z.of_nat (length body) / 2 <= a \/ 0xFFFF < a ->
    store_words_spec body address m !! a = m !! a.
Proof.
  induction n as [|n IH]; intros body address m a Hlen Ha;
    destruct body as [|hi [|lo rest]]; try reflexivity.
  - cbn [length] in Hlen. lia.
  - cbn [store_words_spec]. destruct (Z.leb_spec address 0xFFFF) as [Hle|Hgt]; [|reflexivity].
    cbn [length] in Hlen, Ha.
    replace (Z.of_nat (S (S (length rest))) / 2) with (1 + Z.of_nat (length rest) / 2) in Ha
      by (replace (Z.of_nat (S (S (length rest)))) with (Z.of_nat (length rest) + 1 * 2) by lia;
          rewrite Z.div_add by lia; lia).
    pose proof (Z.div_pos (Z.of_nat (length rest)) 2 ltac:(lia) ltac:(lia)) as Hd.
    rewrite IH; [apply lookup_insert_ne; lia | lia | lia].
Qed.

End LoadedCells.

(** X4. An image of whole words with an origin from 0x0001 to 0xFFFF
    leaves its [i]-th body word, read big-endian, at address origin + i
    for every such address up to 0xFFFF, whatever memory held there (so a
    later image overwrites an earlier one), and leaves every other cell,
    below the origin, past the last word or past 0xFFFF, as it was: words
    that do not fit below 0x10000 are dropped. *)
Theorem loaded_image_cells
  (stale : Z) (hi lo : byte) (body : list byte) (m : array) :
  be_word hi lo <> 0 ->
  Nat.even (length body) = true ->
  (forall i w,
     image_word i body = Some w ->
     be_word hi lo + Z.of_nat i <= 0xFFFF ->
     get (read_image_file stale (hi :: lo :: body) m) (be_word hi lo + Z.of_nat i) = w) /\
  (forall a,
     a < be_word hi lo \/
     be_word hi lo + Z.of_nat (length body) / 2 <= a \/
     0xFFFF < a ->
     read_image_file stale (hi :: lo :: body) m !! a = m !! a).
Proof.
  intros Ho Hev. rewrite (read_image_file_meets_spec stale hi lo body m Ho Hev).
  cbn [load_image_spec]. split.
  - intros i w Hw Hi. apply (store_words_spec_cell (length body)); [lia | exact Hw | exact Hi].
  - intros a [Ha|Ha].
    + apply store_words_spec_below. exact Ha.
    + apply (store_words_spec_above (length body)); [lia | exact Ha].
Qed.

(** The image with origin 0xFFFF and body 1, 2, 3 over a memory that held
    9 at 0xFFFF: the first word replaces the 9, the other two are
    dropped. *)
Lemma loaded_image_cells_witness :
  get (read_image_file 0 [xff; xff; x00; x01; x00; x02; x00; x03] (<[0xFFFF := 9]> ∅))
      (be_word xff xff + Z.of_nat 0) = 1 /\
  read_image_file 0 [xff; xff; x00; x01; x00; x02; x00; x03] (<[0xFFFF := 9]> ∅) !! 0x10000
  = (<[0xFFFF := 9]> ∅ : array) !! 0x10000.
Proof.
  destruct (loaded_image_cells 0 xff xff [x00; x01; x00; x02; x00; x03]
              (<[0xFFFF := 9]> ∅) ltac:(vm_compute; discriminate) eq_refl) as [Hcell Hrest].
  split.
  - apply Hcell; [reflexivity | vm_compute; discriminate].
  - apply Hrest. right. right. reflexivity.
Defined.

(** X5. A file of at most two bytes (empty, a lone byte, or an origin
    with no body) is accepted as an image: [read_image] reports success
    and memory is left exactly as it was, whatever the origin read or left
    indeterminate. *)
Theorem bodyless_image_loads_nothing
  (fs : filesystem) (stale : Z) (image_path : string) (file : list byte) (m : array) :
  fs image_path = Some file ->
  (length file <= 2)%nat ->
  read_image fs stale image_path m = (1, m).
Proof.
  intros Hf Hlen. unfold read_image. rewrite Hf. f_equal.
  rewrite read_image_file_unfold.
  assert (Hrest : snd (fread_origin stale file) = []).
  { destruct file as [|b0 [|b1 [|b2 rest]]]; try reflexivity. cbn [length] in Hlen. lia. }
  rewrite Hrest.
  destruct (Z.to_nat (u16 (MEMORY_MAX - image_origin stale file))); reflexivity.
Qed.

Lemma bodyless_image_loads_nothing_witness :
  read_image (fun _ => Some []) 0x3000 "empty.obj" (<[0x3000 := 7]> ∅)
  = (1, <[0x3000 := 7]> ∅).
Proof.
  apply (bodyless_image_loads_nothing (fun _ => Some []) 0x3000 "empty.obj" []).
  - reflexivity.
  - cbn [length]. lia.
Defined.

(** X6. For every stream, whole or cut short, and whatever [origin] held
    before a failed read, loading changes no cell below the origin the
    loader took and none above 0xFFFF. *)
Theorem loader_writes_only_from_origin_up
  (stale : Z) (file : list byte) (m : array) (a : Z) :
  a < image_origin stale file \/ 0xFFFF < a ->
  0 <= image_origin stale file <= 0xFFFF /\
  read_image_file stale file m !! a = m !! a.
Proof.
  intros Ha. split.
  - unfold image_origin. apply swap16_range.
  - apply read_image_file_in_bounds. exact Ha.
Qed.

(** A stream that ends in the middle of a word, loaded at 0x0010: the
    cell below the origin keeps its word. *)
Lemma loader_writes_only_from_origin_up_witness :
  read_image_file 0 [x00; x10; x00; x01; x07] (<[0x000F := 5]> ∅) !! 0x000F
  = (<[0x000F := 5]> ∅ : array) !! 0x000F.
Proof.
  apply (loader_writes_only_from_origin_up 0 [x00; x10; x00; x01; x07]
           (<[0x000F := 5]> ∅) 0x000F).
  left. vm_compute. reflexivity.
Defined.

(** ** Memory and the keyboard registers *)

Section StoreLoad.

Lemma u16_add_65536 a : u16 (a + 65536) = u16 a.
Proof. unfold u16. replace (a + 65536) with (a + 1 * 65536) by lia. apply Z.mod_add. lia. Qed.

(** What a status read leaves behind when the poll answers 1 and when it
    answers 0. *)
Lemma keyboard_poll a s :
  u16 a = MR_KBSR ->
  (fst (check_key (tty s)) = true ->
   forall c rest, next_key (stdin (tty s)) = Some (c, rest) ->
     fst (mem_read a s) = 0x8000 /\
     get (memory (snd (mem_read a s))) MR_KBDR = Z.of_N (Byte.to_N c) /\
     stdin (tty (snd (mem_read a s))) = rest) /\
  (fst (check_key (tty s)) = false ->
   fst (mem_read a s) = 0 /\
   get (memory (snd (mem_read a s))) MR_KBSR = 0 /\
   get (memory (snd (mem_read a s))) MR_KBDR = get (memory s) MR_KBDR /\
   tty (snd (mem_read a s)) = snd (check_key (tty s))).
Proof.
  intros Ha. split.
  - intros Hk c rest Hin. rewrite (mem_read_status_ready a s Ha Hk).
    cbn [fst snd memory tty]. rewrite get_insert_eq.
    unfold getchar. rewrite Hin. cbn. split; [reflexivity|]. split; [|reflexivity].
    apply u16_small. pose proof (byte_code_range c). lia.
  - intros Hk. rewrite (mem_read_status_idle a s Ha Hk). cbn [fst snd memory tty].
    rewrite get_insert_eq. rewrite get_insert_ne by discriminate. repeat split.
Qed.

(** The poll's answer for an input that begins with held characters. *)
Lemma check_key_held (t : console) (hs : list byte) (d : list tty_event) :
  stdin t = map Held hs ++ d ->
  check_key t = (fst (select d), Console (map Held hs ++ snd (select d)) (stdout t)).
Proof. intros Hin. unfold check_key. rewrite Hin, select_held. reflexivity. Qed.

End StoreLoad.

(** X7. A word written to any address other than 0xFE00 is what the next
    read of that address returns, reduced to 16 bits; the read changes
    nothing; a read of any other plain address still returns what it held
    before the write; and addresses are taken modulo 65536. *)
Theorem write_then_read (a v : Z) (s : machine) :
  u16 a <> MR_KBSR ->
  mem_read a (mem_write a v s) = (u16 v, mem_write a v s) /\
  (forall b, u16 b <> u16 a -> u16 b <> MR_KBSR ->
             mem_read b (mem_write a v s) = (get (memory s) (u16 b), mem_write a v s)) /\
  mem_write (a + 65536) v s = mem_write a v s /\
  mem_read (a + 65536) (mem_write a v s) = mem_read a (mem_write a v s).
Proof.
  intros Ha. split; [|split; [|split]].
  - rewrite mem_read_plain by exact Ha. cbn [memory mem_write with_memory].
    rewrite get_insert_eq. reflexivity.
  - intros b Hb Hk. rewrite mem_read_plain by exact Hk.
    cbn [memory mem_write with_memory].
    rewrite get_insert_ne by (intros E; apply Hb; symmetry; exact E). reflexivity.
  - unfold mem_write. rewrite u16_add_65536. reflexivity.
  - unfold mem_read. rewrite u16_add_65536. reflexivity.
Qed.

Lemma write_then_read_witness :
  mem_read 0x4000 (mem_write 0x4000 0x12345 key_a_waits)
  = (u16 0x12345, mem_write 0x4000 0x12345 key_a_waits).
Proof.
  exact (proj1 (write_then_read 0x4000 0x12345 key_a_waits ltac:(vm_compute; discriminate))).
Defined.

(** X8. A word written to 0xFE00 is never read back: the read that
    follows polls the keyboard and returns 0x8000 or 0 as the poll
    decides, the same value it would have returned without the write. *)
Theorem status_write_is_not_read_back (a v : Z) (s : machine) :
  u16 a = MR_KBSR ->
  fst (mem_read a (mem_write a v s)) = (if fst (check_key (tty s)) then 0x8000 else 0) /\
  fst (mem_read a (mem_write a v s)) = fst (mem_read a s) /\
  get (memory (snd (mem_read a (mem_write a v s)))) MR_KBSR
  = (if fst (check_key (tty s)) then 0x8000 else 0).
Proof.
  intros Ha.
  assert (Hs : forall s0, fst (mem_read a s0) = (if fst (check_key (tty s0)) then 0x8000 else 0) /\
                          get (memory (snd (mem_read a s0))) MR_KBSR
                          = (if fst (check_key (tty s0)) then 0x8000 else 0)).
  { intros s0. destruct (fst (check_key (tty s0))) eqn:Hk.
    - rewrite (mem_read_status_ready a s0 Ha Hk). cbn [fst snd memory].
      rewrite get_insert_ne by discriminate. rewrite get_insert_eq.
      split; reflexivity.
    - rewrite (mem_read_status_idle a s0 Ha Hk). cbn [fst snd memory].
      rewrite get_insert_eq. split; reflexivity. }
  destruct (Hs (mem_write a v s)) as [H1 H2]. destruct (Hs s) as [H3 _].
  cbn [tty mem_write with_memory] in H1, H2.
  split; [exact H1|]. split; [rewrite H1, H3; reflexivity | exact H2].
Qed.

Lemma status_write_is_not_read_back_witness :
  fst (mem_read MR_KBSR (mem_write MR_KBSR 0x1234 key_a_waits))
  = (if fst (check_key (tty key_a_waits)) then 0x8000 else 0).
Proof.
  exact (proj1 (status_write_is_not_read_back MR_KBSR 0x1234 key_a_waits eq_refl)).
Defined.

(** X9. A status read takes a character only when the descriptor of
    standard input is ready, and then it takes the one [getchar] returns.
    With two keys that each come in by a read of their own, a second
    status read before the data register is read replaces the first
    character at 0xFE02 by the second, and the first is lost to the
    program.  With both keys brought in by the first read and nothing new
    on the descriptor, the second status read returns 0, 0xFE02 keeps the
    first character and the second stays held; the next status read that
    finds the descriptor ready stores that held character, not the one
    that has just arrived. *)
Theorem status_reads_follow_the_descriptor
  (a : Z) (s : machine) (c1 c2 c3 : byte) (more more3 : list byte)
  (rest : list tty_event) :
  u16 a = MR_KBSR ->
  (stdin (tty s) = Keys c1 [] :: Keys c2 more :: rest ->
   get (memory (snd (mem_read a s))) MR_KBDR = Z.of_N (Byte.to_N c1) /\
   fst (mem_read a (snd (mem_read a s))) = 0x8000 /\
   get (memory (snd (mem_read a (snd (mem_read a s))))) MR_KBDR = Z.of_N (Byte.to_N c2) /\
   stdin (tty (snd (mem_read a (snd (mem_read a s))))) = map Held more ++ rest /\
   fst (mem_read MR_KBDR (snd (mem_read a (snd (mem_read a s))))) = Z.of_N (Byte.to_N c2)) /\
  (stdin (tty s) = Keys c1 (c2 :: more) :: Idle :: rest ->
   fst (mem_read a s) = 0x8000 /\
   get (memory (snd (mem_read a s))) MR_KBDR = Z.of_N (Byte.to_N c1) /\
   fst (mem_read a (snd (mem_read a s))) = 0 /\
   get (memory (snd (mem_read a (snd (mem_read a s))))) MR_KBSR = 0 /\
   get (memory (snd (mem_read a (snd (mem_read a s))))) MR_KBDR = Z.of_N (Byte.to_N c1) /\
   stdin (tty (snd (mem_read a (snd (mem_read a s))))) = Held c2 :: map Held more ++ rest) /\
  (stdin (tty s) = Keys c1 (c2 :: more) :: Keys c3 more3 :: rest ->
   get (memory (snd (mem_read a s))) MR_KBDR = Z.of_N (Byte.to_N c1) /\
   fst (mem_read a (snd (mem_read a s))) = 0x8000 /\
   get (memory (snd (mem_read a (snd (mem_read a s))))) MR_KBDR = Z.of_N (Byte.to_N c2) /\
   stdin (tty (snd (mem_read a (snd (mem_read a s)))))
   = map Held more ++ Keys c3 more3 :: rest).
Proof.
  intros Ha.
  assert (Hfirst : forall tl rest', stdin (tty s) = Keys c1 tl :: rest' ->
            fst (mem_read a s) = 0x8000 /\
            get (memory (snd (mem_read a s))) MR_KBDR = Z.of_N (Byte.to_N c1) /\
            stdin (tty (snd (mem_read a s))) = map Held tl ++ rest').
  { intros tl rest' Hin. destruct (keyboard_poll a s Ha) as [Hready _].
    apply Hready.
    - unfold check_key. rewrite Hin. reflexivity.
    - rewrite Hin. reflexivity. }
  split; [|split].
  - intros Hin. destruct (Hfirst _ _ Hin) as (_ & Hd1 & Hin1).
    set (s1 := snd (mem_read a s)) in *. cbn [map app] in Hin1.
    destruct (keyboard_poll a s1 Ha) as [Hready _].
    destruct (Hready ltac:(unfold check_key; rewrite Hin1; reflexivity)
                c2 (map Held more ++ rest) ltac:(rewrite Hin1; reflexivity))
      as (Hv2 & Hd2 & Hin2).
    split; [exact Hd1|]. split; [exact Hv2|]. split; [exact Hd2|]. split; [exact Hin2|].
    rewrite mem_read_plain by (vm_compute; discriminate). cbn [fst]. exact Hd2.
  - intros Hin. destruct (Hfirst _ _ Hin) as (Hv1 & Hd1 & Hin1).
    set (s1 := snd (mem_read a s)) in *.
    pose proof (check_key_held (tty s1) (c2 :: more) (Idle :: rest) Hin1) as Hc.
    cbn [select fst snd] in Hc.
    destruct (keyboard_poll a s1 Ha) as [_ Hidle].
    destruct (Hidle ltac:(rewrite Hc; reflexivity)) as (Hv2 & Hs2 & Hd2 & Ht2).
    split; [exact Hv1|]. split; [exact Hd1|]. split; [exact Hv2|]. split; [exact Hs2|].
    split; [rewrite Hd2; exact Hd1|]. rewrite Ht2, Hc. reflexivity.
  - intros Hin. destruct (Hfirst _ _ Hin) as (_ & Hd1 & Hin1).
    set (s1 := snd (mem_read a s)) in *.
    pose proof (check_key_held (tty s1) (c2 :: more) (Keys c3 more3 :: rest) Hin1) as Hc.
    cbn [select fst snd] in Hc.
    destruct (keyboard_poll a s1 Ha) as [Hready _].
    destruct (Hready ltac:(rewrite Hc; reflexivity)
                c2 (map Held more ++ Keys c3 more3 :: rest)
                ltac:(rewrite Hin1; reflexivity))
      as (Hv2 & Hd2 & Hin2).
    split; [exact Hd1|]. split; [exact Hv2|]. split; [exact Hd2|exact Hin2].
Qed.

Lemma status_reads_follow_the_descriptor_witness :
  (get (memory (snd (mem_read MR_KBSR (snd (mem_read MR_KBSR key_a_waits))))) MR_KBDR
   = Z.of_N (Byte.to_N "b"%byte) /\
   stdin (tty (snd (mem_read MR_KBSR (snd (mem_read MR_KBSR key_a_waits))))) = []) /\
  (fst (mem_read MR_KBSR keys_a_b_arrived) = 0x8000 /\
   fst (mem_read MR_KBSR (snd (mem_read MR_KBSR keys_a_b_arrived))) = 0 /\
   get (memory (snd (mem_read MR_KBSR (snd (mem_read MR_KBSR keys_a_b_arrived)))))
       MR_KBDR = Z.of_N (Byte.to_N "a"%byte) /\
   stdin (tty (snd (mem_read MR_KBSR (snd (mem_read MR_KBSR keys_a_b_arrived)))))
   = [Held "b"%byte]).
Proof.
  split.
  - destruct (status_reads_follow_the_descriptor MR_KBSR key_a_waits
                "a"%byte "b"%byte "b"%byte [] [] [] eq_refl) as (H & _).
    destruct (H eq_refl) as (_ & _ & H2 & H3 & _).
    split; [exact H2 | exact H3].
  - destruct (status_reads_follow_the_descriptor MR_KBSR keys_a_b_arrived
                "a"%byte "b"%byte "b"%byte [] [] [] eq_refl) as (_ & H & _).
    destruct (H eq_refl) as (H1 & _ & H2 & _ & H3 & H4).
    split; [exact H1|]. split; [exact H2|]. split; [exact H3 | exact H4].
Defined.

(** ** What an instruction leaves alone *)

Section RegisterFrame.

Variables (instr : Z) (r : Z).

Lemma frame_set_reg r' v s : r <> r' -> get (reg (set_reg r' v s)) r = get (reg s) r.
Proof. intros H. apply get_set_reg_ne. intros E. apply H. symmetry. exact E. Qed.

Lemma frame_update_flags r' s :
  r <> R_COND -> get (reg (update_flags r' s)) r = get (reg s) r.
Proof.
  intros H. unfold update_flags.
  destruct (get (reg s) r' =? 0); [apply frame_set_reg, H|].
  destruct (negb _); apply frame_set_reg, H.
Qed.

Lemma frame_mem_read a s v s1 :
  mem_read a s = (v, s1) -> get (reg s1) r = get (reg s) r.
Proof.
  intros E. pose proof (reg_mem_read a s) as H. rewrite E in H. cbn in H.
  rewrite H. reflexivity.
Qed.

Lemma frame_flag_op_1 r0 v s :
  r <> r0 -> r <> R_COND ->
  get (reg (update_flags r0 (set_reg r0 v s))) r = get (reg s) r.
Proof. intros H1 H2. rewrite frame_update_flags, frame_set_reg by assumption. reflexivity. Qed.

Lemma execute_register_frame s :
  ~ In r (written_registers instr) ->
  get (reg (machine_of (execute instr s))) r = get (reg s) r.
Proof.
  unfold written_registers, execute. cbv zeta.
  generalize (Z.shiftr instr 12) as op. intros op.
  destruct (Z.eqb_spec op OP_ADD).
  { cbn [orb In]. intros H. unfold op_add.
    destruct (negb _); apply frame_flag_op_1; (intuition congruence). }
  destruct (Z.eqb_spec op OP_AND).
  { cbn [orb In]. intros H. unfold op_and.
    destruct (negb _); apply frame_flag_op_1; (intuition congruence). }
  destruct (Z.eqb_spec op OP_NOT).
  { cbn [orb In]. intros H. unfold op_not. apply frame_flag_op_1; (intuition congruence). }
  destruct (Z.eqb_spec op OP_BR).
  { subst op. cbn [orb In Z.eqb OP_BR OP_LD OP_LDI OP_LDR OP_LEA]. intros H. unfold op_br.
    destruct (negb _); [apply frame_set_reg; (intuition congruence) | reflexivity]. }
  destruct (Z.eqb_spec op OP_JMP).
  { subst op. cbn. intros H. apply frame_set_reg. (intuition congruence). }
  destruct (Z.eqb_spec op OP_JSR).
  { subst op. cbn -[op_jsr]. intros H. unfold op_jsr.
    destruct (negb _); rewrite !frame_set_reg by (intuition congruence); reflexivity. }
  destruct (Z.eqb_spec op OP_LD).
  { cbn [orb In]. intros H. unfold op_ld. cbn [machine_of].
    destruct (mem_read _ s) as [v s1] eqn:E. rewrite frame_flag_op_1 by (intuition congruence).
    exact (frame_mem_read _ _ _ _ E). }
  destruct (Z.eqb_spec op OP_LDI).
  { cbn [orb In]. intros H. unfold op_ldi. cbn [machine_of].
    destruct (mem_read _ s) as [a s1] eqn:E. destruct (mem_read a s1) as [v s2] eqn:E2.
    rewrite frame_flag_op_1 by (intuition congruence).
    rewrite (frame_mem_read _ _ _ _ E2). exact (frame_mem_read _ _ _ _ E). }
  destruct (Z.eqb_spec op OP_LDR).
  { cbn [orb In]. intros H. unfold op_ldr. cbn [machine_of].
    destruct (mem_read _ s) as [v s1] eqn:E. rewrite frame_flag_op_1 by (intuition congruence).
    exact (frame_mem_read _ _ _ _ E). }
  destruct (Z.eqb_spec op OP_LEA).
  { cbn [orb In]. intros H. unfold op_lea. apply frame_flag_op_1; (intuition congruence). }
  cbn [orb].
  destruct (Z.eqb_spec op OP_ST); [intros _; reflexivity|].
  destruct (Z.eqb_spec op OP_STI).
  { intros _. unfold op_sti. cbn [machine_of].
    destruct (mem_read _ s) as [a s1] eqn:E. rewrite reg_mem_write.
    exact (frame_mem_read _ _ _ _ E). }
  destruct (Z.eqb_spec op OP_STR); [intros _; reflexivity|].
  destruct (Z.eqb_spec op OP_TRAP); [|intros _; reflexivity].
  unfold op_trap. cbv zeta.
  destruct (Z.eqb_spec (Z.land instr 0xFF) TRAP_GETC) as [Hg|Hg].
  { cbn [orb In]. intros H. destruct (getchar _) as [c t]. cbn [machine_of].
    rewrite frame_flag_op_1 by (intuition congruence). apply frame_set_reg. (intuition congruence). }
  destruct (Z.eqb_spec (Z.land instr 0xFF) TRAP_OUT) as [Ho|Ho].
  { rewrite Ho. cbn [orb In Z.eqb TRAP_OUT TRAP_IN Pos.eqb]. intros H.
    cbn [machine_of with_tty reg]. apply frame_set_reg. (intuition congruence). }
  destruct (Z.eqb_spec (Z.land instr 0xFF) TRAP_PUTS) as [Hp|Hp].
  { rewrite Hp. cbn [orb In Z.eqb TRAP_PUTS TRAP_IN Pos.eqb]. intros H.
    destruct (puts_words _ _ _ _) as [[|] ?]; cbn [machine_of with_tty reg];
      apply frame_set_reg; (intuition congruence). }
  destruct (Z.eqb_spec (Z.land instr 0xFF) TRAP_IN) as [Hi|Hi].
  { cbn [orb In]. intros H. destruct (getchar _) as [c t]. cbn [machine_of].
    rewrite frame_flag_op_1 by (intuition congruence). apply frame_set_reg. (intuition congruence). }
  cbn [orb In]. intros H.
  destruct (Z.eqb_spec (Z.land instr 0xFF) TRAP_PUTSP) as [Hq|Hq].
  { destruct (putsp_words _ _ _ _) as [[|] ?]; cbn [machine_of with_tty reg];
      apply frame_set_reg; (intuition congruence). }
  destruct (Z.eqb_spec (Z.land instr 0xFF) TRAP_HALT) as [Hh|Hh];
    cbn [machine_of with_tty reg]; apply frame_set_reg; (intuition congruence).
Qed.

End RegisterFrame.

Section MemoryFrame.

Lemma memory_update_flags r s : memory (update_flags r s) = memory s.
Proof.
  unfold update_flags. destruct (get (reg s) r =? 0); [reflexivity|].
  destruct (negb _); reflexivity.
Qed.

Lemma tty_update_flags r s : tty (update_flags r s) = tty s.
Proof.
  unfold update_flags. destruct (get (reg s) r =? 0); [reflexivity|].
  destruct (negb _); reflexivity.
Qed.

(** A read changes no cell other than the two keyboard registers. *)
Lemma memory_mem_read x s a :
  a <> MR_KBSR -> a <> MR_KBDR ->
  get (memory (snd (mem_read x s))) a = get (memory s) a.
Proof.
  intros Hs Hd. unfold mem_read. cbv zeta. cbn [snd].
  destruct (u16 x =? MR_KBSR); [|reflexivity].
  destruct (check_key (tty s)) as [[|] t]; cbn [tty memory reg].
  - destruct (getchar t) as [c t']. cbn [memory].
    rewrite !get_insert_ne by congruence. reflexivity.
  - cbn [memory]. rewrite get_insert_ne by congruence. reflexivity.
Qed.

Lemma memory_mem_read_pair x s v s1 a :
  mem_read x s = (v, s1) -> a <> MR_KBSR -> a <> MR_KBDR ->
  get (memory s1) a = get (memory s) a.
Proof.
  intros E Hs Hd. pose proof (memory_mem_read x s a Hs Hd) as H.
  rewrite E in H. exact H.
Qed.

Lemma stdout_mem_read x s : stdout (tty (snd (mem_read x s))) = stdout (tty s).
Proof.
  destruct (Z.eqb_spec (u16 x) MR_KBSR) as [Ha|Ha];
    [|rewrite mem_read_plain by exact Ha; reflexivity].
  destruct (fst (check_key (tty s))) eqn:Hk.
  - rewrite (mem_read_status_ready x s Ha Hk). cbn [snd tty].
    apply stdout_getchar.
  - rewrite (mem_read_status_idle x s Ha Hk). cbn [snd tty].
    apply stdout_check_key.
Qed.

Lemma stdout_mem_read_pair x s v s1 :
  mem_read x s = (v, s1) -> stdout (tty s1) = stdout (tty s).
Proof. intros E. pose proof (stdout_mem_read x s) as H. rewrite E in H. exact H. Qed.

Lemma execute_memory_frame instr s a :
  is_store instr = false ->
  a <> MR_KBSR -> a <> MR_KBDR ->
  get (memory (machine_of (execute instr s))) a = get (memory s) a.
Proof.
  unfold is_store, execute. cbv zeta. intros Hst Hs Hd.
  apply orb_false_iff in Hst. destruct Hst as [Hst H3].
  apply orb_false_iff in Hst. destruct Hst as [H1 H2].
  rewrite H1, H2, H3.
  repeat match goal with
         | |- context [if ?b then _ else _] => destruct b
         end; cbn [machine_of]; try reflexivity.
  - unfold op_add. destruct (negb _); rewrite memory_update_flags; reflexivity.
  - unfold op_and. destruct (negb _); rewrite memory_update_flags; reflexivity.
  - unfold op_not. rewrite memory_update_flags. reflexivity.
  - unfold op_br. destruct (negb _); reflexivity.
  - unfold op_jsr. destruct (negb _); reflexivity.
  - unfold op_ld. destruct (mem_read _ s) as [v s1] eqn:E.
    rewrite memory_update_flags. cbn [memory set_reg].
    exact (memory_mem_read_pair _ _ _ _ _ E Hs Hd).
  - unfold op_ldi. destruct (mem_read _ s) as [x s1] eqn:E.
    destruct (mem_read x s1) as [v s2] eqn:E2.
    rewrite memory_update_flags. cbn [memory set_reg].
    rewrite (memory_mem_read_pair _ _ _ _ _ E2 Hs Hd).
    exact (memory_mem_read_pair _ _ _ _ _ E Hs Hd).
  - unfold op_ldr. destruct (mem_read _ s) as [v s1] eqn:E.
    rewrite memory_update_flags. cbn [memory set_reg].
    exact (memory_mem_read_pair _ _ _ _ _ E Hs Hd).
  - unfold op_lea. rewrite memory_update_flags. reflexivity.
  - unfold op_trap. cbv zeta.
    repeat match goal with
           | |- context [if ?b then _ else _] => destruct b
           | |- context [getchar ?t] => destruct (getchar t)
           | |- context [puts_words ?r ?c ?m ?t] => destruct (puts_words r c m t) as [[|] ?]
           | |- context [putsp_words ?r ?c ?m ?t] => destruct (putsp_words r c m t) as [[|] ?]
           end; cbn [machine_of]; rewrite ?memory_update_flags; reflexivity.
Qed.

End MemoryFrame.

(** X10. Executing an instruction changes no register outside the ones
    it is documented to write: the destination and the condition codes
    for ADD, AND, NOT, LD, LDI, LDR and LEA; the program counter for BR
    and JMP; R7 and the program counter for JSR; R7 for TRAP, with R0 and
    the condition codes for GETC and IN; none for ST, STI, STR.  This
    holds however the turn ends. *)
Theorem instruction_writes_only_its_registers
  (s : machine) (instr : Z) (s1 : machine) (r : Z) :
  fetch s = (instr, s1) ->
  ~ In r (written_registers instr) ->
  r <> R_PC ->
  get (reg (machine_of (step s))) r = get (reg s) r.
Proof.
  intros Hf Hr Hpc. unfold step. rewrite Hf.
  rewrite (execute_register_frame instr r s1 Hr).
  rewrite (fetch_pc _ _ _ Hf). apply get_insert_ne.
  intros E. apply Hpc. symmetry. exact E.
Qed.

(** ADD R0, R1, #1 leaves R1 as it was. *)
Lemma instruction_writes_only_its_registers_witness :
  get (reg (machine_of (step (poised ADD_R0_R1_1 (<[R_R1 := 41]> ∅) [])))) R_R1
  = get (reg (poised ADD_R0_R1_1 (<[R_R1 := 41]> ∅) [])) R_R1.
Proof.
  assert (Hf : fetch (poised ADD_R0_R1_1 (<[R_R1 := 41]> ∅) [])
               = (ADD_R0_R1_1, snd (fetch (poised ADD_R0_R1_1 (<[R_R1 := 41]> ∅) []))))
    by (vm_compute; reflexivity).
  apply (instruction_writes_only_its_registers _ _ _ R_R1 Hf).
  - vm_compute. intros [E|[E|[]]]; discriminate.
  - discriminate.
Defined.

(** X11. After any instruction other than BR, JMP and JSR the program
    counter is the address after the instruction, modulo 65536: the
    instruction at 0xFFFF is followed by the one at 0x0000.  This holds
    however the turn ends. *)
Theorem straight_line_pc_advances (s : machine) (instr : Z) (s1 : machine) :
  fetch s = (instr, s1) ->
  control_transfer instr = false ->
  get (reg (machine_of (step s))) R_PC = u16 (get (reg s) R_PC + 1).
Proof.
  intros Hf Hct. unfold step. rewrite Hf.
  rewrite (execute_register_frame instr R_PC s1).
  - rewrite (fetch_pc _ _ _ Hf). apply get_insert_eq.
  - unfold control_transfer in Hct. cbv zeta in Hct.
    apply orb_false_iff in Hct. destruct Hct as [Hct H3].
    apply orb_false_iff in Hct. destruct Hct as [H1 H2].
    unfold written_registers. cbv zeta. rewrite H1, H2, H3. cbn [orb].
    pose proof (bits_11_9_range instr) as Hr.
    repeat match goal with
           | |- context [if ?b then _ else _] => destruct b
           end; cbn [In]; unfold R_PC, R_COND, R_R7, R_R0; lia.
Qed.

(** NOT R0, R0 at 0xFFFF: the next instruction is fetched from 0x0000. *)
Lemma straight_line_pc_advances_witness :
  get (reg (machine_of (step (Machine (<[0xFFFF := 0x903F]> ∅) (<[R_PC := 0xFFFF]> ∅)
                                      (Console [] []))))) R_PC = u16 (0xFFFF + 1).
Proof.
  assert (Hf : fetch (Machine (<[0xFFFF := 0x903F]> ∅) (<[R_PC := 0xFFFF]> ∅) (Console [] []))
               = (0x903F, snd (fetch (Machine (<[0xFFFF := 0x903F]> ∅) (<[R_PC := 0xFFFF]> ∅)
                                              (Console [] [])))))
    by (vm_compute; reflexivity).
  exact (straight_line_pc_advances _ _ _ Hf eq_refl).
Defined.

(** X12. Only ST, STI and STR write to memory: any other instruction,
    however its turn ends, leaves every cell other than the two keyboard
    registers 0xFE00 and 0xFE02 holding what it held. *)
Theorem only_stores_write_memory (s : machine) (instr : Z) (s1 : machine) (a : Z) :
  fetch s = (instr, s1) ->
  is_store instr = false ->
  a <> MR_KBSR -> a <> MR_KBDR ->
  get (memory (machine_of (step s))) a = get (memory s) a.
Proof.
  intros Hf Hst Hs Hd. unfold step. rewrite Hf.
  rewrite (execute_memory_frame instr s1 a Hst Hs Hd).
  unfold fetch in Hf. exact (memory_mem_read_pair _ _ _ _ _ Hf Hs Hd).
Qed.

(** LDI through 0xFE00 polls the keyboard and still leaves 0x4000 alone. *)
Lemma only_stores_write_memory_witness :
  get (memory (machine_of (step (with_memory (<[0x4000 := 7]> (<[0x3001 := 0xFE00]>
                                               (<[0x3000 := 0xA000]> ∅)))
                                             (poised 0xA000 ∅ [Keys "a"%byte []]))))) 0x4000
  = 7.
Proof.
  assert (Hf : fetch (with_memory (<[0x4000 := 7]> (<[0x3001 := 0xFE00]>
                                    (<[0x3000 := 0xA000]> ∅)))
                                  (poised 0xA000 ∅ [Keys "a"%byte []]))
               = (0xA000, snd (fetch (with_memory (<[0x4000 := 7]> (<[0x3001 := 0xFE00]>
                                                     (<[0x3000 := 0xA000]> ∅)))
                                                   (poised 0xA000 ∅ [Keys "a"%byte []])))))
    by (vm_compute; reflexivity).
  rewrite (only_stores_write_memory _ _ _ 0x4000 Hf eq_refl); [|discriminate|discriminate].
  vm_compute. reflexivity.
Defined.

(** ** The loop and the console *)

Section Output.

Lemma puts_words_stdout room :
  forall c m t,
    exists out, stdout (snd (puts_words room c m t)) = stdout t ++ out.
Proof.
  induction room as [|n IH]; intros c m t;
    [exists []; rewrite app_nil_r; reflexivity|].
  cbn [puts_words]. destruct (negb (get m c =? 0)).
  - destruct (IH (c + 1) m (putc (to_char (get m c)) t)) as [out Hout].
    cbn [putc stdout] in Hout.
    exists ([to_uchar (to_char (get m c))] ++ out).
    rewrite Hout, app_assoc. reflexivity.
  - exists []. rewrite app_nil_r. reflexivity.
Qed.

Lemma putsp_words_stdout room :
  forall c m t,
    exists out, stdout (snd (putsp_words room c m t)) = stdout t ++ out.
Proof.
  induction room as [|n IH]; intros c m t;
    [exists []; rewrite app_nil_r; reflexivity|].
  cbn [putsp_words]. cbv zeta. destruct (negb (get m c =? 0)).
  - match goal with
    | |- context [putsp_words n ?c' m ?t'] => destruct (IH c' m t') as [out Hout]
    end.
    destruct (negb (to_char (Z.shiftr (get m c) 8) =? 0));
      cbn [putc stdout] in Hout; rewrite <- ?app_assoc in Hout; eexists; exact Hout.
  - exists []. rewrite app_nil_r. reflexivity.
Qed.

Lemma op_trap_stdout instr s :
  exists out, stdout (tty (machine_of (op_trap instr s))) = stdout (tty s) ++ out.
Proof.
  unfold op_trap. cbv zeta.
  set (s1 := set_reg R_R7 (get (reg s) R_PC) s).
  change (stdout (tty s)) with (stdout (tty s1)).
  destruct (Z.land instr 0xFF =? TRAP_GETC).
  { unfold getchar. destruct (next_key _) as [[c rest]|];
      cbn [machine_of]; rewrite tty_update_flags;
      exists []; rewrite app_nil_r; reflexivity. }
  destruct (Z.land instr 0xFF =? TRAP_OUT).
  { eexists. reflexivity. }
  destruct (Z.land instr 0xFF =? TRAP_PUTS).
  { match goal with
    | |- context [puts_words ?r ?c ?m ?t] =>
        pose proof (puts_words_stdout r c m t) as E; destruct (puts_words r c m t) as [[|] t']
    end; cbn [machine_of with_tty tty]; exact E. }
  destruct (Z.land instr 0xFF =? TRAP_IN).
  { unfold getchar. cbn [print stdin stdout].
    destruct (next_key _) as [[c rest]|];
      cbn [machine_of]; rewrite tty_update_flags;
      cbn [tty set_reg with_tty putc stdout]; rewrite <- app_assoc;
      eexists; reflexivity. }
  destruct (Z.land instr 0xFF =? TRAP_PUTSP).
  { match goal with
    | |- context [putsp_words ?r ?c ?m ?t] =>
        pose proof (putsp_words_stdout r c m t) as E; destruct (putsp_words r c m t) as [[|] t']
    end; cbn [machine_of with_tty tty]; exact E. }
  destruct (Z.land instr 0xFF =? TRAP_HALT).
  { eexists. reflexivity. }
  exists []. rewrite app_nil_r. reflexivity.
Qed.

(** Only TRAP prints. *)
Lemma execute_stdout_quiet instr s :
  Z.shiftr instr 12 <> OP_TRAP ->
  stdout (tty (machine_of (execute instr s))) = stdout (tty s).
Proof.
  intros Hop. unfold execute. cbv zeta.
  destruct (Z.eqb_spec (Z.shiftr instr 12) OP_TRAP) as [E|_]; [contradiction|].
  repeat match goal with
         | |- context [if ?b then _ else _] => destruct b
         end; cbn [machine_of]; try reflexivity.
  - unfold op_add. destruct (negb _); rewrite tty_update_flags; reflexivity.
  - unfold op_and. destruct (negb _); rewrite tty_update_flags; reflexivity.
  - unfold op_not. rewrite tty_update_flags. reflexivity.
  - unfold op_br. destruct (negb _); reflexivity.
  - unfold op_jsr. destruct (negb _); reflexivity.
  - unfold op_ld. destruct (mem_read _ s) as [v s1] eqn:E.
    rewrite tty_update_flags. exact (stdout_mem_read_pair _ _ _ _ E).
  - unfold op_ldi. destruct (mem_read _ s) as [x s1] eqn:E.
    destruct (mem_read x s1) as [v s2] eqn:E2.
    rewrite tty_update_flags. cbn [tty set_reg].
    rewrite (stdout_mem_read_pair _ _ _ _ E2). exact (stdout_mem_read_pair _ _ _ _ E).
  - unfold op_ldr. destruct (mem_read _ s) as [v s1] eqn:E.
    rewrite tty_update_flags. exact (stdout_mem_read_pair _ _ _ _ E).
  - unfold op_lea. rewrite tty_update_flags. reflexivity.
  - unfold op_sti. destruct (mem_read _ s) as [x s1] eqn:E.
    exact (stdout_mem_read_pair _ _ _ _ E).
Qed.

Lemma step_stdout s :
  exists out, stdout (tty (machine_of (step s))) = stdout (tty s) ++ out.
Proof.
  unfold step. destruct (fetch s) as [instr s1] eqn:Hf.
  assert (H1 : stdout (tty s1) = stdout (tty s))
    by (unfold fetch in Hf; exact (stdout_mem_read_pair _ _ _ _ Hf)).
  rewrite <- H1.
  destruct (Z.eq_dec (Z.shiftr instr 12) OP_TRAP) as [E|E].
  - rewrite (execute_trap instr s1 E). apply op_trap_stdout.
  - exists []. rewrite app_nil_r. apply execute_stdout_quiet. exact E.
Qed.

End Output.

(** X13. Output is only ever appended: however many turns the loop
    makes and however it ends, what has been printed before is a prefix of
    what has been printed after; and a turn whose instruction is not a
    TRAP prints nothing. *)
Theorem output_only_grows (turns : nat) (s : machine) :
  (exists out, stdout (tty (machine_of (run turns s))) = stdout (tty s) ++ out) /\
  (forall instr s1,
     fetch s = (instr, s1) ->
     Z.shiftr instr 12 <> OP_TRAP ->
     stdout (tty (machine_of (step s))) = stdout (tty s)).
Proof.
  split.
  - revert s. induction turns as [|n IH]; intros s.
    + exists []. rewrite app_nil_r. reflexivity.
    + cbn [run]. destruct (step_stdout s) as [out1 H1].
      destruct (step s) as [s'| | |]; try (exists out1; exact H1).
      destruct (IH s') as [out2 H2]. cbn [machine_of] in H1.
      exists (out1 ++ out2). rewrite H2, H1, app_assoc. reflexivity.
  - intros instr s1 Hf Hop. unfold step. rewrite Hf.
    rewrite (execute_stdout_quiet instr s1 Hop).
    unfold fetch in Hf. exact (stdout_mem_read_pair _ _ _ _ Hf).
Qed.

(** Turns compose: running [n + k] turns is running [n] turns and, if the
    loop is still going, [k] more from where it stands; so once the loop
    has halted, aborted or faulted, allowing more turns changes nothing
    about how and where it stopped. *)
Lemma run_composes (n k : nat) (s : machine) :
  run (n + k) s = match run n s with
                  | Running s' => run k s'
                  | st => st
                  end /\
  ((forall s', run n s <> Running s') -> run (n + k) s = run n s).
Proof.
  assert (H : forall n s, run (n + k) s = match run n s with
                                          | Running s' => run k s'
                                          | st => st
                                          end).
  { clear n s. induction n as [|n IH]; intros s; [reflexivity|].
    cbn [run Nat.add]. destruct (step s); try reflexivity. apply IH. }
  split; [apply H|].
  intros Hstop. rewrite H. destruct (run n s) as [s'| | |]; try reflexivity.
  exfalso. exact (Hstop s' eq_refl).
Qed.

(** ** Addressing *)

Section Addressing.

Lemma u16_add_r a b : u16 (a + u16 b) = u16 (a + b).
Proof. unfold u16. apply Z.add_mod_idemp_r. lia. Qed.

Lemma u16_add_l a b : u16 (u16 a + b) = u16 (a + b).
Proof. unfold u16. apply Z.add_mod_idemp_l. lia. Qed.

Lemma land_ones_range a n : 0 <= n -> 0 <= Z.land a (Z.ones n) < 2 ^ n.
Proof.
  intros Hn. rewrite Z.land_ones by exact Hn. apply Z.mod_pos_bound.
  apply Z.pow_pos_nonneg; lia.
Qed.

(** Adding a sign-extended field is adding the signed value of the
    field, modulo 65536. *)
Lemma signed_offset a instr n :
  0 < n <= 16 ->
  u16 (a + sign_extend (Z.land instr (Z.ones n)) n)
  = u16 (a + field_value n (Z.land instr (Z.ones n))).
Proof.
  intros Hn. rewrite sign_extend_field_value by (try apply land_ones_range; lia).
  apply u16_add_r.
Qed.

Lemma u16_lnot x : u16 (Z.lnot x) = 0xFFFF - u16 x.
Proof.
  unfold u16, Z.lnot.
  pose proof (Z.div_mod x 65536 ltac:(lia)) as Hdm.
  pose proof (Z.mod_pos_bound x 65536 ltac:(lia)) as Hr.
  symmetry. apply (Z.mod_unique _ _ (- (x / 65536) - 1)); lia.
Qed.

Lemma u16_land a b : u16 (Z.land a b) = Z.land (u16 a) (u16 b).
Proof.
  apply Z.bits_inj'. intros i Hi.
  rewrite Z.land_spec, !u16_testbit, Z.land_spec.
  destruct (i <? 16), (Z.testbit a i), (Z.testbit b i); reflexivity.
Qed.

Lemma u16_sign_flag v : u16 (sign_flag v) = sign_flag v.
Proof. destruct (sign_flag_cases v) as [[-> _]|[[-> _]|[-> _]]]; reflexivity. Qed.

End Addressing.

(** X15. LDI goes through one level of indirection: when the word at
    PC + offset (PC being the address after the instruction, the offset
    the signed 9-bit field) is [B] and the word at [B] is [V], and neither
    address is 0xFE00, the destination register receives [V] and the
    condition codes its flag, and memory and console are untouched. *)
Theorem ldi_double_indirection (instr : Z) (s : machine) (B V : Z) :
  Z.shiftr instr 12 = OP_LDI ->
  u16 (get (reg s) R_PC + field_value 9 (Z.land instr 0x1FF)) <> MR_KBSR ->
  get (memory s) (u16 (get (reg s) R_PC + field_value 9 (Z.land instr 0x1FF))) = B ->
  u16 B <> MR_KBSR ->
  get (memory s) (u16 B) = V ->
  exists s',
    execute instr s = Running s' /\
    get (reg s') (bits_11_9 instr) = u16 V /\
    get (reg s') R_COND = sign_flag (u16 V) /\
    memory s' = memory s /\
    tty s' = tty s.
Proof.
  intros Hop HA HB HB' HV. exists (op_ldi instr s).
  split; [apply execute_ldi, Hop|].
  pose proof (bits_11_9_range instr) as Hr.
  unfold op_ldi.
  assert (Hoff : u16 (get (reg s) R_PC + sign_extend (Z.land instr 0x1FF) 9)
                 = u16 (get (reg s) R_PC + field_value 9 (Z.land instr 0x1FF)))
    by (apply (signed_offset _ instr 9); lia).
  rewrite (mem_read_plain _ s) by (rewrite Hoff; exact HA).
  rewrite Hoff, HB.
  rewrite (mem_read_plain B s) by exact HB'. rewrite HV.
  rewrite set_then_update by (unfold R_COND; lia).
  rewrite get_set_reg_ne by (unfold R_COND; lia).
  rewrite !get_set_reg_eq, u16_sign_flag.
  split; [reflexivity|]. split; [reflexivity|]. split; reflexivity.
Qed.

(** LDI R0 at 0x3000 through the pointer at 0x3001 to 0x4000. *)
Lemma ldi_double_indirection_witness :
  exists s',
    execute 0xA000 (Machine (<[0x4000 := 0x0042]> (<[0x3001 := 0x4000]> ∅))
                            (<[R_PC := 0x3001]> ∅) (Console [] [])) = Running s' /\
    get (reg s') (bits_11_9 0xA000) = u16 0x0042.
Proof.
  destruct (ldi_double_indirection 0xA000
              (Machine (<[0x4000 := 0x0042]> (<[0x3001 := 0x4000]> ∅))
                       (<[R_PC := 0x3001]> ∅) (Console [] []))
              0x4000 0x0042) as (s' & Hex & Hr & _).
  - reflexivity.
  - vm_compute. discriminate.
  - vm_compute. reflexivity.
  - vm_compute. discriminate.
  - vm_compute. reflexivity.
  - exists s'. split; [exact Hex | exact Hr].
Defined.

(** X16. A word stored with STR is what LDR with the same base register
    and offset loads back, reduced to 16 bits, unless the address is
    0xFE00; the load also sets the condition codes from it. *)
Theorem str_then_ldr (str ldr : Z) (s : machine) :
  bits_8_6 ldr = bits_8_6 str ->
  Z.land ldr 0x3F = Z.land str 0x3F ->
  u16 (get (reg s) (bits_8_6 str) + field_value 6 (Z.land str 0x3F)) <> MR_KBSR ->
  get (reg (op_ldr ldr (op_str str s))) (bits_11_9 ldr)
  = u16 (get (reg s) (bits_11_9 str)) /\
  get (reg (op_ldr ldr (op_str str s))) R_COND
  = sign_flag (u16 (get (reg s) (bits_11_9 str))) /\
  get (memory (op_ldr ldr (op_str str s)))
      (u16 (get (reg s) (bits_8_6 str) + field_value 6 (Z.land str 0x3F)))
  = u16 (get (reg s) (bits_11_9 str)).
Proof.
  intros Hbase Hoff Ha.
  pose proof (bits_11_9_range ldr) as Hr.
  set (a := u16 (get (reg s) (bits_8_6 str) + field_value 6 (Z.land str 0x3F))) in *.
  assert (Hsx : u16 (get (reg s) (bits_8_6 str) + sign_extend (Z.land str 0x3F) 6) = a)
    by (apply (signed_offset _ str 6); lia).
  assert (Hst : op_str str s
                = with_memory (<[a := u16 (get (reg s) (bits_11_9 str))]> (memory s)) s).
  { unfold op_str, mem_write. rewrite Hsx. reflexivity. }
  assert (Hld : op_ldr ldr (op_str str s)
                = update_flags (bits_11_9 ldr)
                    (set_reg (bits_11_9 ldr) (u16 (get (reg s) (bits_11_9 str)))
                       (op_str str s))).
  { unfold op_ldr. rewrite Hbase, Hoff.
    replace (reg (op_str str s)) with (reg s) by (rewrite Hst; reflexivity).
    rewrite mem_read_plain by (rewrite Hsx; exact Ha).
    rewrite Hsx. rewrite Hst at 1. cbn [memory with_memory].
    rewrite get_insert_eq. reflexivity. }
  rewrite Hld. rewrite set_then_update by (unfold R_COND; lia).
  rewrite get_set_reg_ne by (unfold R_COND; lia).
  rewrite !get_set_reg_eq. rewrite u16_idem, u16_sign_flag.
  split; [reflexivity|]. split; [reflexivity|].
  cbn [memory set_reg]. rewrite Hst. cbn [memory with_memory]. apply get_insert_eq.
Qed.

(** STR R1, R2, #3 then LDR R0, R2, #3 with R1 = 0xBEEF and R2 = 0x4000. *)
Lemma str_then_ldr_witness :
  get (reg (op_ldr 0x6083 (op_str 0x7283
              (Machine ∅ (<[R_R2 := 0x4000]> (<[R_R1 := 0xBEEF]> ∅)) (Console [] [])))))
      (bits_11_9 0x6083)
  = u16 (get (reg (Machine ∅ (<[R_R2 := 0x4000]> (<[R_R1 := 0xBEEF]> ∅)) (Console [] [])))
             (bits_11_9 0x7283)).
Proof.
  assert (Ha : u16 (get (reg (Machine ∅ (<[R_R2 := 0x4000]> (<[R_R1 := 0xBEEF]> ∅))
                                      (Console [] []))) (bits_8_6 0x7283)
                    + field_value 6 (Z.land 0x7283 0x3F)) <> MR_KBSR)
    by (vm_compute; discriminate).
  exact (proj1 (str_then_ldr 0x7283 0x6083 _ eq_refl eq_refl Ha)).
Defined.

(** X17. Every NOT instruction leaves in its destination the complement
    0xFFFF - x of the 16-bit source word x, whichever registers it names,
    and the loop goes on; a source register other than the destination
    keeps its word; and NOT applied twice to one register gives the
    register back. *)
Theorem not_complements (instr : Z) (s : machine) :
  get (reg (op_not instr s)) (bits_11_9 instr)
  = 0xFFFF - u16 (get (reg s) (bits_8_6 instr)) /\
  (Z.shiftr instr 12 = OP_NOT ->
   exists s', execute instr s = Running s' /\
              get (reg s') (bits_11_9 instr)
              = 0xFFFF - u16 (get (reg s) (bits_8_6 instr))) /\
  (bits_8_6 instr <> bits_11_9 instr ->
   get (reg (op_not instr s)) (bits_8_6 instr) = get (reg s) (bits_8_6 instr)) /\
  (bits_11_9 instr = bits_8_6 instr ->
   get (reg (op_not instr (op_not instr s))) (bits_11_9 instr)
   = u16 (get (reg s) (bits_8_6 instr))).
Proof.
  pose proof (bits_11_9_range instr) as Hr.
  pose proof (bits_8_6_range instr) as Hr1.
  assert (H1 : forall s0, get (reg (op_not instr s0)) (bits_11_9 instr)
                          = 0xFFFF - u16 (get (reg s0) (bits_8_6 instr))).
  { intros s0. unfold op_not.
    rewrite set_then_update by (unfold R_COND; lia).
    rewrite get_set_reg_ne by (unfold R_COND; lia).
    rewrite get_set_reg_eq. apply u16_lnot. }
  split; [apply H1|]. split; [|split].
  - intros Hop. exists (op_not instr s). split; [apply execute_not, Hop | apply H1].
  - intros Hne. unfold op_not.
    rewrite set_then_update by (unfold R_COND; lia).
    rewrite get_set_reg_ne by (unfold R_COND; lia).
    apply get_set_reg_ne. intros E. apply Hne. symmetry. exact E.
  - intros Hsame. rewrite H1. rewrite <- Hsame at 1. rewrite H1.
    pose proof (u16_range (get (reg s) (bits_8_6 instr))) as Hx.
    rewrite (u16_small (0xFFFF - _)) by lia. lia.
Qed.

(** NOT R1, R2 with R1 = 5 and R2 = 0xFFFF leaves 0 in R1 and R2 as it
    was; NOT R0, R0 twice on R0 = 0x00F0 gives 0x00F0 back. *)
Lemma not_complements_witness :
  (get (reg (op_not 0x92BF (Machine ∅ (<[R_R2 := 0xFFFF]> (<[R_R1 := 5]> ∅))
                                    (Console [] []))))
       R_R1 = 0 /\
   get (reg (op_not 0x92BF (Machine ∅ (<[R_R2 := 0xFFFF]> (<[R_R1 := 5]> ∅))
                                    (Console [] []))))
       R_R2 = 0xFFFF) /\
  get (reg (op_not 0x903F (op_not 0x903F
              (Machine ∅ (<[R_R0 := 0x00F0]> ∅) (Console [] [])))))
      (bits_11_9 0x903F) = u16 0x00F0.
Proof.
  split; [split|].
  - exact (proj1 (not_complements 0x92BF
                    (Machine ∅ (<[R_R2 := 0xFFFF]> (<[R_R1 := 5]> ∅)) (Console [] [])))).
  - refine (proj1 (proj2 (proj2 (not_complements 0x92BF
              (Machine ∅ (<[R_R2 := 0xFFFF]> (<[R_R1 := 5]> ∅)) (Console [] []))))) _).
    vm_compute. discriminate.
  - exact (proj2 (proj2 (proj2 (not_complements 0x903F
             (Machine ∅ (<[R_R0 := 0x00F0]> ∅) (Console [] [])))))
             eq_refl).
Defined.

(** X18. AND leaves in its destination the bitwise conjunction of the
    16-bit first operand and the 16-bit second operand (the register, or
    the sign-extended 5-bit immediate) with its flag in the condition
    codes; with a second operand of 0, as in AND R, R, #0, the destination
    is cleared and the flag is ZERO. *)
Theorem and_masks (instr : Z) (s : machine) :
  Z.shiftr instr 12 = OP_AND ->
  exists s',
    execute instr s = Running s' /\
    get (reg s') (bits_11_9 instr)
    = Z.land (u16 (get (reg s) (bits_8_6 instr))) (u16 (second_operand instr s)) /\
    get (reg s') R_COND = sign_flag (get (reg s') (bits_11_9 instr)) /\
    (second_operand instr s = 0 ->
     get (reg s') (bits_11_9 instr) = 0 /\ get (reg s') R_COND = FL_ZRO).
Proof.
  intros Hop. exists (op_and instr s).
  pose proof (bits_11_9_range instr) as Hr.
  pose proof (op_and_cond instr s) as [_ Hc].
  assert (Hd : get (reg (op_and instr s)) (bits_11_9 instr)
               = Z.land (u16 (get (reg s) (bits_8_6 instr))) (u16 (second_operand instr s))).
  { unfold op_and, second_operand.
    destruct (bit_5_cases instr) as [-> | ->]; cbn [Z.eqb negb Pos.eqb];
      rewrite set_then_update by (unfold R_COND; lia);
      rewrite get_set_reg_ne by (unfold R_COND; lia);
      rewrite get_set_reg_eq; apply u16_land. }
  split; [apply execute_and, Hop|]. split; [exact Hd|]. split; [exact Hc|].
  intros H0. rewrite Hc, Hd, H0. change (u16 0) with 0. rewrite Z.land_0_r.
  split; reflexivity.
Qed.

(** AND R0, R1, #0 on R1 = 0xABCD. *)
Lemma and_masks_witness :
  exists s',
    execute 0x5060 (Machine ∅ (<[R_R0 := 0x1111]> (<[R_R1 := 0xABCD]> ∅)) (Console [] []))
    = Running s' /\
    get (reg s') (bits_11_9 0x5060) = 0 /\ get (reg s') R_COND = FL_ZRO.
Proof.
  destruct (and_masks 0x5060
              (Machine ∅ (<[R_R0 := 0x1111]> (<[R_R1 := 0xABCD]> ∅)) (Console [] []))
              eq_refl) as (s' & Hex & _ & _ & H0).
  exists s'. split; [exact Hex|]. apply H0. reflexivity.
Defined.

(** X29. A word stored with ST is what LD with the same offset, executed
    at the same program counter, loads back, reduced to 16 bits, unless
    the address is 0xFE00; the address is the program counter plus the
    signed 9-bit offset, modulo 65536. *)
Theorem st_then_ld (st ld : Z) (s : machine) :
  Z.land ld 0x1FF = Z.land st 0x1FF ->
  u16 (get (reg s) R_PC + field_value 9 (Z.land st 0x1FF)) <> MR_KBSR ->
  get (reg (op_ld ld (op_st st s))) (bits_11_9 ld) = u16 (get (reg s) (bits_11_9 st)) /\
  get (memory (op_st st s)) (u16 (get (reg s) R_PC + field_value 9 (Z.land st 0x1FF)))
  = u16 (get (reg s) (bits_11_9 st)) /\
  reg (op_st st s) = reg s /\
  tty (op_st st s) = tty s.
Proof.
  intros Hoff Ha.
  pose proof (bits_11_9_range ld) as Hr.
  set (a := u16 (get (reg s) R_PC + field_value 9 (Z.land st 0x1FF))) in *.
  assert (Hsx : u16 (get (reg s) R_PC + sign_extend (Z.land st 0x1FF) 9) = a)
    by (apply (signed_offset _ st 9); lia).
  assert (Hst : op_st st s
                = with_memory (<[a := u16 (get (reg s) (bits_11_9 st))]> (memory s)) s).
  { unfold op_st, mem_write. rewrite Hsx. reflexivity. }
  split; [|split; [|split]].
  - unfold op_ld. rewrite Hoff.
    replace (reg (op_st st s)) with (reg s) by (rewrite Hst; reflexivity).
    rewrite mem_read_plain by (rewrite Hsx; exact Ha).
    rewrite Hsx. rewrite Hst at 1. cbn [memory with_memory]. rewrite get_insert_eq.
    rewrite set_then_update by (unfold R_COND; lia).
    rewrite get_set_reg_ne by (unfold R_COND; lia).
    rewrite get_set_reg_eq. apply u16_idem.
  - rewrite Hst. cbn [memory with_memory]. apply get_insert_eq.
  - rewrite Hst. reflexivity.
  - rewrite Hst. reflexivity.
Qed.

(** ST R1, #5 then LD R0, #5 at program counter 0x3001 with R1 = 0xBEEF. *)
Lemma st_then_ld_witness :
  get (reg (op_ld 0x2005 (op_st 0x3205
              (Machine ∅ (<[R_PC := 0x3001]> (<[R_R1 := 0xBEEF]> ∅)) (Console [] [])))))
      (bits_11_9 0x2005)
  = u16 (get (reg (Machine ∅ (<[R_PC := 0x3001]> (<[R_R1 := 0xBEEF]> ∅)) (Console [] [])))
             (bits_11_9 0x3205)).
Proof.
  assert (Ha : u16 (get (reg (Machine ∅ (<[R_PC := 0x3001]> (<[R_R1 := 0xBEEF]> ∅))
                                      (Console [] []))) R_PC
                    + field_value 9 (Z.land 0x3205 0x1FF)) <> MR_KBSR)
    by (vm_compute; discriminate).
  exact (proj1 (st_then_ld 0x3205 0x2005 _ eq_refl Ha)).
Defined.

(** X30. LEA leaves in its destination the program counter plus the
    signed 9-bit offset, modulo 65536, with its flag in the condition
    codes, and reads nothing: memory and the console are untouched even
    when the address computed is a keyboard register. *)
Theorem lea_computes_without_reading (instr : Z) (s : machine) :
  get (reg (op_lea instr s)) (bits_11_9 instr)
  = u16 (get (reg s) R_PC + field_value 9 (Z.land instr 0x1FF)) /\
  get (reg (op_lea instr s)) R_COND
  = sign_flag (u16 (get (reg s) R_PC + field_value 9 (Z.land instr 0x1FF))) /\
  memory (op_lea instr s) = memory s /\
  tty (op_lea instr s) = tty s.
Proof.
  pose proof (bits_11_9_range instr) as Hr.
  pose proof (op_lea_cond instr s) as [_ Hc].
  assert (Hd : get (reg (op_lea instr s)) (bits_11_9 instr)
               = u16 (get (reg s) R_PC + field_value 9 (Z.land instr 0x1FF))).
  { unfold op_lea. rewrite set_then_update by (unfold R_COND; lia).
    rewrite get_set_reg_ne by (unfold R_COND; lia).
    rewrite get_set_reg_eq. apply (signed_offset _ instr 9). lia. }
  split; [exact Hd|]. split; [rewrite Hc, Hd; reflexivity|].
  unfold op_lea. rewrite memory_update_flags, tty_update_flags. split; reflexivity.
Qed.

(** X14. The immediate of ADD is a signed 5-bit number: the destination
    receives the first operand plus a value from -16 to 15, modulo 65536,
    so that ADD R, R, #-1 (immediate field 0x1F) decrements. *)
Theorem add_immediate_is_signed (instr : Z) (s : machine) :
  bit_5 instr = 1 ->
  -16 <= field_value 5 (Z.land instr 0x1F) <= 15 /\
  get (reg (op_add instr s)) (bits_11_9 instr)
  = u16 (get (reg s) (bits_8_6 instr) + field_value 5 (Z.land instr 0x1F)) /\
  (Z.land instr 0x1F = 0x1F ->
   get (reg (op_add instr s)) (bits_11_9 instr) = u16 (get (reg s) (bits_8_6 instr) - 1)).
Proof.
  intros Himm.
  pose proof (land_ones_range instr 5 ltac:(lia)) as Hf.
  change (Z.ones 5) with 0x1F in Hf. change (2 ^ 5) with 32 in Hf.
  assert (Hrange : -16 <= field_value 5 (Z.land instr 0x1F) <= 15).
  { unfold field_value. change (5 - 1) with 4. change (2 ^ 5) with 32.
    destruct (Z.testbit (Z.land instr 0x1F) 4) eqn:E.
    - apply Z.testbit_true in E; [|lia]. change (2 ^ 4) with 16 in E.
      assert (Z.land instr 0x1F / 16 = 1).
      { assert (0 <= Z.land instr 0x1F / 16 < 2)
          by (split; [apply Z.div_pos; lia | apply Z.div_lt_upper_bound; lia]).
        destruct (Z.eq_dec (Z.land instr 0x1F / 16) 0) as [E0|E0];
          [rewrite E0 in E; discriminate | lia]. }
      pose proof (Z.div_mod (Z.land instr 0x1F) 16 ltac:(lia)).
      pose proof (Z.mod_pos_bound (Z.land instr 0x1F) 16 ltac:(lia)). lia.
    - apply Z.testbit_false in E; [|lia]. change (2 ^ 4) with 16 in E.
      assert (0 <= Z.land instr 0x1F / 16 < 2)
        by (split; [apply Z.div_pos; lia | apply Z.div_lt_upper_bound; lia]).
      assert (Z.land instr 0x1F / 16 = 0).
      { destruct (Z.eq_dec (Z.land instr 0x1F / 16) 1) as [E1|E1];
          [rewrite E1 in E; discriminate | lia]. }
      pose proof (Z.div_mod (Z.land instr 0x1F) 16 ltac:(lia)).
      pose proof (Z.mod_pos_bound (Z.land instr 0x1F) 16 ltac:(lia)). lia. }
  destruct (op_add_result instr s) as [Hd _].
  unfold second_operand in Hd. rewrite Himm in Hd. cbn [Z.eqb Pos.eqb] in Hd.
  assert (Hsum : get (reg (op_add instr s)) (bits_11_9 instr)
                 = u16 (get (reg s) (bits_8_6 instr) + field_value 5 (Z.land instr 0x1F))).
  { rewrite Hd. apply (signed_offset _ instr 5). lia. }
  split; [exact Hrange|]. split; [exact Hsum|].
  intros Hm1. rewrite Hsum, Hm1. reflexivity.
Qed.

(** ADD R0, R0, #-1 on R0 = 0 gives 0xFFFF. *)
Lemma add_immediate_is_signed_witness :
  get (reg (op_add 0x103F (Machine ∅ ∅ (Console [] [])))) (bits_11_9 0x103F)
  = u16 (get (reg (Machine ∅ ∅ (Console [] []))) (bits_8_6 0x103F) - 1).
Proof.
  exact (proj2 (proj2 (add_immediate_is_signed 0x103F (Machine ∅ ∅ (Console [] []))
                         eq_refl)) eq_refl).
Defined.

(** ** Branches, calls and traps *)

Section ControlMore.

Lemma bit_11_cases instr : bit_11 instr = 0 \/ bit_11 instr = 1.
Proof.
  unfold bit_11. change 1 with (Z.ones 1) at 1 2. rewrite Z.land_ones by lia.
  pose proof (Z.mod_pos_bound (Z.shiftr instr 11) (2 ^ 1) eq_refl).
  change (2 ^ 1) with 2 in *. lia.
Qed.

Lemma one_flag_meets_mask_7 c : exactly_one_flag c -> Z.land 7 c <> 0.
Proof. intros [[-> | [-> | ->]] _]; vm_compute; discriminate. Qed.

(** Every TRAP writes the program counter to R7 before it looks at the
    vector, and no service writes R7 afterwards. *)
Lemma op_trap_link instr s :
  get (reg (machine_of (op_trap instr s))) R_R7 = u16 (get (reg s) R_PC).
Proof.
  unfold op_trap. cbv zeta.
  assert (H7 : get (reg (set_reg R_R7 (get (reg s) R_PC) s)) R_R7 = u16 (get (reg s) R_PC))
    by apply get_set_reg_eq.
  set (s1 := set_reg R_R7 (get (reg s) R_PC) s) in *.
  repeat match goal with
         | |- context [if ?b then _ else _] => destruct b
         | |- context [getchar ?t] => destruct (getchar t)
         | |- context [puts_words ?r ?c ?m ?t] => destruct (puts_words r c m t) as [[|] ?]
         | |- context [putsp_words ?r ?c ?m ?t] => destruct (putsp_words r c m t) as [[|] ?]
         end; cbn [machine_of with_tty reg]; try exact H7;
    rewrite frame_update_flags by discriminate;
    rewrite frame_set_reg by discriminate; exact H7.
Qed.

End ControlMore.

(** X19. BR adds the signed 9-bit offset to the program counter exactly
    when its mask shares a bit with the condition codes, and otherwise
    changes nothing at all; it never touches memory or the console.  With
    mask 0 it is never taken; with mask 7 (BRnzp) it is taken whenever the
    condition codes hold one flag, as they do in every state the loop
    reaches. *)
Theorem br_follows_condition_codes (instr : Z) (s : machine) :
  Z.shiftr instr 12 = OP_BR ->
  execute instr s = Running (op_br instr s) /\
  memory (op_br instr s) = memory s /\
  tty (op_br instr s) = tty s /\
  (Z.land (bits_11_9 instr) (get (reg s) R_COND) = 0 -> op_br instr s = s) /\
  (Z.land (bits_11_9 instr) (get (reg s) R_COND) <> 0 ->
   get (reg (op_br instr s)) R_PC
   = u16 (get (reg s) R_PC + field_value 9 (Z.land instr 0x1FF))) /\
  (bits_11_9 instr = 0 -> op_br instr s = s) /\
  (bits_11_9 instr = 7 -> exactly_one_flag (get (reg s) R_COND) ->
   get (reg (op_br instr s)) R_PC
   = u16 (get (reg s) R_PC + field_value 9 (Z.land instr 0x1FF))).
Proof.
  intros Hop.
  assert (Hidle : Z.land (bits_11_9 instr) (get (reg s) R_COND) = 0 -> op_br instr s = s).
  { intros H. unfold op_br. rewrite H. reflexivity. }
  assert (Htaken : Z.land (bits_11_9 instr) (get (reg s) R_COND) <> 0 ->
                   get (reg (op_br instr s)) R_PC
                   = u16 (get (reg s) R_PC + field_value 9 (Z.land instr 0x1FF))).
  { intros H. unfold op_br.
    destruct (Z.eqb_spec (Z.land (bits_11_9 instr) (get (reg s) R_COND)) 0) as [E|_];
      [contradiction|].
    cbn [negb]. rewrite get_set_reg_eq. apply (signed_offset _ instr 9). lia. }
  split; [apply execute_br, Hop|].
  split; [unfold op_br; destruct (negb _); reflexivity|].
  split; [unfold op_br; destruct (negb _); reflexivity|].
  split; [exact Hidle|]. split; [exact Htaken|]. split.
  - intros H0. apply Hidle. rewrite H0. reflexivity.
  - intros H7 Hone. apply Htaken. rewrite H7. apply one_flag_meets_mask_7, Hone.
Qed.

(** BRnzp #-2 (0x0FFE) at program counter 0x3001 with ZERO set goes to
    0x2FFF. *)
Lemma br_follows_condition_codes_witness :
  get (reg (op_br 0x0FFE (Machine ∅ (<[R_COND := FL_ZRO]> (<[R_PC := 0x3001]> ∅))
                                  (Console [] [])))) R_PC
  = u16 (get (reg (Machine ∅ (<[R_COND := FL_ZRO]> (<[R_PC := 0x3001]> ∅))
                           (Console [] []))) R_PC
         + field_value 9 (Z.land 0x0FFE 0x1FF)).
Proof.
  destruct (br_follows_condition_codes 0x0FFE
              (Machine ∅ (<[R_COND := FL_ZRO]> (<[R_PC := 0x3001]> ∅)) (Console [] []))
              eq_refl) as (_ & _ & _ & _ & _ & _ & H7).
  apply H7; [reflexivity|].
  split; [right; left; reflexivity | reflexivity].
Defined.

(** X20. JSR and JSRR leave the return address in R7; JSR goes to the
    program counter plus the signed 11-bit offset, JSRR with a base other
    than R7 to the word in the base register; and a JMP R7 (RET) executed
    while R7 still holds the link brings the program counter back to the
    return address. *)
Theorem jsr_then_ret (jsr ret : Z) (s : machine) :
  bits_8_6 ret = R_R7 ->
  get (reg (op_jsr jsr s)) R_R7 = u16 (get (reg s) R_PC) /\
  (bit_11 jsr = 1 ->
   get (reg (op_jsr jsr s)) R_PC
   = u16 (get (reg s) R_PC + field_value 11 (Z.land jsr 0x7FF))) /\
  (bit_11 jsr = 0 -> bits_8_6 jsr <> R_R7 ->
   get (reg (op_jsr jsr s)) R_PC = u16 (get (reg s) (bits_8_6 jsr))) /\
  get (reg (op_jmp ret (op_jsr jsr s))) R_PC = u16 (get (reg s) R_PC).
Proof.
  intros Hret.
  assert (H7 : get (reg (op_jsr jsr s)) R_R7 = u16 (get (reg s) R_PC)).
  { unfold op_jsr. destruct (negb _);
      rewrite get_set_reg_ne by discriminate; apply get_set_reg_eq. }
  split; [exact H7|]. split; [|split].
  - intros Hl. unfold op_jsr. rewrite Hl. cbn [Z.eqb negb Pos.eqb].
    rewrite get_set_reg_eq. rewrite get_set_reg_ne by discriminate.
    apply (signed_offset _ jsr 11). lia.
  - intros Hl Hb. unfold op_jsr. rewrite Hl. cbn [Z.eqb negb].
    rewrite get_set_reg_eq.
    rewrite get_set_reg_ne by (intros E; apply Hb; symmetry; exact E). reflexivity.
  - unfold op_jmp. rewrite get_set_reg_eq, Hret, H7. apply u16_idem.
Qed.

(** JSR #+0x10 from 0x3001, then RET. *)
Lemma jsr_then_ret_witness :
  get (reg (op_jmp RET (op_jsr 0x4810 (Machine ∅ (<[R_PC := 0x3001]> ∅) (Console [] [])))))
      R_PC
  = u16 (get (reg (Machine ∅ (<[R_PC := 0x3001]> ∅) (Console [] []))) R_PC).
Proof.
  exact (proj2 (proj2 (proj2 (jsr_then_ret 0x4810 RET
                                (Machine ∅ (<[R_PC := 0x3001]> ∅) (Console [] []))
                                eq_refl)))).
Defined.

(** X21. Every TRAP, whatever its vector and however its turn ends
    (service done, halt, or fault in PUTS/PUTSP), leaves in R7 the address
    of the instruction after the TRAP. *)
Theorem trap_links_r7 (s : machine) (instr : Z) (s1 : machine) :
  fetch s = (instr, s1) ->
  Z.shiftr instr 12 = OP_TRAP ->
  get (reg (machine_of (step s))) R_R7 = u16 (get (reg s) R_PC + 1).
Proof.
  intros Hf Hop. unfold step. rewrite Hf, (execute_trap instr s1 Hop).
  rewrite op_trap_link, (fetch_pc _ _ _ Hf), get_insert_eq. apply u16_idem.
Qed.

Lemma trap_links_r7_witness :
  get (reg (machine_of (step trap_x26_then_halt))) R_R7
  = u16 (get (reg trap_x26_then_halt) R_PC + 1).
Proof.
  assert (Hf : fetch trap_x26_then_halt = (TRAP_x26, snd (fetch trap_x26_then_halt)))
    by (vm_compute; reflexivity).
  exact (trap_links_r7 _ _ _ Hf eq_refl).
Defined.

(** X22. TRAP HALT ends the run in that turn: it prints Shutdown and a
    newline, takes no input, and leaves memory and every register but R7
    as the fetch left them; however many more turns are allowed, nothing
    further is executed. *)
Theorem halt_stops_the_run (s : machine) (instr : Z) (s1 : machine) :
  fetch s = (instr, s1) ->
  Z.shiftr instr 12 = OP_TRAP ->
  Z.land instr 0xFF = TRAP_HALT ->
  exists s',
    step s = Halted s' /\
    (forall turns, run (S turns) s = Halted s') /\
    memory s' = memory s1 /\
    stdin (tty s') = stdin (tty s1) /\
    stdout (tty s') = stdout (tty s1) ++ chars "Shutdown" ++ newline /\
    (forall r, r <> R_R7 -> get (reg s') r = get (reg s1) r).
Proof.
  intros Hf Hop Hcode.
  assert (Hstep : step s
                  = Halted (with_tty (print (chars "Shutdown" ++ newline) (tty s1))
                                     (set_reg R_R7 (get (reg s1) R_PC) s1))).
  { unfold step. rewrite Hf, (execute_trap instr s1 Hop).
    unfold op_trap. rewrite Hcode. reflexivity. }
  eexists. split; [exact Hstep|]. split; [|split; [|split; [|split]]].
  - intros turns. apply run_stops; [exact Hstep | discriminate].
  - reflexivity.
  - reflexivity.
  - reflexivity.
  - intros r Hr. cbn [reg with_tty]. apply frame_set_reg. exact Hr.
Qed.

Lemma halt_stops_the_run_witness :
  exists s',
    run 5 (poised HALT ∅ []) = Halted s' /\
    stdout (tty s') = stdout (tty (snd (fetch (poised HALT ∅ []))))
                      ++ chars "Shutdown" ++ newline.
Proof.
  assert (Hf : fetch (poised HALT ∅ []) = (HALT, snd (fetch (poised HALT ∅ []))))
    by (vm_compute; reflexivity).
  destruct (halt_stops_the_run _ _ _ Hf eq_refl eq_refl)
    as (s' & _ & Hrun & _ & _ & Hout & _).
  exists s'. split; [exact (Hrun 4%nat) | exact Hout].
Defined.

(** ** The output and input services *)

Section Characters.

Lemma to_uchar_to_char z : to_uchar (to_char z) = low_byte z.
Proof.
  unfold to_uchar, to_char, low_byte.
  rewrite Zminus_mod_idemp_l. f_equal. lia.
Qed.

Lemma to_char_zero z : (to_char z =? 0) = (low_byte z =? 0).
Proof.
  unfold to_char, low_byte.
  pose proof (Z.mod_pos_bound (z + 128) 256 ltac:(lia)) as H1.
  pose proof (Z.mod_pos_bound z 256 ltac:(lia)) as H2.
  assert (E : (z + 128) mod 256 = (z mod 256 + 128) mod 256)
    by (rewrite Z.add_mod_idemp_l by lia; reflexivity).
  destruct (Z.eqb_spec ((z + 128) mod 256 - 128) 0) as [Ha|Ha],
           (Z.eqb_spec (z mod 256) 0) as [Hb|Hb]; try reflexivity; exfalso.
  - rewrite E in Ha.
    destruct (Z.lt_ge_cases (z mod 256) 128) as [Hlt|Hge].
    + rewrite Z.mod_small in Ha by lia. lia.
    + replace (z mod 256 + 128) with (z mod 256 - 128 + 1 * 256) in Ha by lia.
      rewrite Z.mod_add, Z.mod_small in Ha by lia. lia.
  - rewrite E, Hb in Ha. apply Ha. reflexivity.
Qed.

Lemma u16_to_char_byte c :
  0 <= c < 256 -> u16 (to_char c) = sign_extended_byte c /\ low_byte (to_char c) = c.
Proof.
  intros Hc. unfold to_char, sign_extended_byte, low_byte, u16.
  destruct (Z.ltb_spec c 128) as [Hlt|Hge].
  - rewrite (Z.mod_small (c + 128)) by lia.
    replace (c + 128 - 128) with c by lia.
    split; apply Z.mod_small; lia.
  - replace (c + 128) with (c - 128 + 1 * 256) by lia.
    rewrite Z.mod_add, (Z.mod_small (c - 128)) by lia.
    split.
    + replace (c - 128 - 128) with (0xFF00 + c + (-1) * 65536) by lia.
      rewrite Z.mod_add by lia. apply Z.mod_small. lia.
    + replace (c - 128 - 128) with (c + (-1) * 256) by lia.
      rewrite Z.mod_add by lia. apply Z.mod_small. lia.
Qed.

Lemma puts_words_string ws :
  forall room c m t,
    string_at m c ws ->
    (length ws < room)%nat ->
    puts_words room c m t = (true, Console (stdin t) (stdout t ++ map low_byte ws)).
Proof.
  induction ws as [|w rest IH]; intros room c m t Hs Hroom;
    (destruct room as [|room]; [cbn [length] in Hroom; lia|]); cbn [puts_words].
  - cbn [string_at] in Hs. rewrite Hs. cbn [Z.eqb negb map].
    rewrite app_nil_r. destruct t; reflexivity.
  - destruct Hs as (Hw & Hnz & Hrest). rewrite Hw.
    destruct (Z.eqb_spec w 0) as [E|_]; [contradiction|]. cbn [negb].
    rewrite (IH room (c + 1) m _ Hrest) by (cbn [length] in Hroom; lia).
    cbn [putc stdin stdout map]. rewrite to_uchar_to_char, <- app_assoc. reflexivity.
Qed.

Lemma putsp_words_string ws :
  forall room c m t,
    string_at m c ws ->
    (length ws < room)%nat ->
    putsp_words room c m t
    = (true, Console (stdin t) (stdout t ++ concat (map packed_chars ws))).
Proof.
  induction ws as [|w rest IH]; intros room c m t Hs Hroom;
    (destruct room as [|room]; [cbn [length] in Hroom; lia|]); cbn [putsp_words].
  - cbn [string_at] in Hs. rewrite Hs. cbn [Z.eqb negb map concat].
    rewrite app_nil_r. destruct t; reflexivity.
  - destruct Hs as (Hw & Hnz & Hrest). rewrite Hw. cbv zeta.
    destruct (Z.eqb_spec w 0) as [E|_]; [contradiction|]. cbn [negb].
    rewrite (IH room (c + 1) m _ Hrest) by (cbn [length] in Hroom; lia).
    cbn [map concat]. unfold packed_chars.
    rewrite to_char_zero, Z.shiftr_div_pow2 by lia. change (2 ^ 8) with 256.
    assert (Hlo : low_byte (Z.land w 0xFF) = low_byte w).
    { change 0xFF with (Z.ones 8).
      rewrite Z.land_ones by lia. unfold low_byte. change (2 ^ 8) with 256.
      apply Z.mod_mod. lia. }
    destruct (low_byte (w / 256) =? 0); cbn [negb putc stdin stdout];
      rewrite ?to_uchar_to_char, Hlo, <- ?app_assoc; reflexivity.
Qed.

Lemma low_byte_land w : low_byte (Z.land w 0xFF) = low_byte w.
Proof.
  change 0xFF with (Z.ones 8).
  rewrite Z.land_ones by lia. unfold low_byte. change (2 ^ 8) with 256.
  apply Z.mod_mod. lia.
Qed.

(** Without a zero word in the [room] cells from [c] on, both loops print
    all of them and come to read the cell after the last. *)
Lemma puts_words_unterminated room :
  forall c m t,
    (forall a, c <= a < c + Z.of_nat room -> get m a <> 0) ->
    puts_words room c m t
    = (false, Console (stdin t) (stdout t ++ map low_byte (words_from m c room))) /\
    putsp_words room c m t
    = (false, Console (stdin t)
                (stdout t ++ concat (map packed_chars (words_from m c room)))).
Proof.
  induction room as [|n IH]; intros c m t H.
  { cbn [puts_words putsp_words words_from map concat]. rewrite app_nil_r.
    destruct t; split; reflexivity. }
  cbn [puts_words putsp_words words_from map concat]. cbv zeta.
  destruct (Z.eqb_spec (get m c) 0) as [E|_]; [exfalso; apply (H c); [lia | exact E]|].
  cbn [negb].
  assert (Hn : forall a, c + 1 <= a < c + 1 + Z.of_nat n -> get m a <> 0)
    by (intros a Ha; apply H; lia).
  split.
  - rewrite (proj1 (IH (c + 1) m _ Hn)). cbn [putc stdin stdout].
    rewrite to_uchar_to_char, <- app_assoc. reflexivity.
  - rewrite (proj2 (IH (c + 1) m _ Hn)). unfold packed_chars at 2.
    rewrite to_char_zero, Z.shiftr_div_pow2 by lia. change (2 ^ 8) with 256.
    destruct (low_byte (get m c / 256) =? 0); cbn [negb putc stdin stdout];
      rewrite ?to_uchar_to_char, low_byte_land, <- ?app_assoc; reflexivity.
Qed.

End Characters.

(** X23. TRAP PUTS prints the low byte of each word from the address in
    R0 up to, not including, the first zero word, when that zero word
    lies within memory; it takes no input, changes no memory cell and no
    register but R7, and the loop goes on. *)
Theorem puts_prints_up_to_the_zero_word (instr : Z) (s : machine) (ws : list Z) :
  Z.shiftr instr 12 = OP_TRAP ->
  Z.land instr 0xFF = TRAP_PUTS ->
  string_at (memory s) (get (reg s) R_R0) ws ->
  get (reg s) R_R0 + Z.of_nat (length ws) <= 0xFFFF ->
  execute instr s
  = Running (with_tty (Console (stdin (tty s)) (stdout (tty s) ++ map low_byte ws))
                      (set_reg R_R7 (get (reg s) R_PC) s)).
Proof.
  intros Hop Hcode Hs Hlen. rewrite (execute_trap instr s Hop).
  unfold op_trap. rewrite Hcode. cbv zeta. cbn [Z.eqb TRAP_PUTS TRAP_GETC TRAP_OUT Pos.eqb].
  rewrite get_set_reg_ne by discriminate. cbn [memory tty set_reg].
  rewrite (puts_words_string ws _ _ _ _ Hs); [reflexivity|].
  change MEMORY_MAX with 65536. lia.
Qed.

Lemma puts_prints_up_to_the_zero_word_witness :
  execute PUTS hi_at_4000
  = Running (with_tty (Console (stdin (tty hi_at_4000))
                               (stdout (tty hi_at_4000) ++ map low_byte [0x48; 0x49]))
                      (set_reg R_R7 (get (reg hi_at_4000) R_PC) hi_at_4000)).
Proof.
  apply (puts_prints_up_to_the_zero_word PUTS hi_at_4000 [0x48; 0x49]).
  - reflexivity.
  - reflexivity.
  - vm_compute. repeat split; discriminate.
  - vm_compute. discriminate.
Defined.

(** X24. TRAP PUTSP prints for each word from the address in R0 up to
    the first zero word its low byte, always, and then its high byte
    unless that byte is zero; a word such as 0x4100 therefore prints a zero
    byte followed by 'A'.  It takes no input, changes no memory cell and no
    register but R7, and the loop goes on. *)
Theorem putsp_prints_packed_bytes (instr : Z) (s : machine) (ws : list Z) :
  Z.shiftr instr 12 = OP_TRAP ->
  Z.land instr 0xFF = TRAP_PUTSP ->
  string_at (memory s) (get (reg s) R_R0) ws ->
  get (reg s) R_R0 + Z.of_nat (length ws) <= 0xFFFF ->
  execute instr s
  = Running (with_tty (Console (stdin (tty s))
                               (stdout (tty s) ++ concat (map packed_chars ws)))
                      (set_reg R_R7 (get (reg s) R_PC) s)) /\
  packed_chars 0x4100 = [0; 0x41].
Proof.
  intros Hop Hcode Hs Hlen. split; [|reflexivity]. rewrite (execute_trap instr s Hop).
  unfold op_trap. rewrite Hcode. cbv zeta.
  cbn [Z.eqb TRAP_PUTSP TRAP_PUTS TRAP_IN TRAP_GETC TRAP_OUT Pos.eqb].
  rewrite get_set_reg_ne by discriminate. cbn [memory tty set_reg].
  rewrite (putsp_words_string ws _ _ _ _ Hs); [reflexivity|].
  change MEMORY_MAX with 65536. lia.
Qed.

Lemma putsp_prints_packed_bytes_witness :
  execute PUTSP hi_at_4000
  = Running (with_tty (Console (stdin (tty hi_at_4000))
                               (stdout (tty hi_at_4000)
                                ++ concat (map packed_chars [0x48; 0x49])))
                      (set_reg R_R7 (get (reg hi_at_4000) R_PC) hi_at_4000)).
Proof.
  apply (putsp_prints_packed_bytes PUTSP hi_at_4000 [0x48; 0x49]).
  - reflexivity.
  - reflexivity.
  - vm_compute. repeat split; discriminate.
  - vm_compute. discriminate.
Defined.

(** X25. When no zero word lies between the address in R0 and 0xFFFF,
    nothing stops the output loop of PUTS or PUTSP inside the array: it
    prints the low byte (for PUTSP the packed bytes) of every word from
    that address to 0xFFFF, the pointer is not wrapped to address 0, and
    the next read is [memory[65536]], which C leaves undefined.  That read
    is where the embedding stops following the turn: [Fault] holds the
    machine as it stands then, R7 linked and the output up to there. *)
Theorem unterminated_string_reads_past_memory (instr : Z) (s : machine) :
  Z.shiftr instr 12 = OP_TRAP ->
  (forall a, get (reg s) R_R0 <= a <= 0xFFFF -> get (memory s) a <> 0) ->
  (Z.land instr 0xFF = TRAP_PUTS ->
   execute instr s
   = Fault (with_tty
              (Console (stdin (tty s))
                 (stdout (tty s)
                  ++ map low_byte
                       (words_from (memory s) (get (reg s) R_R0)
                          (Z.to_nat (MEMORY_MAX - get (reg s) R_R0)))))
              (set_reg R_R7 (get (reg s) R_PC) s))) /\
  (Z.land instr 0xFF = TRAP_PUTSP ->
   execute instr s
   = Fault (with_tty
              (Console (stdin (tty s))
                 (stdout (tty s)
                  ++ concat (map packed_chars
                               (words_from (memory s) (get (reg s) R_R0)
                                  (Z.to_nat (MEMORY_MAX - get (reg s) R_R0))))))
              (set_reg R_R7 (get (reg s) R_PC) s))).
Proof.
  intros Hop Hnz. rewrite (execute_trap instr s Hop).
  unfold op_trap. cbv zeta.
  rewrite get_set_reg_ne by discriminate. cbn [memory tty set_reg].
  destruct (puts_words_unterminated
              (Z.to_nat (MEMORY_MAX - get (reg s) R_R0)) (get (reg s) R_R0)
              (memory s) (tty s)) as [H1 H2].
  { intros a Ha. apply Hnz. change MEMORY_MAX with 65536 in Ha. lia. }
  split; intros ->;
    cbn [Z.eqb TRAP_PUTSP TRAP_PUTS TRAP_IN TRAP_GETC TRAP_OUT Pos.eqb];
    [rewrite H1 | rewrite H2]; reflexivity.
Qed.

(** R0 points at 0xFFFF, which holds 'A': PUTS prints the A and comes to
    read past the array. *)
Lemma unterminated_string_reads_past_memory_witness :
  execute PUTS unterminated
  = Fault (with_tty (Console [] [0x41])
                    (set_reg R_R7 (get (reg unterminated) R_PC) unterminated)).
Proof.
  assert (H : forall a, get (reg unterminated) R_R0 <= a <= 0xFFFF ->
                        get (memory unterminated) a <> 0).
  { intros a Ha. change (get (reg unterminated) R_R0) with 0xFFFF in Ha.
    replace a with 0xFFFF by lia. vm_compute. discriminate. }
  rewrite (proj1 (unterminated_string_reads_past_memory PUTS unterminated eq_refl H)
             eq_refl).
  vm_compute. reflexivity.
Defined.

(** X26. With a character waiting, TRAP GETC leaves its code, 0 to 255,
    in R0 and prints nothing, while TRAP IN prints its prompt, echoes the
    character, and leaves in R0 the code sign-extended from 8 bits: a byte
    of 0x80 or more becomes 0xFF80 or more and sets NEGATIVE.  Both take
    exactly that character from the input and set the condition codes from
    R0. *)
Theorem getc_zero_extends_in_sign_extends
  (instr : Z) (s : machine) (c : byte) (rest : list tty_event) :
  Z.shiftr instr 12 = OP_TRAP ->
  next_key (stdin (tty s)) = Some (c, rest) ->
  (Z.land instr 0xFF = TRAP_GETC ->
   exists s',
     execute instr s = Running s' /\
     get (reg s') R_R0 = Z.of_N (Byte.to_N c) /\
     get (reg s') R_COND = sign_flag (Z.of_N (Byte.to_N c)) /\
     stdin (tty s') = rest /\
     stdout (tty s') = stdout (tty s)) /\
  (Z.land instr 0xFF = TRAP_IN ->
   exists s',
     execute instr s = Running s' /\
     get (reg s') R_R0 = sign_extended_byte (Z.of_N (Byte.to_N c)) /\
     get (reg s') R_COND = sign_flag (sign_extended_byte (Z.of_N (Byte.to_N c))) /\
     (128 <= Z.of_N (Byte.to_N c) -> get (reg s') R_COND = FL_NEG) /\
     stdin (tty s') = rest /\
     stdout (tty s') = stdout (tty s) ++ chars "Enter a character: "
                       ++ [Z.of_N (Byte.to_N c)]).
Proof.
  intros Hop Hkey. pose proof (byte_code_range c) as Hc.
  rewrite (execute_trap instr s Hop). split; intros Hcode.
  - unfold op_trap. rewrite Hcode. cbv zeta. cbn [Z.eqb TRAP_GETC Pos.eqb].
    unfold getchar. cbn [tty set_reg]. rewrite Hkey.
    eexists. split; [reflexivity|].
    rewrite set_then_update by discriminate.
    rewrite get_set_reg_ne by discriminate. rewrite !get_set_reg_eq.
    rewrite u16_sign_flag, (u16_small (Z.of_N (Byte.to_N c))) by lia.
    repeat split; reflexivity.
  - unfold op_trap. rewrite Hcode. cbv zeta.
    cbn [Z.eqb TRAP_IN TRAP_PUTS TRAP_GETC TRAP_OUT Pos.eqb].
    unfold getchar. cbn [tty set_reg print stdin stdout]. rewrite Hkey.
    destruct (u16_to_char_byte _ Hc) as [Hsx Hlow].
    eexists. split; [reflexivity|].
    rewrite set_then_update by discriminate.
    rewrite get_set_reg_ne by discriminate. rewrite !get_set_reg_eq.
    rewrite u16_sign_flag, Hsx.
    split; [reflexivity|]. split; [reflexivity|]. split; [|split].
    + intros Hhigh. unfold sign_extended_byte.
      replace (Z.of_N (Byte.to_N c) <? 128) with false by lia.
      unfold sign_flag.
      replace (0xFF00 + Z.of_N (Byte.to_N c) =? 0) with false by lia.
      replace (Z.testbit (0xFF00 + Z.of_N (Byte.to_N c)) 15) with true; [reflexivity|].
      symmetry. apply Z.testbit_true; [lia|].
      change (2 ^ 15) with 32768.
      replace ((0xFF00 + Z.of_N (Byte.to_N c)) / 32768) with 1; [reflexivity|].
      apply (Z.div_unique _ 32768 1 (0xFF00 + Z.of_N (Byte.to_N c) - 32768)); lia.
    + reflexivity.
    + cbn [tty set_reg with_tty putc stdout]. rewrite to_uchar_to_char.
      unfold low_byte. rewrite Z.mod_small by lia.
      rewrite <- app_assoc. reflexivity.
Qed.

(** The key 0xE9 read by GETC and by IN. *)
Lemma getc_zero_extends_in_sign_extends_witness :
  (exists s', execute GETC (Machine ∅ ∅ (Console [Keys xe9 []] [])) = Running s' /\
              get (reg s') R_R0 = Z.of_N (Byte.to_N xe9)) /\
  (exists s', execute IN (Machine ∅ ∅ (Console [Keys xe9 []] [])) = Running s' /\
              get (reg s') R_R0 = sign_extended_byte (Z.of_N (Byte.to_N xe9))).
Proof.
  split.
  - destruct (proj1 (getc_zero_extends_in_sign_extends GETC
                       (Machine ∅ ∅ (Console [Keys xe9 []] [])) xe9 [] eq_refl eq_refl)
                eq_refl) as (s' & Hex & Hr & _).
    exists s'. split; [exact Hex | exact Hr].
  - destruct (proj2 (getc_zero_extends_in_sign_extends IN
                       (Machine ∅ ∅ (Console [Keys xe9 []] [])) xe9 [] eq_refl eq_refl)
                eq_refl) as (s' & Hex & Hr & _).
    exists s'. split; [exact Hex | exact Hr].
Defined.

(** X27. At the end of input both TRAP GETC and TRAP IN leave 0xFFFF in
    R0 with the NEGATIVE flag and the loop goes on; IN still prints its
    prompt and echoes the byte 0xFF. *)
Theorem end_of_input_reads_ffff (instr : Z) (s : machine) :
  Z.shiftr instr 12 = OP_TRAP ->
  next_key (stdin (tty s)) = None ->
  (Z.land instr 0xFF = TRAP_GETC ->
   exists s',
     execute instr s = Running s' /\
     get (reg s') R_R0 = 0xFFFF /\
     get (reg s') R_COND = FL_NEG /\
     stdout (tty s') = stdout (tty s)) /\
  (Z.land instr 0xFF = TRAP_IN ->
   exists s',
     execute instr s = Running s' /\
     get (reg s') R_R0 = 0xFFFF /\
     get (reg s') R_COND = FL_NEG /\
     stdout (tty s') = stdout (tty s) ++ chars "Enter a character: " ++ [0xFF]).
Proof.
  intros Hop Hkey. rewrite (execute_trap instr s Hop). split; intros Hcode.
  - unfold op_trap. rewrite Hcode. cbv zeta. cbn [Z.eqb TRAP_GETC Pos.eqb].
    unfold getchar. cbn [tty set_reg]. rewrite Hkey.
    eexists. split; [reflexivity|].
    rewrite set_then_update by discriminate.
    rewrite get_set_reg_ne by discriminate. rewrite !get_set_reg_eq.
    repeat split; reflexivity.
  - unfold op_trap. rewrite Hcode. cbv zeta.
    cbn [Z.eqb TRAP_IN TRAP_PUTS TRAP_GETC TRAP_OUT Pos.eqb].
    unfold getchar. cbn [tty set_reg print stdin stdout]. rewrite Hkey.
    eexists. split; [reflexivity|].
    rewrite set_then_update by discriminate.
    rewrite get_set_reg_ne by discriminate. rewrite !get_set_reg_eq.
    split; [reflexivity|]. split; [reflexivity|].
    cbn [tty set_reg with_tty putc stdout]. rewrite <- app_assoc. reflexivity.
Qed.

Lemma end_of_input_reads_ffff_witness :
  exists s', execute GETC (Machine ∅ ∅ (Console [Idle] [])) = Running s' /\
             get (reg s') R_R0 = 0xFFFF /\ get (reg s') R_COND = FL_NEG.
Proof.
  destruct (proj1 (end_of_input_reads_ffff GETC (Machine ∅ ∅ (Console [Idle] []))
                     eq_refl eq_refl) eq_refl) as (s' & Hex & Hr & Hc & _).
  exists s'. split; [exact Hex|]. split; [exact Hr | exact Hc].
Defined.

(** ** Starting the program *)

(** X28. With no image argument the program prints its usage line and
    exits with status 2.  With at least one, it enters the loop exactly
    when every image named can be opened. *)
Theorem main_runs_iff_every_image_opens
  (fs : filesystem) (stale : nat -> Z) (argv : list string) (t : console) (turns : nat) :
  ((length argv < 2)%nat ->
   main fs stale argv t turns
   = Exit 2 (print (chars "./lc3-vm [image-file1] ..." ++ newline) t)) /\
  ((2 <= length argv)%nat ->
   ((forall p, In p (tl argv) -> fs p <> None) <->
    exists st, main fs stale argv t turns = Loop st)).
Proof.
  split.
  - intros Hlen. unfold main.
    replace (Z.of_nat (length argv) <? 2) with true by lia. reflexivity.
  - intros Hlen. unfold main.
    replace (Z.of_nat (length argv) <? 2) with false by lia. split.
    + intros Hall.
      destruct (load_images_present fs stale (tl argv) 1%nat ∅ Hall) as [m Hm].
      rewrite Hm. eexists. reflexivity.
    + intros [st Hst] p Hin Hnone.
      destruct (load_images_missing fs stale (tl argv) 1%nat ∅ p Hin Hnone)
        as (first & _ & _ & Hl).
      rewrite Hl in Hst. discriminate.
Qed.

(** The program given the one image that exists enters the loop. *)
Lemma main_runs_iff_every_image_opens_witness :
  exists st, main hi_files (fun _ => 0) ["lc3-vm"; "hi.obj"]%string (Console [] []) 3
             = Loop st.
Proof.
  apply (proj2 (main_runs_iff_every_image_opens hi_files (fun _ => 0)
                  ["lc3-vm"; "hi.obj"]%string (Console [] []) 3)).
  - cbn [length]. lia.
  - intros p [<-|[]]. discriminate.
Defined.
